(** * Inventory cleaning ([comb.py]): a shallow embedding and its properties

    The development follows [clean_inventory_data] of [src/comb.py], and
    the duplicate rate computed by [main].

    - Python [str] values are lists of Unicode code points; [\s], [\d]
      and [str.strip] use the Unicode classes of Python's [re] and [str]
      (character tables of Unicode 14).
    - A pandas column is the list of its cells, a [DataFrame] is its row
      labels together with its named columns (column-major, as pandas
      stores it). Cells are the objects of an object-dtype column: [str],
      [int], the float [nan] that [read_csv] and [read_excel] put for a
      missing value, or one of the null objects [None], [pd.NA] and
      [pd.NaT]; [astype(str)] gives the [str()] of each cell. Column names
      and row labels are unique in a well-formed frame ([Frame.wf]); the
      statements on runs are about such frames, since pandas selects a
      frame, not a column, by a name that occurs twice.
    - Frames are mutable objects: the function runs in a state-and-error
      monad over a store of frames, so that [df.copy()], item assignment
      and the raised exceptions are the ones of the source. Cells are
      immutable objects and are shared by copies.
    - [sort_values] runs numpy's quicksort, which fixes no order among
      equal values: the function takes the sort as a parameter. *)

From Stdlib Require Import NArith ZArith QArith List Bool Ascii String Lia
  Permutation Sorted.
From stdpp Require Import base tactics option list numbers sorting.

Local Open Scope N_scope.
Local Open Scope list_scope.

(** ** Python strings *)

(** A [str] is a sequence of code points. *)
Abbreviation pystr := (list N).

Module Utf8.

(** String literals of this file are UTF-8 encoded, like the source
    file; [decode] gives their code points. *)
Fixpoint decode (bs : list N) : pystr :=
  match bs with
  | [] => []
  | b :: r =>
      if b <? 0x80 then b :: decode r
      else if b <? 0xE0 then
        match r with
        | b1 :: r' => ((b - 0xC0) * 64 + (b1 - 0x80)) :: decode r'
        | _ => []
        end
      else if b <? 0xF0 then
        match r with
        | b1 :: b2 :: r' =>
            ((b - 0xE0) * 4096 + (b1 - 0x80) * 64 + (b2 - 0x80)) :: decode r'
        | _ => []
        end
      else
        match r with
        | b1 :: b2 :: b3 :: r' =>
            ((b - 0xF0) * 262144 + (b1 - 0x80) * 4096 + (b2 - 0x80) * 64
             + (b3 - 0x80)) :: decode r'
        | _ => []
        end
  end.

Fixpoint bytes (s : string) : list N :=
  match s with
  | EmptyString => []
  | String a r => N_of_ascii a :: bytes r
  end.

Definition lit (s : string) : pystr := decode (bytes s).

End Utf8.

Abbreviation lit := Utf8.lit.

Module Unicode.

Definition in_range (lo hi c : N) : bool := (lo <=? c) && (c <=? hi).

Definition in_table (t : list (N * N)) (c : N) : bool :=
  existsb (fun r => in_range (fst r) (snd r) c) t.

(** The characters of [str.isspace], which are also the ones the
    pattern [\s] matches in a [str] pattern. *)
Definition whitespace_table : list (N * N) :=
  [ (0x9, 0xd); (0x1c, 0x20); (0x85, 0x85); (0xa0, 0xa0); (0x1680, 0x1680);
    (0x2000, 0x200a); (0x2028, 0x2029); (0x202f, 0x202f); (0x205f, 0x205f);
    (0x3000, 0x3000) ].

Definition isspace : N -> bool := in_table whitespace_table.

(** First code points of the blocks of ten decimal digits (general
    category Nd, Unicode 14); the mathematical digits form one longer
    block. These are the characters [\d] matches in a [str] pattern. *)
Definition decimal_blocks : list N :=
  [ 48; 1632; 1776; 1984; 2406; 2534; 2662; 2790; 2918; 3046; 3174; 3302;
    3430; 3558; 3664; 3792; 3872; 4160; 4240; 6112; 6160; 6470; 6608; 6784;
    6800; 6992; 7088; 7232; 7248; 42528; 43216; 43264; 43472; 43504; 43600;
    44016; 65296; 66720; 68912; 69734; 69872; 69942; 70096; 70384; 70736;
    70864; 71248; 71360; 71472; 71904; 72016; 72784; 73040; 73120; 92768;
    92864; 93008; 123200; 123632; 125264; 130032 ].

Definition decimal_table : list (N * N) :=
  (120782, 120831) :: map (fun lo => (lo, lo + 9)) decimal_blocks.

Definition isdecimal : N -> bool := in_table decimal_table.

(** The class [[\x00-\x1f\x7f-\x9f]]. *)
Definition is_control (c : N) : bool := in_range 0x00 0x1f c || in_range 0x7f 0x9f c.

(** The class [[oO]]. *)
Definition is_oO (c : N) : bool := (c =? 111) || (c =? 79).

Definition zero : N := 48.
Definition space : N := 32.
Definition newline : N := 10.

End Unicode.

Import Unicode.

(** ** The string operations behind the vectorised [.str] calls *)

Module Str.

(** [str.strip()]: whitespace is dropped at both ends. *)
Fixpoint lstrip (s : pystr) : pystr :=
  match s with
  | [] => []
  | c :: t => if isspace c then lstrip t else s
  end.

Definition rstrip (s : pystr) : pystr := reverse (lstrip (reverse s)).

Definition strip (s : pystr) : pystr := rstrip (lstrip s).

(** [re.sub(r'\s+', ' ', s)]: every maximal run of whitespace becomes one
    space; [in_run] says that the previous character belonged to a run. *)
Fixpoint sub_ws_runs (in_run : bool) (s : pystr) : pystr :=
  match s with
  | [] => []
  | c :: t =>
      if isspace c
      then (if in_run then sub_ws_runs true t else space :: sub_ws_runs true t)
      else c :: sub_ws_runs false t
  end.

Definition collapse_ws (s : pystr) : pystr := sub_ws_runs false s.

(** [re.sub(r'[\x00-\x1f\x7f-\x9f]', '', s)]. *)
Definition del_control (s : pystr) : pystr :=
  List.filter (fun c => negb (is_control c)) s.

(** [re.search(r'\d', s) is not None]. *)
Definition has_digit (s : pystr) : bool := existsb isdecimal s.

(** Lookarounds are evaluated on the subject string at a position. *)
Definition digit_at (s : pystr) (i : nat) : bool :=
  match s !! i with Some c => isdecimal c | None => false end.

(** [(?<=\d)] just before position [i]. *)
Definition digit_before (s : pystr) (i : nat) : bool :=
  match i with O => false | S j => digit_at s j end.

(** [$] at position [i]: the end of the string, or just before a line
    feed that ends the string. *)
Definition at_dollar (s : pystr) (i : nat) : bool :=
  Nat.eqb i (length s)
  || (Nat.eqb (S i) (length s)
      && match s !! i with Some c => c =? newline | None => false end).

(** [re.sub(r'(?<=\d)[oO](?=\d)', '0', s)]: the matches are single
    characters, so every matching position of the subject is replaced. *)
Definition sub_oO_between (s : pystr) : pystr :=
  imap (fun i c =>
          if is_oO c && digit_before s i && digit_at s (S i) then zero else c) s.

(** [re.sub(r'^[oO](?=\d)', '0', s)]: [^] only matches at position 0. *)
Definition sub_oO_start (s : pystr) : pystr :=
  imap (fun i c =>
          if Nat.eqb i 0 && is_oO c && digit_at s (S i) then zero else c) s.

(** [re.sub(r'(?<=\d)[oO]$', '0', s)]. *)
Definition sub_oO_end (s : pystr) : pystr :=
  imap (fun i c =>
          if is_oO c && digit_before s i && at_dollar s (S i) then zero else c) s.

(** Lines 64-66, the three substitutions chained. *)
Definition fix_oO (s : pystr) : pystr :=
  sub_oO_end (sub_oO_start (sub_oO_between s)).

End Str.

Import Str.

(** What lines 41-44 do to one element of the name column. *)
Definition clean_name_text (s : pystr) : pystr :=
  del_control (collapse_ws (strip s)).

(** What lines 56-67 do to one element of the reference column: the
    substitutions are applied to the elements selected by
    [mask_has_digits] only. *)
Definition clean_ref_text (s : pystr) : pystr :=
  let b := del_control (strip s) in
  if has_digit b then fix_oO b else b.

(** ** Cells, columns and frames *)

(** The null objects of pandas other than the float [nan]: [None],
    [pd.NA] and [pd.NaT]. *)
Inductive null : Type :=
  | PyNone
  | PdNA
  | PdNaT.

#[global] Instance null_eq_dec : EqDecision null.
Proof. solve_decision. Defined.

(** The Python objects a cell of an object column holds here: a [str], an
    [int], the float [nan] that the readers put for a missing value, or
    one of the other null objects. Other floats are left out: their text
    form is a matter of floating-point printing. *)
Inductive cell : Type :=
  | Text (s : pystr)
  | Int (z : Z)
  | NaN
  | Null (k : null).

#[global] Instance cell_eq_dec : EqDecision cell.
Proof. solve_decision. Defined.

Module PyInt.

Fixpoint digits (d : Decimal.uint) : pystr :=
  match d with
  | Decimal.Nil => []
  | Decimal.D0 r => 48 :: digits r
  | Decimal.D1 r => 49 :: digits r
  | Decimal.D2 r => 50 :: digits r
  | Decimal.D3 r => 51 :: digits r
  | Decimal.D4 r => 52 :: digits r
  | Decimal.D5 r => 53 :: digits r
  | Decimal.D6 r => 54 :: digits r
  | Decimal.D7 r => 55 :: digits r
  | Decimal.D8 r => 56 :: digits r
  | Decimal.D9 r => 57 :: digits r
  end.

(** [str(n)] and [f"{n}"] for a non-negative integer. *)
Definition str_of_nat (n : nat) : pystr := digits (Nat.to_uint n).

(** [str(z)]. *)
Definition str_of_Z (z : Z) : pystr :=
  match z with
  | Zneg p => 45 :: digits (Pos.to_uint p)
  | _ => digits (N.to_uint (Z.to_N z))
  end.

End PyInt.

Import PyInt.

(** [str(x)]. *)
Definition py_str (v : cell) : pystr :=
  match v with
  | Text s => s
  | Int z => str_of_Z z
  | NaN => lit "nan"
  | Null PyNone => lit "None"
  | Null PdNA => lit "<NA>"
  | Null PdNaT => lit "NaT"
  end.

(** [pd.isna(x)]. *)
Definition is_null (v : cell) : bool :=
  match v with
  | NaN | Null _ => true
  | _ => false
  end.

(** ** Exceptions *)

Inductive exn : Type :=
  | ValueError (msg : pystr)
  | KeyError (key : pystr)
  | TypeError
  | ZeroDivisionError
  | BadRef.   (* a reference outside the store: kept for totality, Python has none *)

Inductive result (A : Type) : Type :=
  | Ok (a : A)
  | Raise (e : exn).
Arguments Ok {A} a.
Arguments Raise {A} e.

(** A column ([pd.Series]) is the list of its cells; all the columns
    handled below share the row labels of the frame they come from, so
    that pandas aligns them position by position. *)
Abbreviation Series := (list cell).

Module Series.

(** [s.astype(str)]. *)
Definition astype_str (s : Series) : Series := (fun v => Text (py_str v)) <$> s.

(** [s.replace(old, new)] with scalar arguments: the cells equal to
    [old] become [new]. *)
Definition replace (old new : cell) (s : Series) : Series :=
  (fun v => if decide (v = old) then new else v) <$> s.

(** The [.str] accessor applies a string function to the [str] cells
    and gives [nan] for the others. *)
Definition str_apply (f : pystr -> pystr) (v : cell) : cell :=
  match v with Text s => Text (f s) | _ => NaN end.

Definition str_strip (s : Series) : Series := str_apply strip <$> s.
Definition str_replace_ws (s : Series) : Series := str_apply collapse_ws <$> s.
Definition str_replace_control (s : Series) : Series := str_apply del_control <$> s.
Definition str_replace_oO_between (s : Series) : Series := str_apply sub_oO_between <$> s.
Definition str_replace_oO_start (s : Series) : Series := str_apply sub_oO_start <$> s.
Definition str_replace_oO_end (s : Series) : Series := str_apply sub_oO_end <$> s.

(** [s.str.contains(r'\d', na=False)]. *)
Definition str_contains_digit (s : Series) : list bool :=
  (fun v => match v with Text t => has_digit t | _ => false end) <$> s.

(** Element-wise [!=]; a null differs from everything. *)
Definition cell_ne (a b : cell) : bool :=
  match a, b with
  | NaN, _ | _, NaN | Null _, _ | _, Null _ => true
  | _, _ => negb (bool_decide (a = b))
  end.

Definition ne (a b : Series) : list bool := zip_with cell_ne a b.

(** [mask.sum()]. *)
Definition sum (m : list bool) : nat := length (List.filter id m).

(** [s.isin(values)], [s.isna()], and [|] and [~] on masks. *)
Definition isin (vals : list cell) (s : Series) : list bool :=
  (fun v => bool_decide (v ∈ vals)) <$> s.
Definition isna (s : Series) : list bool := is_null <$> s.
Definition or (a b : list bool) : list bool := zip_with orb a b.
Definition invert (m : list bool) : list bool := negb <$> m.

(** [+] on object columns: [str] concatenation, a null operand gives
    [nan] ([pd.NA] gives [pd.NA]), and Python raises [TypeError] for
    [int + str]. The function only adds columns of [str]. *)
Definition cell_add (a b : cell) : result cell :=
  match a, b with
  | Text x, Text y => Ok (Text (x ++ y))
  | Null PdNA, _ | _, Null PdNA => Ok (Null PdNA)
  | NaN, _ | _, NaN | Null _, _ | _, Null _ => Ok NaN
  | _, _ => Raise TypeError
  end.

Fixpoint add (a b : Series) : result Series :=
  match a, b with
  | x :: a', y :: b' =>
      match cell_add x y with
      | Ok v => match add a' b' with Ok r => Ok (v :: r) | Raise e => Raise e end
      | Raise e => Raise e
      end
  | _, _ => Ok []
  end.

(** [s + c] for a scalar [c]. *)
Definition add_scalar (a : Series) (c : cell) : result Series :=
  add a (replicate (length a) c).

(** [s.duplicated(keep=False)]: the cells whose value occurs more than
    once in the column. *)
Definition duplicated (s : Series) : list bool :=
  (fun v => Nat.ltb 1 (count_occ cell_eq_dec s v)) <$> s.

(** Boolean indexing [s[mask]]. *)
Fixpoint select {A} (m : list bool) (s : list A) : list A :=
  match m, s with
  | b :: m', v :: s' => if b then v :: select m' s' else select m' s'
  | _, _ => []
  end.

(** Assignment [s[mask] = vals], where [vals] has one value per
    selected row. *)
Fixpoint assign (m : list bool) (s vals : Series) : Series :=
  match m, s with
  | b :: m', v :: s' =>
      if b then
        match vals with
        | w :: vals' => w :: assign m' s' vals'
        | [] => v :: assign m' s' []
        end
      else v :: assign m' s' vals
  | _, _ => s
  end.

End Series.

(** A frame: its row labels and its columns in order. *)
Record DataFrame : Type := mkDataFrame {
  index : list nat;
  data : list (pystr * Series);
}.

Module Frame.

(** [df.columns]. *)
Definition columns (d : DataFrame) : list pystr := (data d).*1.

(** [len(df)]. *)
Definition len (d : DataFrame) : nat := length (index d).

(** The column called [c], if there is one. *)
Fixpoint assoc (c : pystr) (cols : list (pystr * Series)) : option Series :=
  match cols with
  | [] => None
  | (c', s) :: r => if decide (c' = c) then Some s else assoc c r
  end.

(** [df[c] = s] replaces the column [c], or appends it as the last
    column when the frame has none. *)
Fixpoint assoc_set (c : pystr) (s : Series) (cols : list (pystr * Series))
  : list (pystr * Series) :=
  match cols with
  | [] => [(c, s)]
  | (c', s') :: r =>
      if decide (c' = c) then (c, s) :: r else (c', s') :: assoc_set c s r
  end.

Definition setitem (d : DataFrame) (c : pystr) (s : Series) : DataFrame :=
  mkDataFrame (index d) (assoc_set c s (data d)).

(** [df[mask]]: the selected rows, with their labels. *)
Definition mask (d : DataFrame) (m : list bool) : DataFrame :=
  mkDataFrame (Series.select m (index d))
              (prod_map id (Series.select m) <$> data d).

(** The columns left by [df.drop(c, axis=1)]. *)
Definition without (c : pystr) (d : DataFrame) : DataFrame :=
  mkDataFrame (index d) (List.filter (fun p => negb (bool_decide (p.1 = c))) (data d)).

(** Labels are unique, column names are unique, and every column has
    one cell per row. *)
Definition wf (d : DataFrame) : Prop :=
  NoDup (index d) ∧ NoDup (columns d)
  ∧ Forall (fun p => length p.2 = length (index d)) (data d).

End Frame.

(** ** The store of frames and the monad *)

(** References to frame objects. *)
Abbreviation ref := nat (only parsing).
Abbreviation store := (list DataFrame).

Definition M (A : Type) : Type := store -> result A * store.

#[global] Instance M_ret : MRet M := fun A a h => (Ok a, h).
#[global] Instance M_bind : MBind M := fun A B f m h =>
  match m h with
  | (Ok a, h') => f a h'
  | (Raise e, h') => (Raise e, h')
  end.

Definition raise {A} (e : exn) : M A := fun h => (Raise e, h).

Definition lift {A} (r : result A) : M A := fun h => (r, h).

Module Obj.

(** Reading the frame behind a reference. *)
Definition get (l : ref) : M DataFrame := fun h =>
  match h !! l with
  | Some d => (Ok d, h)
  | None => (Raise BadRef, h)
  end.

(** A new frame object. *)
Definition new (d : DataFrame) : M ref := fun h => (Ok (length h), h ++ [d]).

(** In-place update of the frame behind a reference. *)
Definition update (l : ref) (f : DataFrame -> DataFrame) : M unit := fun h =>
  match h !! l with
  | Some d => (Ok tt, <[l := f d]> h)
  | None => (Raise BadRef, h)
  end.

(** [df.columns] *)
Definition columns (l : ref) : M (list pystr) :=
  d ← get l; mret (Frame.columns d).

(** [len(df)] *)
Definition len (l : ref) : M nat :=
  d ← get l; mret (Frame.len d).

(** [df.copy()] *)
Definition copy (l : ref) : M ref :=
  d ← get l; new d.

(** [df[c]] for a name that the frame has at most once (with a repeated
    name pandas gives a frame); the column is taken as a value, the source
    copies it or derives a new column from it at once. *)
Definition getitem (l : ref) (c : pystr) : M Series :=
  d ← get l;
  match Frame.assoc c (data d) with
  | Some s => mret s
  | None => raise (KeyError c)
  end.

(** [df[c] = s] *)
Definition setitem (l : ref) (c : pystr) (s : Series) : M unit :=
  update l (fun d => Frame.setitem d c s).

(** [df.loc[mask, c]] *)
Definition loc_getitem (l : ref) (m : list bool) (c : pystr) : M Series :=
  s ← getitem l c; mret (Series.select m s).

(** [df.loc[mask, c] = vals] *)
Definition loc_setitem (l : ref) (m : list bool) (c : pystr) (vals : Series) : M unit :=
  s ← getitem l c;
  update l (fun d => Frame.setitem d c (Series.assign m s vals)).

(** [df[mask]], a new frame. *)
Definition mask (l : ref) (m : list bool) : M ref :=
  d ← get l; new (Frame.mask d m).

(** [df.drop(c, axis=1)], a new frame; [KeyError] for an absent column. *)
Definition drop (l : ref) (c : pystr) : M ref :=
  d ← get l;
  if bool_decide (c ∈ Frame.columns d) then new (Frame.without c d)
  else raise (KeyError c).

End Obj.

(** ** Grouping and the report *)

Module Group.

(** A group of [groupby([name, ref]).size()]: its key and its size. *)
Abbreviation group := (cell * cell * nat)%type.

(** Code-point order on strings, as Python compares [str]. *)
Fixpoint str_leb (a b : pystr) : bool :=
  match a, b with
  | [], _ => true
  | _ :: _, [] => false
  | x :: a', y :: b' =>
      if x <? y then true else if y <? x then false else str_leb a' b'
  end.

(** Group keys are [str] cells here; the order given to the other
    cells is a convention. *)
Definition cell_leb (a b : cell) : bool :=
  match a, b with
  | Text x, Text y => str_leb x y
  | Text _, _ => false
  | Int x, Int y => (x <=? y)%Z
  | Int _, Text _ => true
  | Int _, (NaN | Null _) => false
  | (NaN | Null _), _ => true
  end.

Definition key_leb (a b : cell * cell) : bool :=
  if decide (a.1 = b.1) then cell_leb a.2 b.2 else cell_leb a.1 b.1.

Definition has_nan (k : cell * cell) : bool := is_null k.1 || is_null k.2.

Definition key_eq_dec (a b : cell * cell) : {a = b} + {a <> b} := decide (a = b).

(** [groupby([c1, c2]).size()] of the columns [a] and [b]: the distinct
    key pairs in sorted order, each with its number of rows; rows with
    a missing key are left out ([dropna=True]). *)
Definition groupby_size (a b : Series) : list group :=
  let keys := List.filter (fun k => negb (has_nan k)) (zip a b) in
  (fun k => (k, count_occ key_eq_dec keys k))
    <$> merge_sort (fun x y => Is_true (key_leb x y)) (remove_dups keys).

(** [sort_values(ascending=False)] runs numpy's default quicksort,
    which fixes no order among equal sizes: the sort is a parameter,
    known to give a permutation in descending order of size. *)
Definition sorter := list group -> list group.

Definition size_ge (a b : group) : Prop := (b.2 <= a.2)%nat.

#[global] Instance size_ge_dec : RelDecision size_ge.
Proof. intros a b. unfold size_ge. apply _. Defined.

Definition descending (l : list group) : Prop := Sorted size_ge l.

Definition sorts (sort_values : sorter) : Prop :=
  forall l, Permutation (sort_values l) l /\ descending (sort_values l).

(** A sort that qualifies: stable merge sort on the sizes. *)
Definition merge_sort_desc : sorter :=
  merge_sort size_ge.

End Group.

Module Msg.

Definition missing_column (c : pystr) : pystr :=
  lit "Colonne '" ++ c ++ lit "' non trouvée dans le DataFrame".

Definition names_changed (n : nat) : pystr :=
  lit "✏️ " ++ str_of_nat n ++ lit " noms de produits ont été nettoyés".

Definition refs_changed (n : nat) : pystr :=
  lit "🔧 " ++ str_of_nat n ++ lit " références ont été corrigées".

Definition empty_names (n : nat) : pystr :=
  lit "⚠️ " ++ str_of_nat n ++ lit " noms vides dans les données uniques".

Definition empty_refs (n : nat) : pystr :=
  lit "⚠️ " ++ str_of_nat n ++ lit " références vides dans les données uniques".

Definition groups_found (n : nat) : pystr :=
  lit "🔄 " ++ str_of_nat n ++ lit " groupes de doublons trouvés".

Definition top5 : pystr := lit "Top 5 doublons:".

Definition group_line (g : Group.group) : pystr :=
  lit "  • '" ++ py_str g.1.1 ++ lit "' | '" ++ py_str g.1.2 ++ lit "' : "
    ++ str_of_nat g.2 ++ lit " occurrences".

End Msg.

(** ** [clean_inventory_data] *)

Definition temp_key : pystr := lit "_temp_key".

(** The function is given block by block, under the headings of its
    source; [clean_inventory_data] chains the blocks. *)

(** Lines 34-46, "Nettoyage des noms de produits"; returns
    [names_changed]. *)
Definition clean_names (cleaned_df : ref) (product_name_col : pystr) : M nat :=
  original_names ← Obj.getitem cleaned_df product_name_col;
  (* Convertir en string et gérer les NaN *)
  s ← Obj.getitem cleaned_df product_name_col;
  Obj.setitem cleaned_df product_name_col (Series.astype_str s);;
  s ← Obj.getitem cleaned_df product_name_col;
  Obj.setitem cleaned_df product_name_col
    (Series.replace (Text (lit "nan")) (Text (lit "")) s);;
  (* Nettoyage vectorisé des noms *)
  s ← Obj.getitem cleaned_df product_name_col;
  Obj.setitem cleaned_df product_name_col
    (Series.str_replace_control (Series.str_replace_ws (Series.str_strip s)));;
  s ← Obj.getitem cleaned_df product_name_col;
  mret (Series.sum (Series.ne (Series.astype_str original_names) s)).

(** Lines 49-69, "Nettoyage des références"; returns [refs_changed]. *)
Definition clean_refs (cleaned_df : ref) (product_ref_col : pystr) : M nat :=
  original_refs ← Obj.getitem cleaned_df product_ref_col;
  (* Convertir en string et gérer les NaN *)
  s ← Obj.getitem cleaned_df product_ref_col;
  Obj.setitem cleaned_df product_ref_col (Series.astype_str s);;
  s ← Obj.getitem cleaned_df product_ref_col;
  Obj.setitem cleaned_df product_ref_col
    (Series.replace (Text (lit "nan")) (Text (lit "")) s);;
  (* Nettoyage de base *)
  s ← Obj.getitem cleaned_df product_ref_col;
  Obj.setitem cleaned_df product_ref_col
    (Series.str_replace_control (Series.str_strip s));;
  (* Correction intelligente o->0 *)
  s ← Obj.getitem cleaned_df product_ref_col;
  let mask_has_digits := Series.str_contains_digit s in
  sel ← Obj.loc_getitem cleaned_df mask_has_digits product_ref_col;
  Obj.loc_setitem cleaned_df mask_has_digits product_ref_col
    (Series.str_replace_oO_end
       (Series.str_replace_oO_start (Series.str_replace_oO_between sel)));;
  s ← Obj.getitem cleaned_df product_ref_col;
  mret (Series.sum (Series.ne (Series.astype_str original_refs) s)).

(** Lines 72-79, "Identification des doublons" and "Diviser les
    DataFrames"; returns [(unique_df, duplicate_df)]. *)
Definition split_duplicates (cleaned_df : ref) (product_name_col product_ref_col : pystr)
  : M (ref * ref) :=
  names ← Obj.getitem cleaned_df product_name_col;
  names_sep ← lift (Series.add_scalar names (Text (lit "|")));
  refs ← Obj.getitem cleaned_df product_ref_col;
  key ← lift (Series.add names_sep refs);
  Obj.setitem cleaned_df temp_key key;;
  key ← Obj.getitem cleaned_df temp_key;
  let duplicate_mask := Series.duplicated key in
  t ← Obj.mask cleaned_df (Series.invert duplicate_mask);
  t ← Obj.drop t temp_key;
  unique_df ← Obj.copy t;
  t ← Obj.mask cleaned_df duplicate_mask;
  t ← Obj.drop t temp_key;
  duplicate_df ← Obj.copy t;
  mret (unique_df, duplicate_df).

(** [(s.isin(['', 'nan']) | s.isna()).sum()] of lines 88-91. *)
Definition count_empty (s s' : Series) : nat :=
  Series.sum (Series.or (Series.isin [Text (lit ""); Text (lit "nan")] s)
                        (Series.isna s')).

(** Lines 82-105, "Avertissements"; returns [warnings]. *)
Definition report (sort_values : Group.sorter) (unique_df duplicate_df : ref)
    (product_name_col product_ref_col : pystr) (names_changed refs_changed : nat)
    (warnings : list pystr) : M (list pystr) :=
  let warnings :=
    if Nat.ltb 0 names_changed then warnings ++ [Msg.names_changed names_changed]
    else warnings in
  let warnings :=
    if Nat.ltb 0 refs_changed then warnings ++ [Msg.refs_changed refs_changed]
    else warnings in
  (* Vérification des valeurs vides *)
  un ← Obj.getitem unique_df product_name_col;
  un' ← Obj.getitem unique_df product_name_col;
  let empty_names_unique := count_empty un un' in
  ur ← Obj.getitem unique_df product_ref_col;
  ur' ← Obj.getitem unique_df product_ref_col;
  let empty_refs_unique := count_empty ur ur' in
  let warnings :=
    if Nat.ltb 0 empty_names_unique
    then warnings ++ [Msg.empty_names empty_names_unique] else warnings in
  let warnings :=
    if Nat.ltb 0 empty_refs_unique
    then warnings ++ [Msg.empty_refs empty_refs_unique] else warnings in
  n_duplicate ← Obj.len duplicate_df;
  if Nat.ltb 0 n_duplicate then
    dn ← Obj.getitem duplicate_df product_name_col;
    dr ← Obj.getitem duplicate_df product_ref_col;
    let duplicate_groups := Group.groupby_size dn dr in
    let top_duplicates := take 5 (sort_values duplicate_groups) in
    let warnings := warnings ++ [Msg.groups_found (length duplicate_groups)] in
    let warnings := warnings ++ [Msg.top5] in
    let warnings := warnings ++ (Msg.group_line <$> top_duplicates) in
    mret warnings
  else mret warnings.

Definition clean_inventory_data (sort_values : Group.sorter)
    (df : ref) (product_name_col product_ref_col : pystr)
  : M (ref * ref * list pystr) :=
  (* Vérification des colonnes *)
  cols ← Obj.columns df;
  if negb (bool_decide (product_name_col ∈ cols))
  then raise (ValueError (Msg.missing_column product_name_col)) else
  if negb (bool_decide (product_ref_col ∈ cols))
  then raise (ValueError (Msg.missing_column product_ref_col)) else
  (* Copie et initialisation *)
  cleaned_df ← Obj.copy df;
  let warnings : list pystr := [] in
  names_changed ← clean_names cleaned_df product_name_col;
  refs_changed ← clean_refs cleaned_df product_ref_col;
  '(unique_df, duplicate_df) ← split_duplicates cleaned_df product_name_col product_ref_col;
  warnings ← report sort_values unique_df duplicate_df product_name_col product_ref_col
                    names_changed refs_changed warnings;
  mret (unique_df, duplicate_df, warnings).

(** ** The duplicate rate shown by [main] *)

(** [a / b] on integers, as an exact quotient (the rounding of the float
    result is not modelled). *)
Definition py_truediv (a b : nat) : result Q :=
  match b with
  | O => Raise ZeroDivisionError
  | S _ => Ok (Qmake (Z.of_nat a) (Pos.of_nat b))
  end.

(** Line 227: [(len(duplicate_df) / len(df)) * 100 if len(df) > 0 else 0]. *)
Definition duplicate_rate (n_duplicate n_df : nat) : result Q :=
  if Nat.ltb 0 n_df then
    match py_truediv n_duplicate n_df with
    | Ok q => Ok (q * 100)%Q
    | Raise e => Raise e
    end
  else Ok 0%Q.

(** Line 231: [len(unique_df) > 0 or len(duplicate_df) > 0], the condition
    under which [main] draws the summary chart. *)
Definition chart_shown (n_unique n_duplicate : nat) : bool :=
  Nat.ltb 0 n_unique || Nat.ltb 0 n_duplicate.

(** ** Examples *)

Module Examples.

Definition t (s : string) : cell := Text (lit s).

(** The sample table of [main]. *)
Definition sample : DataFrame :=
  mkDataFrame [0; 1; 2; 3]%nat
    [ (lit "designation", [t "Produit A"; t "Produit B"; t "Produit A"; t "Produit C"]);
      (lit "reference", [t "REF001"; t "REF002"; t "REF001"; t "REF003"]);
      (lit "quantite", [Int 10; Int 20; Int 15; Int 30]);
      (lit "prix", [Int 100; Int 200; Int 150; Int 300]) ].

(** Two rows with different (name, reference) pairs and one key. *)
Definition pipes : DataFrame :=
  mkDataFrame [0; 1]%nat
    [ (lit "name", [t "a|b"; t "a"]);
      (lit "ref", [t "c"; t "b|c"]) ].

(** A table that has a column called [_temp_key]. *)
Definition with_temp_key : DataFrame :=
  mkDataFrame [0]%nat
    [ (lit "name", [t "a"]);
      (lit "ref", [t "r1"]);
      (lit "_temp_key", [Int 7]) ].

Definition empty : DataFrame :=
  mkDataFrame [] [ (lit "name", []); (lit "ref", []) ].

End Examples.

(** A table that is clean already: three rows, three keys. *)
Definition clean_table : DataFrame :=
  mkDataFrame [0; 1; 2]%nat
    [ (lit "name", [Examples.t "Vis M6"; Examples.t "Vis M8"; Examples.t "Vis M6"]);
      (lit "ref", [Examples.t "REF001"; Examples.t "REF001"; Examples.t "REF002"]);
      (lit "qty", [Int 4; Int 5; Int 6]) ].

(** The reference column of the examples on [o] and [O]. *)
Definition oO_examples : DataFrame :=
  mkDataFrame [0; 1; 2; 3]%nat
    [ (lit "ref", [ Examples.t "1o2"; Examples.t "o45"; Examples.t "45o";
                    Examples.t "abc" ]) ].

(** Two rows that differ by whitespace around their values, and a third. *)
Definition padded_table : DataFrame :=
  mkDataFrame [0; 1; 2]%nat
    [ (lit "name", [ Text (lit "  Vis M6" ++ [9; 10]); Examples.t "Vis M6";
                     Examples.t "Vis M8" ]);
      (lit "ref", [Examples.t "REF001 "; Examples.t "REF001"; Examples.t "REF001"]) ].

(** ** Notions used by the statements *)

(** An [o] or [O] stands at position [i]. *)
Definition oO_at (s : pystr) (i : nat) : bool :=
  match s !! i with Some c => is_oO c | None => false end.

(** The three places of lines 64-66, read on one string: [i] has a
    digit on each side. *)
Definition between_digits (s : pystr) (i : nat) : bool :=
  digit_before s i && digit_at s (S i).

(** [i] is the start of the string and a digit follows. *)
Definition at_start (s : pystr) (i : nat) : bool :=
  Nat.eqb i 0 && digit_at s 1.

(** [i] is the last position and a digit precedes. *)
Definition at_end (s : pystr) (i : nat) : bool :=
  digit_before s i && Nat.eqb (S i) (length s).

(** One of the three patterns matches [s] at position [i]. *)
Definition replaced (s : pystr) (i : nat) : bool :=
  oO_at s i && (between_digits s i || at_start s i || at_end s i).

(** No character of the class [[\x00-\x1f\x7f-\x9f]]. *)
Definition no_control (s : pystr) : Prop := Forall (fun c => is_control c = false) s.

(** No whitespace at the start, at the end, at both ends. *)
Definition ltrimmed (s : pystr) : Prop := forall c, head s = Some c -> isspace c = false.

Definition rtrimmed (s : pystr) : Prop := forall c, last s = Some c -> isspace c = false.

Definition trimmed (s : pystr) : Prop := ltrimmed s /\ rtrimmed s.

(** Every control character of the string is a whitespace character
    (tab, line feed, ..., U+001C-U+001F, U+0085). *)
Definition tame (s : pystr) : Prop :=
  forallb (fun c => implb (is_control c) (isspace c)) s = true.

(** [fresh_only k m Q]: run from a store of at least [k] objects, [m]
    leaves the first [k] objects as they are, removes none, and returns
    a value that satisfies [Q]. *)
Definition fresh_only {A} (k : nat) (m : M A) (Q : A -> Prop) : Prop :=
  forall h, (k <= length h)%nat ->
    take k (m h).2 = take k h
    /\ (length h <= length (m h).2)%nat
    /\ forall a, (m h).1 = Ok a -> Q a.

(** Lines 37-38 and 52-53 on the text of a cell. *)
Definition nan_blank (s : pystr) : pystr :=
  if decide (s = lit "nan") then lit "" else s.

(** The cell that lines 37-44 leave for a cell of the name column. *)
Definition norm_name (v : cell) : cell :=
  Text (clean_name_text (nan_blank (py_str v))).

(** The cell that lines 52-67 leave for a cell of the reference column. *)
Definition norm_ref (v : cell) : cell :=
  Text (clean_ref_text (nan_blank (py_str v))).

(** The cell holds a [str]. *)
Definition is_text (v : cell) : Prop :=
  match v with Text _ => True | _ => False end.

(** The key of line 72 for two [str] cells. *)
Definition key_of (a b : cell) : cell :=
  Text ((py_str a ++ lit "|") ++ py_str b).

(** [(original.astype(str) != cleaned).sum()]. *)
Definition changed (original cleaned : Series) : nat :=
  Series.sum (Series.ne (Series.astype_str original) cleaned).

(** The list [report] returns. *)
Definition report_text (sort_values : Group.sorter) (names_changed refs_changed : nat)
    (un ur dn dr : Series) (n_duplicate : nat) (warnings : list pystr) : list pystr :=
  let groups := Group.groupby_size dn dr in
  warnings
    ++ (if Nat.ltb 0 names_changed then [Msg.names_changed names_changed] else [])
    ++ (if Nat.ltb 0 refs_changed then [Msg.refs_changed refs_changed] else [])
    ++ (if Nat.ltb 0 (count_empty un un)
        then [Msg.empty_names (count_empty un un)] else [])
    ++ (if Nat.ltb 0 (count_empty ur ur)
        then [Msg.empty_refs (count_empty ur ur)] else [])
    ++ (if Nat.ltb 0 n_duplicate
        then Msg.groups_found (length groups) :: Msg.top5
               :: (Msg.group_line <$> take 5 (sort_values groups))
        else []).

(** The column [c] of a frame (empty when the frame has none). *)
Definition col (d : DataFrame) (c : pystr) : Series :=
  default [] (Frame.assoc c (data d)).

(** The copy after "Nettoyage des noms de produits". *)
Definition names_cleaned (df : DataFrame) (n : pystr) : DataFrame :=
  Frame.setitem df n (norm_name <$> col df n).

(** The copy after "Nettoyage des références": the normalized table. *)
Definition normalized (df : DataFrame) (n r : pystr) : DataFrame :=
  Frame.setitem (names_cleaned df n) r (norm_ref <$> col (names_cleaned df n) r).

(** The column [_temp_key] of line 72. *)
Definition keys (df : DataFrame) (n r : pystr) : Series :=
  zip_with key_of (col (normalized df n r) n) (col (normalized df n r) r).

(** The copy with its key column, the mask of line 75 and the two tables
    of lines 78-79. *)
Definition keyed (df : DataFrame) (n r : pystr) : DataFrame :=
  Frame.setitem (normalized df n r) temp_key (keys df n r).

Definition duplicate_mask (df : DataFrame) (n r : pystr) : list bool :=
  Series.duplicated (keys df n r).

Definition unique_part (df : DataFrame) (n r : pystr) : DataFrame :=
  Frame.without temp_key
    (Frame.mask (keyed df n r) (Series.invert (duplicate_mask df n r))).

Definition duplicate_part (df : DataFrame) (n r : pystr) : DataFrame :=
  Frame.without temp_key (Frame.mask (keyed df n r) (duplicate_mask df n r)).

(** [names_changed], [refs_changed] and the warnings of a call. *)
Definition names_changed_count (df : DataFrame) (n : pystr) : nat :=
  changed (col df n) (norm_name <$> col df n).

Definition refs_changed_count (df : DataFrame) (n r : pystr) : nat :=
  changed (col (names_cleaned df n) r) (norm_ref <$> col (names_cleaned df n) r).

Definition warnings_of (sort_values : Group.sorter) (df : DataFrame) (n r : pystr)
  : list pystr :=
  report_text sort_values (names_changed_count df n) (refs_changed_count df n r)
    (col (unique_part df n r) n) (col (unique_part df n r) r)
    (col (duplicate_part df n r) n) (col (duplicate_part df n r) r)
    (Frame.len (duplicate_part df n r)) [].

(** The store after a call: the copy, and for each table returned the
    selection, the selection without its key column, and its copy. *)
Definition final_store (h : store) (df : DataFrame) (n r : pystr) : store :=
  h ++ [ keyed df n r;
         Frame.mask (keyed df n r) (Series.invert (duplicate_mask df n r));
         unique_part df n r; unique_part df n r;
         Frame.mask (keyed df n r) (duplicate_mask df n r);
         duplicate_part df n r; duplicate_part df n r ].

(** The selection a call accepts and carries through: both columns are
    in the table and neither is the scratch column [_temp_key]. *)
Definition selectable (df : DataFrame) (n r : pystr) : Prop :=
  n ∈ Frame.columns df /\ r ∈ Frame.columns df /\ n <> temp_key /\ r <> temp_key.

(** A call returns the tables [U] and [D] and the warnings [w]. *)
Definition returns (sort_values : Group.sorter) (h : store) (l : ref) (n r : pystr)
    (U D : DataFrame) (w : list pystr) : Prop :=
  exists unique_df duplicate_df,
    let out := clean_inventory_data sort_values l n r h in
    out.1 = Ok (unique_df, duplicate_df, w)
    /\ (out.2 !! unique_df = Some U) /\ (out.2 !! duplicate_df = Some D).



(** Every whitespace character of the string is the space U+0020. *)
Definition spaces_only (s : pystr) : Prop :=
  Forall (fun c => isspace c = true -> c = space) s.

(** No two whitespace characters stand side by side. *)
Fixpoint single_spaced (s : pystr) : bool :=
  match s with
  | [] => true
  | a :: t =>
      match t with
      | b :: _ => negb (isspace a && isspace b)
      | [] => true
      end && single_spaced t
  end.

(** * Properties *)

(** ** Character classes *)

Lemma is_oO_cases c : is_oO c = true -> c = 111 \/ c = 79.
Proof.
  unfold is_oO. rewrite orb_true_iff, !N.eqb_eq. tauto.
Qed.

Lemma is_oO_not_decimal c : is_oO c = true -> isdecimal c = false.
Proof. intros [-> | ->]%is_oO_cases; reflexivity. Qed.

Lemma newline_is_control c : (c =? newline) = true -> is_control c = true.
Proof. intros ->%N.eqb_eq. reflexivity. Qed.

(** ** The [o]/[O] substitutions, position by position *)

Lemma oO_at_not_digit s i : oO_at s i = true -> digit_at s i = false.
Proof.
  unfold oO_at, digit_at. destruct (s !! i); [apply is_oO_not_decimal | done].
Qed.

Lemma length_sub_oO_between s : length (sub_oO_between s) = length s.
Proof. apply length_imap. Qed.
Lemma length_sub_oO_start s : length (sub_oO_start s) = length s.
Proof. apply length_imap. Qed.
Lemma length_sub_oO_end s : length (sub_oO_end s) = length s.
Proof. apply length_imap. Qed.

Lemma length_fix_oO s : length (fix_oO s) = length s.
Proof.
  unfold fix_oO.
  by rewrite length_sub_oO_end, length_sub_oO_start, length_sub_oO_between.
Qed.

Lemma digit_at_between s j :
  digit_at (sub_oO_between s) j
  = digit_at s j || (oO_at s j && between_digits s j).
Proof.
  unfold digit_at at 1 2, oO_at, sub_oO_between, between_digits.
  rewrite list_lookup_imap.
  destruct (s !! j) as [c|]; simpl; [|done].
  destruct (is_oO c) eqn:Ho; simpl.
  - destruct (digit_before s j && digit_at s (S j)); simpl;
      rewrite ?(is_oO_not_decimal c Ho); reflexivity.
  - by rewrite orb_false_r.
Qed.

Lemma oO_at_between s j :
  oO_at (sub_oO_between s) j = oO_at s j && negb (between_digits s j).
Proof.
  unfold oO_at, sub_oO_between, between_digits.
  rewrite list_lookup_imap.
  destruct (s !! j) as [c|]; simpl; [|done].
  destruct (is_oO c) eqn:Ho; simpl; [|done].
  by destruct (digit_before s j && digit_at s (S j)).
Qed.

Lemma digit_at_start s j :
  digit_at (sub_oO_start s) j
  = digit_at s j || (oO_at s j && Nat.eqb j 0 && digit_at s (S j)).
Proof.
  unfold digit_at at 1 2, oO_at, sub_oO_start.
  rewrite list_lookup_imap.
  destruct (s !! j) as [c|]; simpl; [|done].
  destruct (is_oO c) eqn:Ho; simpl.
  - rewrite andb_true_r.
    destruct (Nat.eqb j 0) eqn:E0; simpl;
      [destruct (digit_at s (S j)); simpl|];
      rewrite ?(is_oO_not_decimal c Ho); reflexivity.
  - by rewrite andb_false_r, orb_false_r.
Qed.

Lemma oO_at_start s j :
  oO_at (sub_oO_start s) j = oO_at s j && negb (Nat.eqb j 0 && digit_at s (S j)).
Proof.
  unfold oO_at, sub_oO_start.
  rewrite list_lookup_imap.
  destruct (s !! j) as [c|]; simpl; [|done].
  destruct (is_oO c) eqn:Ho; simpl; [|by rewrite andb_false_r].
  rewrite andb_true_r. by destruct (Nat.eqb j 0 && digit_at s (S j)).
Qed.

Lemma at_dollar_no_control s i :
  no_control s -> at_dollar s i = Nat.eqb i (length s).
Proof.
  intros Hs. unfold at_dollar.
  destruct (s !! i) as [c|] eqn:E; [|by rewrite andb_false_r, orb_false_r].
  destruct (c =? newline) eqn:Hc; [|by rewrite andb_false_r, orb_false_r].
  apply newline_is_control in Hc.
  unfold no_control in Hs. rewrite Forall_lookup in Hs.
  by rewrite (Hs _ _ E) in Hc.
Qed.

Lemma sub_oO_between_lookup s i :
  sub_oO_between s !! i
  = (fun c => if is_oO c && digit_before s i && digit_at s (S i) then zero else c)
      <$> s !! i.
Proof. apply list_lookup_imap. Qed.

Lemma sub_oO_start_lookup s i :
  sub_oO_start s !! i
  = (fun c => if Nat.eqb i 0 && is_oO c && digit_at s (S i) then zero else c)
      <$> s !! i.
Proof. apply list_lookup_imap. Qed.

Lemma sub_oO_end_lookup s i :
  sub_oO_end s !! i
  = (fun c => if is_oO c && digit_before s i && at_dollar s (S i) then zero else c)
      <$> s !! i.
Proof. apply list_lookup_imap. Qed.

(** Case analysis on the digits and letters around a position. *)
Ltac oO_conflict s :=
  exfalso;
  first
    [ match goal with
      | H : oO_at s ?i = true, H' : digit_at s ?i = true |- _ =>
          apply oO_at_not_digit in H; congruence
      end
    | repeat match goal with
        | H : Nat.eqb _ _ = true |- _ => apply Nat.eqb_eq in H
        | H : Nat.eqb _ _ = false |- _ => apply Nat.eqb_neq in H
        end; lia ].

Ltac oO_atoms s :=
  repeat (cbn [andb orb negb digit_before];
    match goal with
    | |- context [digit_at s ?i] =>
        let E := fresh "D" in destruct (digit_at s i) eqn:E
    | |- context [oO_at s ?i] =>
        let E := fresh "O" in destruct (oO_at s i) eqn:E
    | |- context [Nat.eqb ?a ?b] =>
        let E := fresh "E" in destruct (Nat.eqb a b) eqn:E
    end);
  cbn [andb orb negb]; try reflexivity; try oO_conflict s.

(** Chaining the three substitutions replaces exactly the positions
    where one of the three patterns matches the string they start from. *)
Lemma fix_oO_lookup s i c :
  no_control s -> s !! i = Some c ->
  fix_oO s !! i = Some (if replaced s i then zero else c).
Proof.
  intros Hs Hi.
  assert (Hl : (i < length s)%nat) by (eapply lookup_lt_Some; eauto).
  assert (Hn12 : no_control (sub_oO_start (sub_oO_between s))).
  { unfold no_control in *. rewrite Forall_lookup in *. intros j x.
    unfold sub_oO_start, sub_oO_between. rewrite !list_lookup_imap.
    destruct (s !! j) as [y|] eqn:Ej; simpl; [|done].
    intros [= <-]. specialize (Hs _ _ Ej).
    repeat match goal with |- context [if ?b then _ else _] => destruct b end;
      done. }
  assert (Hb : digit_before (sub_oO_start (sub_oO_between s)) i
               = digit_before s i
                 || match i with
                    | O => false
                    | S j => oO_at s j && (between_digits s j || at_start s j)
                    end).
  { destruct i as [|j]; [done|]. simpl.
    rewrite digit_at_start, !digit_at_between, oO_at_between.
    unfold between_digits, at_start.
    destruct j as [|k]; oO_atoms s. }
  assert (Oi : oO_at s i = is_oO c) by (unfold oO_at; by rewrite Hi).
  assert (Oi1 : oO_at (sub_oO_between s) i = oO_at s i && negb (between_digits s i))
    by apply oO_at_between.
  assert (Oi2 : oO_at (sub_oO_start (sub_oO_between s)) i
                = oO_at s i && negb (between_digits s i) && negb (at_start s i)).
  { rewrite oO_at_start, oO_at_between, digit_at_between.
    unfold between_digits, at_start. destruct i as [|j]; oO_atoms s. }
  unfold fix_oO. rewrite sub_oO_end_lookup.
  rewrite (at_dollar_no_control _ _ Hn12).
  rewrite length_sub_oO_start, length_sub_oO_between.
  rewrite Hb. clear Hb.
  destruct (sub_oO_start (sub_oO_between s) !! i) as [c2|] eqn:E2.
  2:{ apply lookup_ge_None in E2.
      rewrite length_sub_oO_start, length_sub_oO_between in E2. lia. }
  cbn [fmap option_fmap option_map]. f_equal.
  assert (Hc2 : c2 = if oO_at s i && (between_digits s i || at_start s i)
                     then zero else c).
  { revert E2. rewrite sub_oO_start_lookup, sub_oO_between_lookup, Hi.
    simpl. intros [= <-].
    rewrite digit_at_between, Oi.
    unfold between_digits, at_start.
    destruct (is_oO c) eqn:Oc; simpl; [|by rewrite Oc, andb_false_r].
    destruct i as [|j]; cbn [digit_before]; oO_atoms s;
      rewrite ?Oc; reflexivity. }
  unfold oO_at in Oi2 at 1. rewrite E2 in Oi2. rewrite Oi2.
  unfold replaced. subst c2.
  unfold between_digits, at_start, at_end.
  destruct i as [|[|k]]; oO_atoms s.
Qed.

Lemma digit_at_fix_oO s j :
  no_control s -> digit_at (fix_oO s) j = digit_at s j || replaced s j.
Proof.
  intros Hs. unfold digit_at at 1 2.
  destruct (s !! j) as [c|] eqn:E.
  - rewrite (fix_oO_lookup s j c Hs E).
    unfold replaced, oO_at. rewrite E.
    destruct (is_oO c) eqn:Oc; simpl; [|by rewrite orb_false_r].
    destruct (between_digits s j || at_start s j || at_end s j); simpl;
      rewrite ?(is_oO_not_decimal c Oc); reflexivity.
  - unfold replaced, oO_at. rewrite E.
    apply lookup_ge_None in E. rewrite <- length_fix_oO in E.
    apply lookup_ge_None in E. by rewrite E.
Qed.

Lemma oO_at_fix_oO s j :
  no_control s -> oO_at (fix_oO s) j = oO_at s j && negb (replaced s j).
Proof.
  intros Hs. unfold oO_at at 1.
  destruct (s !! j) as [c|] eqn:E.
  - rewrite (fix_oO_lookup s j c Hs E).
    unfold replaced, oO_at. rewrite E.
    destruct (is_oO c) eqn:Oc; simpl; [|by rewrite Oc].
    destruct (between_digits s j || at_start s j || at_end s j); simpl; done.
  - unfold oO_at. rewrite E.
    apply lookup_ge_None in E. rewrite <- length_fix_oO in E.
    apply lookup_ge_None in E. by rewrite E.
Qed.

Lemma no_control_fix_oO s : no_control s -> no_control (fix_oO s).
Proof.
  intros Hs. unfold no_control. rewrite Forall_lookup. intros i x Hx.
  destruct (s !! i) as [c|] eqn:E.
  - rewrite (fix_oO_lookup s i c Hs E) in Hx. injection Hx as <-.
    destruct (replaced s i); [done|].
    unfold no_control in Hs. rewrite Forall_lookup in Hs. eauto.
  - apply lookup_ge_None in E. rewrite <- length_fix_oO in E.
    apply lookup_ge_None in E. congruence.
Qed.

(** A position that the substitutions left alone is not matched when
    they run again. *)
Lemma replaced_fix_oO s i :
  no_control s -> replaced (fix_oO s) i = false.
Proof.
  intros Hs.
  destruct (s !! i) as [c|] eqn:E.
  2:{ unfold replaced, oO_at.
      apply lookup_ge_None in E. rewrite <- length_fix_oO in E.
      apply lookup_ge_None in E. by rewrite E. }
  assert (Hl : (i < length s)%nat) by (eapply lookup_lt_Some; eauto).
  unfold replaced at 1. rewrite (oO_at_fix_oO s i Hs).
  unfold between_digits, at_start, at_end. rewrite length_fix_oO.
  destruct i as [|[|k]]; cbn [digit_before];
    rewrite ?(digit_at_fix_oO s _ Hs);
    unfold replaced, between_digits, at_start, at_end; oO_atoms s.
Qed.

Lemma fix_oO_idempotent s : no_control s -> fix_oO (fix_oO s) = fix_oO s.
Proof.
  intros Hs. apply list_eq. intros i.
  destruct (fix_oO s !! i) as [c|] eqn:E.
  - rewrite (fix_oO_lookup _ i c (no_control_fix_oO s Hs) E).
    by rewrite (replaced_fix_oO s i Hs).
  - apply lookup_ge_None in E. apply lookup_ge_None.
    by rewrite length_fix_oO.
Qed.

Lemma has_digit_fix_oO s :
  no_control s -> has_digit s = true -> has_digit (fix_oO s) = true.
Proof.
  intros Hs. unfold has_digit. rewrite !existsb_exists.
  intros (c & Hc & Dc).
  apply list_elem_of_In, list_elem_of_lookup in Hc as [i Hi].
  exists c. split; [|done].
  apply list_elem_of_In, list_elem_of_lookup. exists i.
  rewrite (fix_oO_lookup s i c Hs Hi).
  unfold replaced, oO_at. rewrite Hi.
  destruct (is_oO c) eqn:Oc; [|done].
  apply is_oO_not_decimal in Oc. congruence.
Qed.

(** ** Trimmed strings *)

Lemma tame_Forall s :
  tame s <-> Forall (fun c => is_control c = true -> isspace c = true) s.
Proof.
  unfold tame. rewrite forallb_forall, Forall_forall.
  split; intros H c Hc.
  - apply list_elem_of_In, H in Hc. intros Hcc. by rewrite Hcc in Hc.
  - apply list_elem_of_In in Hc. specialize (H c Hc).
    destruct (is_control c); simpl; [by apply H|done].
Qed.

Section Strip.
Variable P : N -> Prop.

Lemma lstrip_Forall s : Forall P s -> Forall P (lstrip s).
Proof.
  induction 1 as [|c t Hc Ht IH]; simpl; [constructor|].
  destruct (isspace c); [done|by constructor].
Qed.

Lemma rstrip_Forall s : Forall P s -> Forall P (rstrip s).
Proof.
  intros H. unfold rstrip.
  apply Forall_reverse, lstrip_Forall, Forall_reverse, H.
Qed.

Lemma strip_Forall s : Forall P s -> Forall P (strip s).
Proof. intros H. by apply rstrip_Forall, lstrip_Forall. Qed.
End Strip.

Lemma lstrip_ltrimmed s : ltrimmed (lstrip s).
Proof.
  induction s as [|c t IH]; simpl; [by intros ?|].
  destruct (isspace c) eqn:E; [done|].
  intros x [= <-]. done.
Qed.

Lemma lstrip_id s : ltrimmed s -> lstrip s = s.
Proof.
  destruct s as [|c t]; [done|]. intros H. simpl.
  by rewrite (H c eq_refl).
Qed.

Lemma rstrip_snoc s c :
  rstrip (s ++ [c]) = if isspace c then rstrip s else s ++ [c].
Proof.
  unfold rstrip. rewrite reverse_snoc. simpl.
  destruct (isspace c); [done|].
  by rewrite reverse_cons, reverse_involutive.
Qed.

Lemma rstrip_rtrimmed s : rtrimmed (rstrip s).
Proof.
  unfold rstrip. intros c. rewrite last_reverse. apply lstrip_ltrimmed.
Qed.

Lemma rstrip_id s : rtrimmed s -> rstrip s = s.
Proof.
  destruct s as [|c t _] using rev_ind; [done|]. intros H.
  rewrite rstrip_snoc. by rewrite (H c (last_snoc _ _)).
Qed.

Lemma rstrip_ltrimmed s : ltrimmed s -> ltrimmed (rstrip s).
Proof.
  induction s as [|c t IH] using rev_ind; [done|]. intros H.
  rewrite rstrip_snoc. destruct (isspace c); [|done].
  apply IH. destruct t as [|x t]; [by intros ?|].
  intros y [= <-]. by apply H.
Qed.

Lemma strip_trimmed s : trimmed (strip s).
Proof.
  split; [apply rstrip_ltrimmed, lstrip_ltrimmed | apply rstrip_rtrimmed].
Qed.

Lemma strip_id s : trimmed s -> strip s = s.
Proof.
  intros [Hl Hr]. unfold strip. rewrite (lstrip_id s Hl). by apply rstrip_id.
Qed.

(** ** Whitespace runs *)

Lemma sub_ws_runs_idempotent r s :
  sub_ws_runs r (sub_ws_runs r s) = sub_ws_runs r s.
Proof.
  revert r. induction s as [|c t IH]; intros r; [done|]. simpl.
  destruct (isspace c) eqn:E.
  - destruct r; [apply IH|]. simpl.
    change (isspace space) with true. cbn iota. by rewrite IH.
  - simpl. rewrite E. by rewrite IH.
Qed.

Lemma sub_ws_runs_snoc r s c :
  isspace c = false -> sub_ws_runs r (s ++ [c]) = sub_ws_runs r s ++ [c].
Proof.
  intros Hc. revert r. induction s as [|x t IH]; intros r; simpl.
  - by rewrite Hc.
  - destruct (isspace x), r; simpl; by rewrite IH.
Qed.

Lemma collapse_ws_trimmed s : trimmed s -> trimmed (collapse_ws s).
Proof.
  intros [Hl Hr]. unfold collapse_ws. split.
  - destruct s as [|c t]; [by intros ?|]. simpl.
    rewrite (Hl c eq_refl). intros x [= <-]. by apply Hl.
  - destruct s as [|c t _] using rev_ind; [by intros ?|].
    pose proof (Hr c (last_snoc _ _)) as Hc.
    rewrite (sub_ws_runs_snoc _ _ _ Hc).
    intros x. rewrite last_snoc. by intros [= <-].
Qed.

Lemma sub_ws_runs_no_control r s : tame s -> no_control (sub_ws_runs r s).
Proof.
  rewrite tame_Forall. intros H. revert r.
  induction H as [|c t Hc Ht IH]; intros r; simpl; [constructor|].
  destruct (isspace c) eqn:E.
  - destruct r; [apply IH|]. constructor; [reflexivity|apply IH].
  - constructor; [|apply IH].
    destruct (is_control c); [|done]. by specialize (Hc eq_refl).
Qed.

(** ** Deleting control characters *)

Lemma del_control_no_control s : no_control (del_control s).
Proof.
  unfold no_control, del_control. apply Forall_forall. intros c Hc.
  apply list_elem_of_In, filter_In in Hc as [_ Hc].
  by destruct (is_control c).
Qed.

Lemma del_control_id s : no_control s -> del_control s = s.
Proof.
  unfold del_control. induction 1 as [|c t Hc Ht IH]; simpl; [done|].
  by rewrite Hc, IH.
Qed.

Lemma del_control_trimmed s : tame s -> trimmed s -> trimmed (del_control s).
Proof.
  rewrite tame_Forall. intros Ht [Hl Hr]. split.
  - destruct s as [|c t]; [by intros ?|].
    pose proof (Hl c eq_refl) as Hc. apply Forall_cons_1 in Ht as [Hcc _].
    unfold del_control. simpl.
    destruct (is_control c); [rewrite Hcc in Hc; done|].
    simpl. by intros x [= <-].
  - destruct s as [|c t _] using rev_ind; [by intros ?|].
    pose proof (Hr c (last_snoc _ _)) as Hc.
    apply Forall_app in Ht as [_ Hcc]. apply Forall_cons_1 in Hcc as [Hcc _].
    unfold del_control. rewrite List.filter_app. simpl.
    destruct (is_control c); [rewrite Hcc in Hc; done|].
    simpl. intros x. rewrite last_snoc. by intros [= <-].
Qed.

Lemma fix_oO_trimmed s : no_control s -> trimmed s -> trimmed (fix_oO s).
Proof.
  intros Hs [Hl Hr]. split; intros x.
  - rewrite head_lookup. destruct (s !! 0%nat) as [c|] eqn:E.
    + rewrite (fix_oO_lookup s 0 c Hs E). intros [= <-].
      destruct (replaced s 0); [reflexivity|].
      apply Hl. by rewrite head_lookup.
    + apply lookup_ge_None in E. rewrite <- length_fix_oO in E.
      apply lookup_ge_None in E. congruence.
  - rewrite last_lookup, length_fix_oO.
    destruct (s !! pred (length s)) as [c|] eqn:E.
    + rewrite (fix_oO_lookup s _ c Hs E). intros [= <-].
      destruct (replaced s _); [reflexivity|].
      apply Hr. by rewrite last_lookup.
    + apply lookup_ge_None in E. rewrite <- length_fix_oO in E at 1.
      apply lookup_ge_None in E. congruence.
Qed.

(** ** Cleaning a cleaned value again *)

Lemma clean_name_text_fixed s :
  tame s -> clean_name_text (clean_name_text s) = clean_name_text s.
Proof.
  intros Hs. unfold clean_name_text.
  assert (H0 : tame (strip s)).
  { apply tame_Forall, strip_Forall, tame_Forall, Hs. }
  assert (H1 : no_control (collapse_ws (strip s)))
    by apply sub_ws_runs_no_control, H0.
  assert (T1 : trimmed (collapse_ws (strip s)))
    by apply collapse_ws_trimmed, strip_trimmed.
  rewrite (del_control_id _ H1), (strip_id _ T1).
  unfold collapse_ws at 1. rewrite sub_ws_runs_idempotent.
  by apply del_control_id.
Qed.

Lemma clean_ref_text_fixed s :
  tame s -> clean_ref_text (clean_ref_text s) = clean_ref_text s.
Proof.
  intros Hs. unfold clean_ref_text at 2 3.
  set (b := del_control (strip s)).
  assert (Hb : no_control b) by apply del_control_no_control.
  assert (Tb : trimmed b).
  { apply del_control_trimmed; [|apply strip_trimmed].
    apply tame_Forall, strip_Forall, tame_Forall, Hs. }
  cbv zeta. destruct (has_digit b) eqn:Db; unfold clean_ref_text; cbv zeta.
  - rewrite (strip_id _ (fix_oO_trimmed b Hb Tb)).
    rewrite (del_control_id _ (no_control_fix_oO b Hb)).
    rewrite (has_digit_fix_oO b Hb Db). by apply fix_oO_idempotent.
  - rewrite (strip_id _ Tb), (del_control_id _ Hb). by rewrite Db.
Qed.

Lemma no_control_tame s : no_control s -> tame s.
Proof.
  intros Hs. apply tame_Forall. unfold no_control in Hs.
  eapply Forall_impl; [exact Hs|]. intros c Hc Hcc. congruence.
Qed.

Lemma clean_name_text_tame s : tame (clean_name_text s).
Proof. apply no_control_tame, del_control_no_control. Qed.

Lemma clean_ref_text_tame s : tame (clean_ref_text s).
Proof.
  apply no_control_tame. unfold clean_ref_text. cbv zeta.
  destruct (has_digit _);
    [apply no_control_fix_oO|]; apply del_control_no_control.
Qed.

(** C3 (as stated, refuted): cleaning the name ["a \x01 b"] gives
    ["a  b"], which a second cleaning turns into ["a b"]; cleaning the
    reference ["\x01 a"] gives [" a"], which a second cleaning turns into
    ["a"]. *)
Lemma cleaning_not_idempotent :
  clean_name_text (clean_name_text [97; 32; 1; 32; 98])
    <> clean_name_text [97; 32; 1; 32; 98]
  /\ clean_ref_text (clean_ref_text [1; 32; 97]) <> clean_ref_text [1; 32; 97].
Proof. split; vm_compute; discriminate. Qed.

(** C3 (amended): on every value whose control characters (code points
    0-31 and 127-159) are all whitespace characters, the name cleaning
    (trim, collapse whitespace runs, strip control characters) applied to
    its own output gives the same string, and so does the reference
    cleaning (trim, strip control characters, digit-guarded o/O to 0). On
    any value at all, the output of a second application is stable: a
    third application gives it again. *)
Theorem cleaning_idempotent_on_tame_values (s : pystr) :
  (tame s ->
   clean_name_text (clean_name_text s) = clean_name_text s
   /\ clean_ref_text (clean_ref_text s) = clean_ref_text s)
  /\ clean_name_text (clean_name_text (clean_name_text s))
     = clean_name_text (clean_name_text s)
  /\ clean_ref_text (clean_ref_text (clean_ref_text s))
     = clean_ref_text (clean_ref_text s).
Proof.
  split; [|split].
  - intros Hs.
    split; [by apply clean_name_text_fixed | by apply clean_ref_text_fixed].
  - apply clean_name_text_fixed, clean_name_text_tame.
  - apply clean_ref_text_fixed, clean_ref_text_tame.
Qed.

Lemma cleaning_idempotent_on_tame_values_witness :
  tame (lit "  Foo   Bar" ++ [9; 10] ++ lit "o45 ")
  /\ clean_name_text (clean_name_text (lit "  Foo   Bar" ++ [9; 10] ++ lit "o45 "))
     = clean_name_text (lit "  Foo   Bar" ++ [9; 10] ++ lit "o45 ")
  /\ clean_ref_text (clean_ref_text (lit "  Foo   Bar" ++ [9; 10] ++ lit "o45 "))
     = clean_ref_text (lit "  Foo   Bar" ++ [9; 10] ++ lit "o45 ").
Proof.
  split; [reflexivity|].
  apply (proj1 (cleaning_idempotent_on_tame_values
                  (lit "  Foo   Bar" ++ [9; 10] ++ lit "o45 "))).
  reflexivity.
Defined.

(** The three places, on the text that lines 61-67 receive. *)
Lemma clean_ref_text_positions (s : pystr) :
  let b := del_control (strip s) in
  (has_digit b = false -> clean_ref_text s = b)
  /\ (has_digit b = true ->
      length (clean_ref_text s) = length b
      /\ forall i c, b !! i = Some c ->
           clean_ref_text s !! i
           = Some (if is_oO c
                      && (digit_before b i && digit_at b (S i)
                          || Nat.eqb i 0 && digit_at b 1
                          || digit_before b i && Nat.eqb (S i) (length b))
                   then zero else c)).
Proof.
  intros b. unfold clean_ref_text. fold b. cbv zeta.
  split; intros Hd; rewrite Hd; [done|].
  split; [apply length_fix_oO|].
  intros i c Hi.
  rewrite (fix_oO_lookup b i c (del_control_no_control _) Hi).
  unfold replaced, oO_at, between_digits, at_start, at_end. by rewrite Hi.
Qed.

(** ** The monad and the store *)

Lemma bind_run {A B} (m : M A) (f : A -> M B) (h : store) :
  (m ≫= f) h
  = match m h with
    | (Ok a, h') => f a h'
    | (Raise e, h') => (Raise e, h')
    end.
Proof. reflexivity. Qed.

Lemma ret_run {A} (a : A) (h : store) : mret (M := M) a h = (Ok a, h).
Proof. reflexivity. Qed.

(** *** Objects that exist before a call are left alone *)

Section FreshOnly.
Context {A B : Type} (k : nat).

Lemma fresh_ret (a : A) (Q : A -> Prop) : Q a -> fresh_only k (mret a) Q.
Proof. intros Ha h Hk. repeat split; [done|]. by intros ? [= <-]. Qed.

Lemma fresh_raise (e : exn) (Q : A -> Prop) : fresh_only k (raise e) Q.
Proof. intros h Hk. repeat split; done. Qed.

Lemma fresh_lift (r : result A) (Q : A -> Prop) :
  (forall a, r = Ok a -> Q a) -> fresh_only k (lift r) Q.
Proof. intros Hr h Hk. repeat split; [done|]. apply Hr. Qed.

Lemma fresh_bind (m : M A) (f : A -> M B) (P : A -> Prop) (Q : B -> Prop) :
  fresh_only k m P -> (forall a, P a -> fresh_only k (f a) Q) ->
  fresh_only k (m ≫= f) Q.
Proof.
  intros Hm Hf h Hk. rewrite bind_run.
  destruct (Hm h Hk) as (Ht & Hl & Hq).
  destruct (m h) as [[a|e] h']; simpl in *; [|done].
  destruct (Hf a (Hq a eq_refl) h') as (Ht' & Hl' & Hq'); [lia|].
  repeat split; [congruence | lia | done].
Qed.

End FreshOnly.

Lemma fresh_get k l : fresh_only k (Obj.get l) (fun _ => True).
Proof.
  intros h Hk. unfold Obj.get. destruct (h !! l); repeat split; done.
Qed.

Lemma fresh_new k d : fresh_only k (Obj.new d) (fun l => (k <= l)%nat).
Proof.
  intros h Hk. unfold Obj.new. simpl. repeat split.
  - by rewrite take_app_le.
  - rewrite length_app. lia.
  - intros a [= <-]. done.
Qed.

Lemma fresh_update k l f :
  (k <= l)%nat -> fresh_only k (Obj.update l f) (fun _ => True).
Proof.
  intros Hl h Hk. unfold Obj.update.
  destruct (h !! l); simpl; repeat split; try done.
  - by apply take_insert_ge.
  - by rewrite length_insert.
Qed.

(** One step of a block: a primitive, then the rest. *)
Ltac fresh_steps :=
  repeat first
    [ apply fresh_ret; try done; try lia
    | apply fresh_raise
    | eapply fresh_bind;
      [ first [ apply fresh_get | apply fresh_new | apply fresh_update; lia
              | apply fresh_lift; done ]
      | intros ? ? ] ].

Lemma fresh_columns k l : fresh_only k (Obj.columns l) (fun _ => True).
Proof. unfold Obj.columns. fresh_steps. Qed.

Lemma fresh_len k l : fresh_only k (Obj.len l) (fun _ => True).
Proof. unfold Obj.len. fresh_steps. Qed.

Lemma fresh_copy k l : fresh_only k (Obj.copy l) (fun l' => (k <= l')%nat).
Proof. unfold Obj.copy. eapply fresh_bind; [apply fresh_get|]. intros. apply fresh_new. Qed.

Lemma fresh_getitem k l c : fresh_only k (Obj.getitem l c) (fun _ => True).
Proof.
  unfold Obj.getitem. eapply fresh_bind; [apply fresh_get|]. intros d _.
  destruct (Frame.assoc c (data d)); fresh_steps.
Qed.

Lemma fresh_setitem k l c s :
  (k <= l)%nat -> fresh_only k (Obj.setitem l c s) (fun _ => True).
Proof. intros. by apply fresh_update. Qed.

Lemma fresh_loc_getitem k l m c : fresh_only k (Obj.loc_getitem l m c) (fun _ => True).
Proof.
  unfold Obj.loc_getitem. eapply fresh_bind; [apply fresh_getitem|].
  intros. by apply fresh_ret.
Qed.

Lemma fresh_loc_setitem k l m c v :
  (k <= l)%nat -> fresh_only k (Obj.loc_setitem l m c v) (fun _ => True).
Proof.
  intros. unfold Obj.loc_setitem. eapply fresh_bind; [apply fresh_getitem|].
  intros. by apply fresh_update.
Qed.

Lemma fresh_mask k l m : fresh_only k (Obj.mask l m) (fun l' => (k <= l')%nat).
Proof. unfold Obj.mask. eapply fresh_bind; [apply fresh_get|]. intros. apply fresh_new. Qed.

Lemma fresh_drop k l c : fresh_only k (Obj.drop l c) (fun l' => (k <= l')%nat).
Proof.
  unfold Obj.drop. eapply fresh_bind; [apply fresh_get|]. intros d _.
  destruct (bool_decide _); [apply fresh_new | apply fresh_raise].
Qed.

(** A step of [clean_inventory_data] on objects of its own. *)
Ltac fresh_block :=
  repeat first
    [ apply fresh_ret; simpl in *; repeat split; try done; try lia
    | apply fresh_raise
    | eapply fresh_bind;
      [ first [ apply fresh_getitem | apply fresh_setitem; lia
              | apply fresh_loc_getitem | apply fresh_loc_setitem; lia
              | apply fresh_mask | apply fresh_drop | apply fresh_copy
              | apply fresh_len | apply fresh_columns
              | apply (fresh_lift _ _ (fun _ => True)); done ]
      | intros ? ? ] ].

Lemma fresh_clean_names k l n :
  (k <= l)%nat -> fresh_only k (clean_names l n) (fun _ => True).
Proof. intros. unfold clean_names. fresh_block. Qed.

Lemma fresh_clean_refs k l r :
  (k <= l)%nat -> fresh_only k (clean_refs l r) (fun _ => True).
Proof. intros. unfold clean_refs. cbv zeta. fresh_block. Qed.

Lemma fresh_split_duplicates k l n r :
  (k <= l)%nat ->
  fresh_only k (split_duplicates l n r)
    (fun p => (k <= p.1)%nat /\ (k <= p.2)%nat).
Proof.
  intros. unfold split_duplicates. cbv zeta. fresh_block.
Qed.

Lemma fresh_report k sort_values u d n r nc rc w :
  fresh_only k (report sort_values u d n r nc rc w) (fun _ => True).
Proof.
  unfold report, count_empty. cbv zeta. fresh_block.
  destruct (Nat.ltb 0 _); fresh_block.
Qed.

Lemma fresh_clean_inventory_data k sort_values df n r :
  fresh_only k (clean_inventory_data sort_values df n r)
    (fun p => (k <= p.1.1)%nat /\ (k <= p.1.2)%nat).
Proof.
  unfold clean_inventory_data.
  eapply fresh_bind; [apply fresh_columns|]. intros cols _.
  destruct (negb _); [apply fresh_raise|].
  destruct (negb _); [apply fresh_raise|].
  eapply fresh_bind; [apply fresh_copy|]. intros cleaned Hc. cbv zeta.
  eapply fresh_bind; [by apply fresh_clean_names|]. intros nc _.
  eapply fresh_bind; [by apply fresh_clean_refs|]. intros rc _.
  eapply fresh_bind; [by apply fresh_split_duplicates|].
  intros [u d] [Hu Hd].
  eapply fresh_bind; [apply fresh_report|]. intros w _.
  by apply fresh_ret.
Qed.

Lemma clean_inventory_data_bad_ref sort_values h df n r :
  h !! df = None ->
  clean_inventory_data sort_values df n r h = (Raise BadRef, h).
Proof.
  intros H. unfold clean_inventory_data, Obj.columns, Obj.get.
  rewrite !bind_run. by rewrite H.
Qed.

(** C10: whatever the arguments, every object that existed before the
    call, the caller's table among them, is the same after it (also when
    the call raises), and the two tables returned are objects created by
    the call. *)
Theorem input_table_not_mutated (sort_values : Group.sorter) (h : store)
    (df : ref) (product_name_col product_ref_col : pystr) :
  let out := clean_inventory_data sort_values df product_name_col product_ref_col h in
  take (length h) out.2 = h
  /\ out.2 !! df = h !! df
  /\ forall unique_df duplicate_df warnings,
       out.1 = Ok (unique_df, duplicate_df, warnings) ->
       (length h <= unique_df)%nat /\ (length h <= duplicate_df)%nat.
Proof.
  intros out.
  destruct (fresh_clean_inventory_data (length h) sort_values df
              product_name_col product_ref_col h) as (Ht & Hl & Hq); [done|].
  fold out in Ht, Hl, Hq. rewrite firstn_all in Ht.
  split; [done|]. split.
  - destruct (h !! df) as [d|] eqn:E.
    + rewrite <- (lookup_take_lt out.2 (length h) df)
        by (eapply lookup_lt_Some; eauto).
      by rewrite Ht.
    + unfold out. by rewrite clean_inventory_data_bad_ref.
  - intros u d w E. apply (Hq _ E).
Qed.

Lemma input_table_not_mutated_witness :
  let out := clean_inventory_data Group.merge_sort_desc 0%nat
               (lit "designation") (lit "reference") [Examples.sample] in
  out.2 !! 0%nat = Some Examples.sample
  /\ (1 <= 4)%nat /\ (1 <= 7)%nat.
Proof.
  intros out.
  destruct (input_table_not_mutated Group.merge_sort_desc [Examples.sample] 0%nat
              (lit "designation") (lit "reference")) as (_ & H2 & H3).
  split; [exact H2|].
  eapply (H3 4%nat 7%nat). vm_compute. reflexivity.
Defined.

(** ** Columns of a frame *)

Lemma assoc_set_same c s cols :
  Frame.assoc c (Frame.assoc_set c s cols) = Some s.
Proof.
  induction cols as [|[c' s'] cols IH]; simpl.
  - by rewrite decide_True.
  - destruct (decide (c' = c)) as [->|Hne]; simpl.
    + by rewrite decide_True.
    + by rewrite decide_False.
Qed.

Lemma assoc_set_ne c c' s cols :
  c <> c' -> Frame.assoc c' (Frame.assoc_set c s cols) = Frame.assoc c' cols.
Proof.
  intros Hne. induction cols as [|[x s'] cols IH]; simpl.
  - by rewrite decide_False.
  - destruct (decide (x = c)) as [->|Hx]; simpl.
    + by rewrite !decide_False.
    + destruct (decide (x = c')); [done|apply IH].
Qed.

Lemma assoc_set_twice c s1 s2 cols :
  Frame.assoc_set c s2 (Frame.assoc_set c s1 cols) = Frame.assoc_set c s2 cols.
Proof.
  induction cols as [|[x s'] cols IH]; simpl.
  - by rewrite decide_True.
  - destruct (decide (x = c)) as [->|Hx]; simpl.
    + by rewrite decide_True.
    + rewrite decide_False by done. by rewrite IH.
Qed.

Lemma assoc_is_Some c cols : c ∈ cols.*1 <-> is_Some (Frame.assoc c cols).
Proof.
  induction cols as [|[x s'] cols IH]; simpl.
  - split; [by intros ?%elem_of_nil | by intros [? ?]].
  - rewrite elem_of_cons. destruct (decide (x = c)) as [->|Hx].
    + split; [by eexists | by left].
    + rewrite <- IH. split; [intros [?|?]; [congruence|done] | by right].
Qed.

Lemma assoc_set_columns_in c s cols :
  c ∈ cols.*1 -> (Frame.assoc_set c s cols).*1 = cols.*1.
Proof.
  induction cols as [|[x s'] cols IH]; simpl.
  - by intros ?%elem_of_nil.
  - rewrite elem_of_cons. destruct (decide (x = c)) as [->|Hx]; simpl; [done|].
    intros [?|?]; [congruence|]. f_equal. by apply IH.
Qed.

Lemma assoc_set_columns_notin c s cols :
  c ∉ cols.*1 -> (Frame.assoc_set c s cols).*1 = cols.*1 ++ [c].
Proof.
  induction cols as [|[x s'] cols IH]; simpl; [done|].
  rewrite not_elem_of_cons. intros [Hx Hc].
  rewrite decide_False by done. simpl. f_equal. by apply IH.
Qed.

Lemma assoc_lookup c cols s :
  Frame.assoc c cols = Some s -> (c, s) ∈ cols.
Proof.
  induction cols as [|[x s'] cols IH]; simpl; [done|].
  destruct (decide (x = c)) as [->|Hx].
  - intros [= ->]. by left.
  - intros H. right. by apply IH.
Qed.

(** ** What the cleaning does to one cell *)

Lemma replace_astype s :
  Series.replace (Text (lit "nan")) (Text (lit "")) (Series.astype_str s)
  = (fun v => Text (nan_blank (py_str v))) <$> s.
Proof.
  unfold Series.replace, Series.astype_str. rewrite <- list_fmap_compose.
  apply list_fmap_ext. intros _ v _. simpl. unfold nan_blank.
  destruct (decide (py_str v = lit "nan")) as [E|E].
  - rewrite decide_True; [done|by rewrite E].
  - rewrite decide_False; [done|]. intros [= H]. done.
Qed.

Lemma name_pipeline s :
  Series.str_replace_control
    (Series.str_replace_ws
       (Series.str_strip
          (Series.replace (Text (lit "nan")) (Text (lit "")) (Series.astype_str s))))
  = norm_name <$> s.
Proof.
  rewrite replace_astype.
  unfold Series.str_replace_control, Series.str_replace_ws, Series.str_strip.
  rewrite <- !list_fmap_compose. apply list_fmap_ext. by intros _ v _.
Qed.

Lemma assign_select (f : cell -> cell) (p : cell -> bool) (s : Series) :
  Series.assign (p <$> s) s (f <$> Series.select (p <$> s) s)
  = (fun v => if p v then f v else v) <$> s.
Proof.
  induction s as [|v s IH]; simpl; [done|].
  destruct (p v); simpl; f_equal; apply IH.
Qed.

Lemma ref_pipeline s :
  let base := Series.str_replace_control
                (Series.str_strip
                   (Series.replace (Text (lit "nan")) (Text (lit ""))
                      (Series.astype_str s))) in
  let m := Series.str_contains_digit base in
  Series.assign m base
    (Series.str_replace_oO_end
       (Series.str_replace_oO_start
          (Series.str_replace_oO_between (Series.select m base))))
  = norm_ref <$> s.
Proof.
  intros base m.
  unfold Series.str_replace_oO_end, Series.str_replace_oO_start,
    Series.str_replace_oO_between.
  rewrite <- !list_fmap_compose.
  unfold m, Series.str_contains_digit.
  rewrite assign_select. unfold base.
  rewrite replace_astype.
  unfold Series.str_replace_control, Series.str_strip.
  rewrite <- !list_fmap_compose. apply list_fmap_ext. intros _ v _. simpl.
  unfold norm_ref, clean_ref_text. cbv zeta.
  by destruct (has_digit _).
Qed.

Lemma norm_name_text s : Forall is_text (norm_name <$> s).
Proof. apply Forall_fmap, Forall_forall. by intros. Qed.

Lemma norm_ref_text s : Forall is_text (norm_ref <$> s).
Proof. apply Forall_fmap, Forall_forall. by intros. Qed.

Lemma add_text a b :
  Forall is_text a -> Forall is_text b ->
  Series.add a b = Ok (zip_with (fun x y => Text (py_str x ++ py_str y)) a b).
Proof.
  intros Ha. revert b. induction Ha as [|x a Hx Ha IH]; intros b Hb; [done|].
  destruct Hb as [|y b Hy Hb]; [done|]. simpl.
  destruct x, y; try done. simpl. by rewrite (IH b Hb).
Qed.

(** ** Running the primitives *)

Lemma lookup_app_add (X t : store) k : (X ++ t) !! (length X + k)%nat = t !! k.
Proof. rewrite lookup_app_r by lia. f_equal. lia. Qed.

Lemma get_run h l c : h !! l = Some c -> Obj.get l h = (Ok c, h).
Proof. intros H. unfold Obj.get. by rewrite H. Qed.

Lemma columns_run h l c :
  h !! l = Some c -> Obj.columns l h = (Ok (Frame.columns c), h).
Proof. intros H. unfold Obj.columns. by rewrite bind_run, (get_run _ _ _ H). Qed.

Lemma len_run h l c : h !! l = Some c -> Obj.len l h = (Ok (Frame.len c), h).
Proof. intros H. unfold Obj.len. by rewrite bind_run, (get_run _ _ _ H). Qed.

Lemma getitem_run h l c n s :
  h !! l = Some c -> Frame.assoc n (data c) = Some s ->
  Obj.getitem l n h = (Ok s, h).
Proof.
  intros H Hn. unfold Obj.getitem. by rewrite bind_run, (get_run _ _ _ H), Hn.
Qed.

Lemma getitem_missing h l c n :
  h !! l = Some c -> Frame.assoc n (data c) = None ->
  Obj.getitem l n h = (Raise (KeyError n), h).
Proof.
  intros H Hn. unfold Obj.getitem. by rewrite bind_run, (get_run _ _ _ H), Hn.
Qed.

Lemma copy_run h l c :
  h !! l = Some c -> Obj.copy l h = (Ok (length h), h ++ [c]).
Proof. intros H. unfold Obj.copy. by rewrite bind_run, (get_run _ _ _ H). Qed.

Lemma mask_run h l c m :
  h !! l = Some c -> Obj.mask l m h = (Ok (length h), h ++ [Frame.mask c m]).
Proof. intros H. unfold Obj.mask. by rewrite bind_run, (get_run _ _ _ H). Qed.

Lemma drop_run h l c n :
  h !! l = Some c -> n ∈ Frame.columns c ->
  Obj.drop l n h = (Ok (length h), h ++ [Frame.without n c]).
Proof.
  intros H Hn. unfold Obj.drop.
  by rewrite bind_run, (get_run _ _ _ H), bool_decide_eq_true_2.
Qed.

(** The frame being cleaned sits at [l]; item assignment rewrites it in
    place. *)
Section InPlace.
Variables (H : store) (l : ref).
Hypothesis Hl : (l < length H)%nat.

Lemma getitem_at c n s :
Frame.assoc n (data c) = Some s ->
Obj.getitem l n (<[l := c]> H) = (Ok s, <[l := c]> H).
Proof. intros Hn. apply (getitem_run _ _ c); [by apply list_lookup_insert_eq|done]. Qed.

Lemma setitem_at c n s :
Obj.setitem l n s (<[l := c]> H) = (Ok tt, <[l := Frame.setitem c n s]> H).
Proof.
unfold Obj.setitem, Obj.update.
rewrite list_lookup_insert_eq by done. by rewrite list_insert_insert_eq.
Qed.

Lemma loc_getitem_at c m n s :
Frame.assoc n (data c) = Some s ->
Obj.loc_getitem l m n (<[l := c]> H) = (Ok (Series.select m s), <[l := c]> H).
Proof.
intros Hn. unfold Obj.loc_getitem. by rewrite bind_run, (getitem_at _ _ _ Hn).
Qed.

Lemma loc_setitem_at c m n s vals :
Frame.assoc n (data c) = Some s ->
Obj.loc_setitem l m n vals (<[l := c]> H)
= (Ok tt, <[l := Frame.setitem c n (Series.assign m s vals)]> H).
Proof.
intros Hn. unfold Obj.loc_setitem, Obj.update.
rewrite bind_run, (getitem_at _ _ _ Hn).
rewrite list_lookup_insert_eq by done. by rewrite list_insert_insert_eq.
Qed.
End InPlace.

Lemma setitem_setitem d c s1 s2 :
  Frame.setitem (Frame.setitem d c s1) c s2 = Frame.setitem d c s2.
Proof. unfold Frame.setitem. simpl. by rewrite assoc_set_twice. Qed.

Lemma assoc_setitem_same d c s :
  Frame.assoc c (data (Frame.setitem d c s)) = Some s.
Proof. apply assoc_set_same. Qed.

Lemma assoc_setitem_ne d c c' s :
  c <> c' -> Frame.assoc c' (data (Frame.setitem d c s)) = Frame.assoc c' (data d).
Proof. apply assoc_set_ne. Qed.

(** ** Running the blocks *)

Ltac run_getitem Hl :=
  rewrite bind_run;
  erewrite (getitem_at _ _ Hl);
    [ | first [ eassumption | apply assoc_setitem_same ] ];
  cbv beta iota.

Ltac run_setitem Hl :=
  rewrite bind_run, (setitem_at _ _ Hl); cbv beta iota;
  rewrite ?setitem_setitem.

Lemma clean_names_run (H : store) l c n s :
  (l < length H)%nat -> Frame.assoc n (data c) = Some s ->
  clean_names l n (<[l := c]> H)
  = (Ok (changed s (norm_name <$> s)),
     <[l := Frame.setitem c n (norm_name <$> s)]> H).
Proof.
  intros Hl Hn. unfold clean_names.
  run_getitem Hl. run_getitem Hl. run_setitem Hl.
  run_getitem Hl. run_setitem Hl.
  run_getitem Hl. run_setitem Hl.
  run_getitem Hl. rewrite name_pipeline. reflexivity.
Qed.

Lemma clean_refs_run (H : store) l c r s :
  (l < length H)%nat -> Frame.assoc r (data c) = Some s ->
  clean_refs l r (<[l := c]> H)
  = (Ok (changed s (norm_ref <$> s)),
     <[l := Frame.setitem c r (norm_ref <$> s)]> H).
Proof.
  intros Hl Hr. unfold clean_refs.
  run_getitem Hl. run_getitem Hl. run_setitem Hl.
  run_getitem Hl. run_setitem Hl.
  run_getitem Hl. run_setitem Hl.
  run_getitem Hl. cbv zeta.
  rewrite bind_run, (loc_getitem_at _ _ Hl _ _ _ _ (assoc_setitem_same _ _ _)).
  cbv beta iota.
  rewrite bind_run, (loc_setitem_at _ _ Hl _ _ _ _ _ (assoc_setitem_same _ _ _)).
  cbv beta iota. rewrite setitem_setitem.
  run_getitem Hl.
  pose proof (ref_pipeline s) as Hp. cbv zeta in Hp. rewrite Hp.
  reflexivity.
Qed.

Lemma add_scalar_text a c :
  Forall is_text a ->
  Series.add_scalar a (Text c) = Ok ((fun x => Text (py_str x ++ c)) <$> a).
Proof.
  intros Ha. unfold Series.add_scalar.
  rewrite (add_text a _ Ha) by (apply Forall_replicate; done).
  f_equal. clear. induction a as [|x a IH]; simpl; [done|]. f_equal. apply IH.
Qed.

Lemma add_sep_text a b :
  Forall is_text a -> Forall is_text b ->
  Series.add ((fun x => Text (py_str x ++ lit "|")) <$> a) b
  = Ok (zip_with key_of a b).
Proof.
  intros Ha Hb. rewrite add_text; [|by apply Forall_fmap, Forall_forall|done].
  f_equal. clear. revert b.
  induction a as [|x a IH]; intros [|y b]; simpl; try done.
  f_equal. apply IH.
Qed.

Lemma columns_setitem_in d c s :
  c ∈ Frame.columns d -> Frame.columns (Frame.setitem d c s) = Frame.columns d.
Proof. apply assoc_set_columns_in. Qed.

Lemma columns_setitem_elem d c s : c ∈ Frame.columns (Frame.setitem d c s).
Proof.
  apply assoc_is_Some. unfold Frame.setitem. simpl.
  rewrite assoc_set_same. by eexists.
Qed.

Lemma columns_mask d m : Frame.columns (Frame.mask d m) = Frame.columns d.
Proof.
  unfold Frame.columns, Frame.mask. simpl.
  rewrite <- list_fmap_compose. apply list_fmap_ext. by intros _ [? ?] _.
Qed.

Lemma assoc_mask d m c :
  Frame.assoc c (data (Frame.mask d m)) = Series.select m <$> Frame.assoc c (data d).
Proof.
  unfold Frame.mask. simpl. induction (data d) as [|[x s] cols IH]; simpl; [done|].
  destruct (decide (x = c)); [done|apply IH].
Qed.

Lemma assoc_without d c c' :
  c <> c' -> Frame.assoc c' (data (Frame.without c d)) = Frame.assoc c' (data d).
Proof.
  intros Hne. unfold Frame.without. simpl.
  induction (data d) as [|[x s] cols IH]; simpl; [done|].
  destruct (decide (x = c)) as [->|Hx].
  - rewrite bool_decide_eq_true_2 by done. simpl.
    by rewrite decide_False.
  - rewrite bool_decide_eq_false_2 by done. simpl.
    destruct (decide (x = c')); [done|apply IH].
Qed.

Lemma split_duplicates_run (H : store) l c n r a b :
  (l < length H)%nat ->
  Frame.assoc n (data c) = Some a -> Frame.assoc r (data c) = Some b ->
  Forall is_text a -> Forall is_text b ->
  let key := zip_with key_of a b in
  let keyed := Frame.setitem c temp_key key in
  let dm := Series.duplicated key in
  let u := Frame.without temp_key (Frame.mask keyed (Series.invert dm)) in
  let d := Frame.without temp_key (Frame.mask keyed dm) in
  split_duplicates l n r (<[l := c]> H)
  = (Ok (length H + 2, length H + 5)%nat,
     <[l := keyed]> H
       ++ [Frame.mask keyed (Series.invert dm); u; u; Frame.mask keyed dm; d; d]).
Proof.
  intros Hl Hn Hr Ha Hb key keyed dm u d. unfold split_duplicates.
  run_getitem Hl.
  rewrite bind_run. unfold lift at 1. rewrite (add_scalar_text a _ Ha). cbv beta iota.
  run_getitem Hl.
  rewrite bind_run. unfold lift at 1. rewrite (add_sep_text a b Ha Hb). cbv beta iota.
  run_setitem Hl. fold key keyed.
  run_getitem Hl. cbv zeta. fold dm.
  set (X := <[l := keyed]> H).
  assert (HX : X !! l = Some keyed) by (by apply list_lookup_insert_eq).
  assert (LX : length X = length H) by apply length_insert.
  assert (Hk : forall m, temp_key ∈ Frame.columns (Frame.mask keyed m)).
  { intros m. rewrite columns_mask. apply columns_setitem_elem. }
  rewrite bind_run, (mask_run X l keyed _ HX). cbv beta iota.
  rewrite bind_run, (drop_run _ (length X) (Frame.mask keyed (Series.invert dm)));
    [|by apply list_lookup_middle|apply Hk].
  cbv beta iota. fold u.
  rewrite bind_run, (copy_run _ _ u); [|by apply list_lookup_middle].
  cbv beta iota.
  rewrite bind_run, (mask_run _ l keyed);
    [|do 3 apply lookup_app_l_Some; exact HX].
  cbv beta iota.
  rewrite bind_run, (drop_run _ _ (Frame.mask keyed dm));
    [|by apply list_lookup_middle|apply Hk].
  cbv beta iota. fold d.
  rewrite bind_run, (copy_run _ _ d); [|by apply list_lookup_middle].
  cbv beta iota. rewrite ret_run.
  rewrite !length_app, LX. simpl. rewrite <- !app_assoc. simpl.
  replace (length H + 1 + 1 + 1 + 1 + 1)%nat with (length H + 5)%nat by lia.
  replace (length H + 1 + 1)%nat with (length H + 2)%nat by lia.
  reflexivity.
Qed.

Lemma report_run sort_values (S : store) u d U D n r un ur dn dr nc rc w :
  S !! u = Some U -> S !! d = Some D ->
  Frame.assoc n (data U) = Some un -> Frame.assoc r (data U) = Some ur ->
  Frame.assoc n (data D) = Some dn -> Frame.assoc r (data D) = Some dr ->
  report sort_values u d n r nc rc w S
  = (Ok (report_text sort_values nc rc un ur dn dr (Frame.len D) w), S).
Proof.
  intros Hu Hd Hun Hur Hdn Hdr. unfold report, report_text. cbv zeta.
  rewrite bind_run, (getitem_run _ _ _ _ _ Hu Hun). cbv beta iota.
  rewrite bind_run, (getitem_run _ _ _ _ _ Hu Hun). cbv beta iota.
  rewrite bind_run, (getitem_run _ _ _ _ _ Hu Hur). cbv beta iota.
  rewrite bind_run, (getitem_run _ _ _ _ _ Hu Hur). cbv beta iota.
  rewrite bind_run, (len_run _ _ _ Hd). cbv beta iota.
  destruct (Nat.ltb 0 (Frame.len D)).
  - rewrite bind_run, (getitem_run _ _ _ _ _ Hd Hdn). cbv beta iota.
    rewrite bind_run, (getitem_run _ _ _ _ _ Hd Hdr). cbv beta iota.
    rewrite ret_run. f_equal. f_equal.
    destruct (Nat.ltb 0 nc), (Nat.ltb 0 rc), (Nat.ltb 0 (count_empty un un)),
      (Nat.ltb 0 (count_empty ur ur));
      rewrite <- ?app_assoc; simpl; rewrite ?app_nil_r; reflexivity.
  - rewrite ret_run. f_equal. f_equal.
    destruct (Nat.ltb 0 nc), (Nat.ltb 0 rc), (Nat.ltb 0 (count_empty un un)),
      (Nat.ltb 0 (count_empty ur ur));
      rewrite <- ?app_assoc; simpl; rewrite ?app_nil_r; reflexivity.
Qed.

(** ** The tables a successful call builds *)

Lemma col_assoc d c :
  is_Some (Frame.assoc c (data d)) -> Frame.assoc c (data d) = Some (col d c).
Proof. intros [s Hs]. unfold col. by rewrite Hs. Qed.

Lemma col_assoc_in d c :
  c ∈ Frame.columns d -> Frame.assoc c (data d) = Some (col d c).
Proof. intros H. by apply col_assoc, assoc_is_Some. Qed.

Lemma col_setitem_same d c s : col (Frame.setitem d c s) c = s.
Proof. unfold col. by rewrite assoc_setitem_same. Qed.

Lemma col_setitem_ne d c c' s : c <> c' -> col (Frame.setitem d c s) c' = col d c'.
Proof. intros H. unfold col. by rewrite assoc_setitem_ne. Qed.

Lemma columns_names_cleaned df n :
  n ∈ Frame.columns df -> Frame.columns (names_cleaned df n) = Frame.columns df.
Proof. apply columns_setitem_in. Qed.

Lemma columns_normalized df n r :
  n ∈ Frame.columns df -> r ∈ Frame.columns df ->
  Frame.columns (normalized df n r) = Frame.columns df.
Proof.
  intros Hn Hr. unfold normalized.
  rewrite columns_setitem_in; rewrite columns_names_cleaned; done.
Qed.

Lemma normalized_text df n r :
  n ∈ Frame.columns df ->
  Forall is_text (col (normalized df n r) n)
  /\ Forall is_text (col (normalized df n r) r).
Proof.
  intros Hn. unfold normalized. split.
  - destruct (decide (r = n)) as [->|Hne].
    + rewrite col_setitem_same. apply norm_ref_text.
    + rewrite col_setitem_ne by done. unfold names_cleaned.
      rewrite col_setitem_same. apply norm_name_text.
  - rewrite col_setitem_same. apply norm_ref_text.
Qed.

Lemma assoc_part df n r m c :
  c <> temp_key -> c ∈ Frame.columns df ->
  n ∈ Frame.columns df -> r ∈ Frame.columns df ->
  Frame.assoc c (data (Frame.without temp_key (Frame.mask (keyed df n r) m)))
  = Some (Series.select m (col (normalized df n r) c)).
Proof.
  intros Hc Hin Hn Hr.
  rewrite assoc_without by done. rewrite assoc_mask. unfold keyed.
  rewrite assoc_setitem_ne by done.
  rewrite col_assoc_in; [done|]. by rewrite columns_normalized.
Qed.

Lemma store_insert_last (h : store) (x y : DataFrame) :
  <[length h := y]> (h ++ [x]) = h ++ [y].
Proof. rewrite insert_app_r_alt by lia. by rewrite Nat.sub_diag. Qed.

(** A call whose columns exist reaches the report with the two tables
    built. *)
Lemma clean_inventory_data_prefix sort_values (h : store) l df n r :
  h !! l = Some df ->
  n ∈ Frame.columns df -> r ∈ Frame.columns df ->
  clean_inventory_data sort_values l n r h
  = (report sort_values (length h + 3)%nat (length h + 6)%nat n r
       (names_changed_count df n) (refs_changed_count df n r) []
     ≫= fun warnings => mret ((length h + 3)%nat, (length h + 6)%nat, warnings))
      (final_store h df n r).
Proof.
  intros Hl Hn Hr. unfold clean_inventory_data.
  rewrite bind_run, (columns_run _ _ _ Hl). cbv beta iota.
  rewrite !bool_decide_eq_true_2 by done. cbn [negb]. cbv iota.
  rewrite bind_run, (copy_run _ _ _ Hl). cbv beta iota zeta.
  rewrite <- (store_insert_last h df df).
  assert (HL : (length h < length (h ++ [df]))%nat)
    by (rewrite length_app; simpl; lia).
  rewrite bind_run.
  rewrite (clean_names_run _ _ _ _ _ HL (col_assoc_in _ _ Hn)). cbv beta iota.
  fold (names_cleaned df n).
  assert (Hr3 : Frame.assoc r (data (names_cleaned df n))
                = Some (col (names_cleaned df n) r)).
  { apply col_assoc_in. by rewrite columns_names_cleaned. }
  rewrite bind_run, (clean_refs_run _ _ _ _ _ HL Hr3). cbv beta iota.
  fold (normalized df n r).
  destruct (normalized_text df n r Hn) as [Tn Tr].
  assert (Hn7 : Frame.assoc n (data (normalized df n r))
                = Some (col (normalized df n r) n)).
  { apply col_assoc_in. by rewrite columns_normalized. }
  assert (Hr7 : Frame.assoc r (data (normalized df n r))
                = Some (col (normalized df n r) r)).
  { apply col_assoc_in. by rewrite columns_normalized. }
  rewrite bind_run.
  pose proof (split_duplicates_run _ _ _ _ _ _ _ HL Hn7 Hr7 Tn Tr) as Hs.
  cbv zeta in Hs. rewrite Hs. clear Hs. cbv beta iota.
  fold (keys df n r). fold (keyed df n r). fold (duplicate_mask df n r).
  fold (unique_part df n r). fold (duplicate_part df n r).
  rewrite store_insert_last. unfold final_store.
  rewrite length_app. simpl. rewrite <- app_assoc. simpl.
  replace (length h + 1 + 2)%nat with (length h + 3)%nat by lia.
  replace (length h + 1 + 5)%nat with (length h + 6)%nat by lia.
  unfold changed, names_changed_count, refs_changed_count, changed.
  reflexivity.
Qed.

Lemma final_store_unique h df n r :
  final_store h df n r !! (length h + 3)%nat = Some (unique_part df n r).
Proof. unfold final_store. by rewrite lookup_app_add. Qed.

Lemma final_store_duplicate h df n r :
  final_store h df n r !! (length h + 6)%nat = Some (duplicate_part df n r).
Proof. unfold final_store. by rewrite lookup_app_add. Qed.

(** The run of a call whose columns exist and are not called
    [_temp_key]: the references and the warnings it returns, and the
    store it leaves. *)
Lemma clean_inventory_data_run sort_values (h : store) l df n r :
  h !! l = Some df ->
  n ∈ Frame.columns df -> r ∈ Frame.columns df ->
  n <> temp_key -> r <> temp_key ->
  clean_inventory_data sort_values l n r h
  = (Ok ((length h + 3)%nat, (length h + 6)%nat, warnings_of sort_values df n r),
     final_store h df n r).
Proof.
  intros Hl Hn Hr Hnk Hrk.
  rewrite (clean_inventory_data_prefix _ _ _ _ _ _ Hl Hn Hr).
  rewrite bind_run.
  rewrite (report_run sort_values _ _ _ (unique_part df n r) (duplicate_part df n r)
             n r  (col (unique_part df n r) n) (col (unique_part df n r) r)
             (col (duplicate_part df n r) n) (col (duplicate_part df n r) r)).
  - reflexivity.
  - apply final_store_unique.
  - apply final_store_duplicate.
  - apply col_assoc. unfold unique_part. rewrite assoc_part; done.
  - apply col_assoc. unfold unique_part. rewrite assoc_part; done.
  - apply col_assoc. unfold duplicate_part. rewrite assoc_part; done.
  - apply col_assoc. unfold duplicate_part. rewrite assoc_part; done.
Qed.

(** *** A selected column called [_temp_key] *)

Lemma assoc_without_same d c : Frame.assoc c (data (Frame.without c d)) = None.
Proof.
  unfold Frame.without. simpl.
  induction (data d) as [|[x s] cols IH]; simpl; [done|].
  destruct (decide (x = c)) as [->|Hx].
  - by rewrite bool_decide_eq_true_2.
  - rewrite bool_decide_eq_false_2 by done. simpl. by rewrite decide_False.
Qed.

Lemma report_raises sort_values (S : store) u d U n r nc rc w :
  S !! u = Some U ->
  Frame.assoc n (data U) = None \/ Frame.assoc r (data U) = None ->
  exists c, report sort_values u d n r nc rc w S = (Raise (KeyError c), S)
            /\ Frame.assoc c (data U) = None /\ (c = n \/ c = r).
Proof.
  intros Hu Hmiss. unfold report. cbv zeta.
  destruct (Frame.assoc n (data U)) as [un|] eqn:En.
  - destruct Hmiss as [?|Er]; [done|].
    exists r. split; [|auto].
    rewrite bind_run, (getitem_run _ _ _ _ _ Hu En). cbv beta iota.
    rewrite bind_run, (getitem_run _ _ _ _ _ Hu En). cbv beta iota.
    by rewrite bind_run, (getitem_missing _ _ _ _ Hu Er).
  - exists n. split; [|auto].
    by rewrite bind_run, (getitem_missing _ _ _ _ Hu En).
Qed.

(** Selecting [_temp_key] itself: line 72 overwrites the column, lines
    78-79 drop it, and line 88 or 90 raises [KeyError]. *)
Lemma clean_inventory_data_key_error sort_values (h : store) l df n r :
  h !! l = Some df ->
  n ∈ Frame.columns df -> r ∈ Frame.columns df ->
  n = temp_key \/ r = temp_key ->
  clean_inventory_data sort_values l n r h
  = (Raise (KeyError temp_key), final_store h df n r).
Proof.
  intros Hl Hn Hr Hk.
  rewrite (clean_inventory_data_prefix _ _ _ _ _ _ Hl Hn Hr).
  rewrite bind_run.
  destruct (report_raises sort_values (final_store h df n r)
              (length h + 3)%nat (length h + 6)%nat (unique_part df n r) n r
              (names_changed_count df n) (refs_changed_count df n r) [])
    as (c & -> & Hc & Hcase).
  - apply final_store_unique.
  - destruct Hk as [->| ->]; [left|right]; apply assoc_without_same.
  - destruct (decide (c = temp_key)) as [->|Hne]; [done|].
    exfalso. unfold unique_part in Hc. rewrite assoc_part in Hc; try done.
    by destruct Hcase as [-> | ->].
Qed.

(** A call returns exactly when the selection is selectable. *)
Lemma clean_inventory_data_returns sort_values (h : store) l df n r p :
  h !! l = Some df ->
  (clean_inventory_data sort_values l n r h).1 = Ok p ->
  n ∈ Frame.columns df /\ r ∈ Frame.columns df /\ n <> temp_key /\ r <> temp_key.
Proof.
  intros Hl Hok.
  destruct (decide (n ∈ Frame.columns df)) as [Hn|Hn].
  2:{ unfold clean_inventory_data in Hok.
      rewrite bind_run, (columns_run _ _ _ Hl) in Hok. cbv beta iota in Hok.
      by rewrite bool_decide_eq_false_2 in Hok. }
  destruct (decide (r ∈ Frame.columns df)) as [Hr|Hr].
  2:{ unfold clean_inventory_data in Hok.
      rewrite bind_run, (columns_run _ _ _ Hl) in Hok. cbv beta iota in Hok.
      rewrite bool_decide_eq_true_2 in Hok by done.
      by rewrite bool_decide_eq_false_2 in Hok. }
  destruct (decide (n = temp_key)) as [Hnk|Hnk].
  { by rewrite (clean_inventory_data_key_error _ _ _ df) in Hok by auto. }
  destruct (decide (r = temp_key)) as [Hrk|Hrk].
  { by rewrite (clean_inventory_data_key_error _ _ _ df) in Hok by auto. }
  done.
Qed.

(** ** Selecting rows *)

Lemma length_invert m : length (Series.invert m) = length m.
Proof. apply length_fmap. Qed.

Lemma select_split {A} (m : list bool) (l : list A) :
  length m = length l ->
  (length (Series.select (Series.invert m) l) + length (Series.select m l)
   = length l)%nat.
Proof.
  revert l. induction m as [|b m IH]; intros [|x l] Hlen; simpl in *; try done.
  injection Hlen as Hlen. specialize (IH l Hlen).
  destruct b; simpl; lia.
Qed.

Lemma select_elem {A} (m : list bool) (l : list A) x :
  x ∈ Series.select m l -> x ∈ l.
Proof.
  revert l.
  induction m as [|b m IH]; intros [|y l]; simpl;
    try (by intros ?%elem_of_nil).
  destruct b; rewrite ?elem_of_cons.
  - intros [->|Hx]; [by left|right; by apply IH].
  - intros Hx. right. by apply IH.
Qed.



Lemma select_text m s : Forall is_text s -> Forall is_text (Series.select m s).
Proof.
  intros Hs. apply Forall_forall. intros x Hx.
  rewrite Forall_forall in Hs. by eapply Hs, select_elem.
Qed.

(** ** Well-formed frames *)

Lemma wf_length d c s :
  Frame.wf d -> Frame.assoc c (data d) = Some s -> length s = Frame.len d.
Proof.
  intros (_ & _ & Hlen) Hs. rewrite Forall_forall in Hlen.
  apply (Hlen (c, s)). by apply assoc_lookup.
Qed.

Lemma wf_col_length d c :
  Frame.wf d -> c ∈ Frame.columns d -> length (col d c) = Frame.len d.
Proof. intros Hwf Hc. eapply wf_length; [done|by apply col_assoc_in]. Qed.

Lemma length_normalized_col df n r c :
  Frame.wf df -> n ∈ Frame.columns df -> r ∈ Frame.columns df ->
  c ∈ Frame.columns df ->
  length (col (normalized df n r) c) = Frame.len df.
Proof.
  intros Hwf Hn Hr Hc. unfold normalized.
  assert (L3 : forall x, x ∈ Frame.columns df ->
                 length (col (names_cleaned df n) x) = Frame.len df).
  { intros x Hx. unfold names_cleaned. destruct (decide (n = x)) as [->|Hne].
    - rewrite col_setitem_same, length_fmap. by apply wf_col_length.
    - rewrite col_setitem_ne by done. by apply wf_col_length. }
  destruct (decide (r = c)) as [->|Hne].
  - rewrite col_setitem_same, length_fmap. by apply L3.
  - rewrite col_setitem_ne by done. by apply L3.
Qed.

Lemma length_duplicate_mask df n r :
  Frame.wf df -> n ∈ Frame.columns df -> r ∈ Frame.columns df ->
  length (duplicate_mask df n r) = length (index df).
Proof.
  intros Hwf Hn Hr. unfold duplicate_mask, Series.duplicated, keys.
  rewrite length_fmap, length_zip_with.
  rewrite !length_normalized_col by done. unfold Frame.len. lia.
Qed.

Lemma index_unique_part df n r :
  index (unique_part df n r)
  = Series.select (Series.invert (duplicate_mask df n r)) (index df).
Proof. reflexivity. Qed.

Lemma index_duplicate_part df n r :
  index (duplicate_part df n r) = Series.select (duplicate_mask df n r) (index df).
Proof. reflexivity. Qed.

(** C6: when the name column or the reference column is not in the table,
    the call raises the missing-column [ValueError] (for the name column
    if it is missing, otherwise for the reference column) and leaves the
    store as it was: no copy is made, nothing is assigned. *)
Theorem missing_column_raises_first (sort_values : Group.sorter) (h : store)
    (l : ref) (df : DataFrame) (n r : pystr) :
  h !! l = Some df ->
  n ∉ Frame.columns df \/ r ∉ Frame.columns df ->
  clean_inventory_data sort_values l n r h
  = (Raise (ValueError (Msg.missing_column
                          (if bool_decide (n ∈ Frame.columns df) then r else n))),
     h).
Proof.
  intros Hl Hmiss. unfold clean_inventory_data.
  rewrite bind_run, (columns_run _ _ _ Hl). cbv beta iota.
  destruct (bool_decide (n ∈ Frame.columns df)) eqn:En; simpl; [|done].
  apply bool_decide_eq_true in En.
  destruct Hmiss as [Hn|Hr]; [done|].
  by rewrite bool_decide_eq_false_2.
Qed.

Lemma missing_column_raises_first_witness :
  clean_inventory_data Group.merge_sort_desc 0%nat (lit "designation") (lit "ref")
    [Examples.sample]
  = (Raise (ValueError (lit "Colonne 'ref' non trouvée dans le DataFrame")),
     [Examples.sample]).
Proof.
  rewrite (missing_column_raises_first Group.merge_sort_desc [Examples.sample] 0%nat
             Examples.sample (lit "designation") (lit "ref")).
  - vm_compute. reflexivity.
  - reflexivity.
  - right. intros Hin. pose proof (bool_decide_eq_true_2 _ Hin) as E.
    vm_compute in E. discriminate.
Defined.


Ltac by_computation := apply (bool_decide_unpack _); vm_compute; exact I.


(** ** An empty table *)

Lemma select_nil {A} (m : list bool) : Series.select m (@nil A) = [].
Proof. by destruct m. Qed.

Lemma col_part df n r m c :
  c <> temp_key -> c ∈ Frame.columns df ->
  n ∈ Frame.columns df -> r ∈ Frame.columns df ->
  col (Frame.without temp_key (Frame.mask (keyed df n r) m)) c
  = Series.select m (col (normalized df n r) c).
Proof. intros. unfold col at 1. by rewrite assoc_part. Qed.

Lemma warnings_of_empty sort_values df n r :
  Frame.wf df -> selectable df n r -> Frame.len df = 0%nat ->
  warnings_of sort_values df n r = [].
Proof.
  intros Hwf (Hn & Hr & Hnk & Hrk) H0.
  assert (E : forall c, c ∈ Frame.columns df -> col (normalized df n r) c = []).
  { intros c Hc. apply nil_length_inv.
    by rewrite length_normalized_col. }
  assert (En : col df n = []).
  { apply nil_length_inv. by rewrite wf_col_length. }
  assert (Er : col (names_cleaned df n) r = []).
  { apply nil_length_inv. unfold names_cleaned.
    destruct (decide (n = r)) as [->|Hne].
    - by rewrite col_setitem_same, En.
    - rewrite col_setitem_ne by done. by rewrite wf_col_length. }
  unfold warnings_of, names_changed_count, refs_changed_count,
    unique_part, duplicate_part.
  rewrite !col_part by done. rewrite !E by done. rewrite !select_nil.
  rewrite En, Er. unfold Frame.len. simpl.
  unfold Frame.len in H0. apply nil_length_inv in H0. rewrite H0.
  rewrite select_nil. reflexivity.
Qed.

(** C7: for a well-formed table without rows and a selectable pair of
    columns, the call returns two tables without rows and an empty list of
    warnings, and the duplicate rate that [main] computes from them is 0,
    not a [ZeroDivisionError]. *)
Theorem zero_rows_give_empty_results (sort_values : Group.sorter) (h : store)
    (l : ref) (df : DataFrame) (n r : pystr) :
  h !! l = Some df -> Frame.wf df -> selectable df n r -> Frame.len df = 0%nat ->
  exists unique_df duplicate_df U D,
    let out := clean_inventory_data sort_values l n r h in
    out.1 = Ok (unique_df, duplicate_df, [])
    /\ (out.2 !! unique_df = Some U) /\ (out.2 !! duplicate_df = Some D)
    /\ Frame.len U = 0%nat /\ Frame.len D = 0%nat
    /\ duplicate_rate (Frame.len D) (Frame.len df) = Ok 0%Q.
Proof.
  intros Hl Hwf Hsel H0. pose proof Hsel as (Hn & Hr & Hnk & Hrk).
  exists (length h + 3)%nat, (length h + 6)%nat,
    (unique_part df n r), (duplicate_part df n r).
  cbv zeta. rewrite (clean_inventory_data_run _ _ _ _ _ _ Hl Hn Hr Hnk Hrk).
  cbn [fst snd]. rewrite final_store_unique, final_store_duplicate.
  rewrite (warnings_of_empty _ _ _ _ Hwf Hsel H0).
  assert (Hi : index df = []) by (by apply nil_length_inv).
  unfold Frame.len. rewrite index_unique_part, index_duplicate_part, Hi.
  rewrite !select_nil. done.
Qed.

Lemma zero_rows_give_empty_results_witness :
  exists unique_df duplicate_df U D,
    let out := clean_inventory_data Group.merge_sort_desc 0%nat
                 (lit "name") (lit "ref") [Examples.empty] in
    out.1 = Ok (unique_df, duplicate_df, [])
    /\ (out.2 !! unique_df = Some U) /\ (out.2 !! duplicate_df = Some D)
    /\ Frame.len U = 0%nat /\ Frame.len D = 0%nat
    /\ duplicate_rate (Frame.len D) (Frame.len Examples.empty) = Ok 0%Q.
Proof.
  apply (zero_rows_give_empty_results Group.merge_sort_desc [Examples.empty] 0%nat
           Examples.empty (lit "name") (lit "ref")).
  - reflexivity.
  - by_computation.
  - by_computation.
  - reflexivity.
Defined.

(** ** Columns outside the selection *)

Lemma columns_without d c :
  Frame.columns (Frame.without c d)
  = List.filter (fun x => negb (bool_decide (x = c))) (Frame.columns d).
Proof.
  unfold Frame.columns, Frame.without. simpl.
  induction (data d) as [|[x s] cols IH]; simpl; [done|].
  destruct (bool_decide (x = c)); simpl; [apply IH|]. f_equal. apply IH.
Qed.

Lemma filter_out_absent (c : pystr) cols :
  c ∉ cols -> List.filter (fun x => negb (bool_decide (x = c))) cols = cols.
Proof.
  induction cols as [|x cols IH]; simpl; [done|].
  rewrite not_elem_of_cons. intros [Hx Hc].
  rewrite bool_decide_eq_false_2 by done. simpl. f_equal. by apply IH.
Qed.

Lemma columns_setitem_notin d c s :
  c ∉ Frame.columns d -> Frame.columns (Frame.setitem d c s) = Frame.columns d ++ [c].
Proof. apply assoc_set_columns_notin. Qed.

Lemma columns_part df n r m :
  n ∈ Frame.columns df -> r ∈ Frame.columns df -> temp_key ∉ Frame.columns df ->
  Frame.columns (Frame.without temp_key (Frame.mask (keyed df n r) m))
  = Frame.columns df.
Proof.
  intros Hn Hr Hk. rewrite columns_without, columns_mask. unfold keyed.
  rewrite columns_setitem_notin by (by rewrite columns_normalized).
  rewrite columns_normalized by done.
  rewrite List.filter_app.
  replace (List.filter (fun x => negb (bool_decide (x = temp_key))) [temp_key])
    with (@nil pystr) by (vm_compute; reflexivity).
  rewrite app_nil_r. by apply filter_out_absent.
Qed.

Lemma col_normalized_other df n r c :
  c <> n -> c <> r -> col (normalized df n r) c = col df c.
Proof.
  intros Hn Hr. unfold normalized, names_cleaned.
  by rewrite !col_setitem_ne.
Qed.

(** What holds of the other columns: when the table has no column called
    [_temp_key], both tables returned have the columns of the input, and a
    column outside the selection holds the input's cells of the rows kept. *)
Lemma other_columns_kept df n r :
  n ∈ Frame.columns df -> r ∈ Frame.columns df -> temp_key ∉ Frame.columns df ->
  Frame.columns (unique_part df n r) = Frame.columns df
  /\ Frame.columns (duplicate_part df n r) = Frame.columns df
  /\ forall c, c ∈ Frame.columns df -> c <> n -> c <> r ->
       col (unique_part df n r) c
       = Series.select (Series.invert (duplicate_mask df n r)) (col df c)
       /\ col (duplicate_part df n r) c
          = Series.select (duplicate_mask df n r) (col df c).
Proof.
  intros Hn Hr Hk. unfold unique_part, duplicate_part.
  rewrite !columns_part by done. split; [done|]. split; [done|].
  intros c Hc Hcn Hcr.
  assert (c <> temp_key) by (intros ->; done).
  rewrite !col_part by done. by rewrite col_normalized_other.
Qed.

(** C9 (the code against the claim): the table [with_temp_key] has the
    columns [name], [ref] and [_temp_key]; called on [name] and [ref], the
    function returns tables that have the columns [name] and [ref] only:
    line 72 overwrites the input's [_temp_key] column and lines 78-79 drop
    it. *)
Theorem temp_key_column_is_lost (sort_values : Group.sorter) :
  let out := clean_inventory_data sort_values 0%nat (lit "name") (lit "ref")
               [Examples.with_temp_key] in
  Frame.columns Examples.with_temp_key = [lit "name"; lit "ref"; lit "_temp_key"]
  /\ exists unique_df duplicate_df warnings U D,
       out.1 = Ok (unique_df, duplicate_df, warnings)
       /\ (out.2 !! unique_df = Some U) /\ (out.2 !! duplicate_df = Some D)
       /\ Frame.columns U = [lit "name"; lit "ref"]
       /\ Frame.columns D = [lit "name"; lit "ref"].
Proof.
  split; [reflexivity|].
  exists 4%nat, 7%nat, [],
    (mkDataFrame [0%nat]
       [(lit "name", [Text (lit "a")]); (lit "ref", [Text (lit "r1")])]),
    (mkDataFrame [] [(lit "name", []); (lit "ref", [])]).
  vm_compute. repeat split; reflexivity.
Qed.

(** ** The correction of [o] and [O] *)

(** C4: run on a well-formed table, the reference block stores a column
    of [str] cells, one for each cell of the reference column. Let [b] be
    the trimmed, control-free text that lines 61-67 receive for a cell.
    When [b] holds a decimal digit, the cell stored has the length of [b]
    and differs from it exactly where an [o] or [O] stands between two
    digits, at the start before a digit, or at the end after a digit, and
    there it holds [0]; when [b] holds no digit the cell stored is [b].
    The column ["1o2"], ["o45"], ["45o"], ["abc"] is stored as ["102"],
    ["045"], ["450"], ["abc"]. *)
Theorem oO_replaced_in_three_positions :
  (forall (H : store) (l : ref) (c : DataFrame) (r : pystr) (s : Series),
     (l < length H)%nat -> Frame.wf c -> Frame.assoc r (data c) = Some s ->
     exists s' : Series,
       ((clean_refs l r (<[l := c]> H)).2 !! l = Some (Frame.setitem c r s'))
       /\ length s' = length s
       /\ forall i v, s !! i = Some v ->
            let b := del_control (strip (nan_blank (py_str v))) in
            exists t : pystr,
              s' !! i = Some (Text t)
              /\ (has_digit b = false -> t = b)
              /\ (has_digit b = true ->
                  length t = length b
                  /\ forall j ch, b !! j = Some ch ->
                       t !! j
                       = Some (if is_oO ch
                                  && (digit_before b j && digit_at b (S j)
                                      || Nat.eqb j 0 && digit_at b 1
                                      || digit_before b j
                                         && Nat.eqb (S j) (length b))
                               then zero else ch)))
  /\ (clean_refs 0%nat (lit "ref") [oO_examples]).2
     = [ mkDataFrame [0; 1; 2; 3]%nat
           [ (lit "ref", [ Text (lit "102"); Text (lit "045"); Text (lit "450");
                           Text (lit "abc") ]) ] ].
Proof.
  split; [|vm_compute; reflexivity].
  intros H l c r s Hl _ Hs. exists (norm_ref <$> s).
  rewrite (clean_refs_run _ _ _ _ _ Hl Hs). cbn [snd].
  split; [by apply list_lookup_insert_eq|]. split; [apply length_fmap|].
  intros i v Hv. exists (clean_ref_text (nan_blank (py_str v))).
  split; [by rewrite list_lookup_fmap, Hv|].
  exact (clean_ref_text_positions (nan_blank (py_str v))).
Qed.

Lemma oO_replaced_in_three_positions_witness :
  let c := mkDataFrame [0; 1]%nat
             [ (lit "ref", [Text (lit " x1o2O "); Text (lit " oOps ")]) ] in
  (clean_refs 0%nat (lit "ref") (<[0%nat := c]> [c])).2 !! 0%nat
  = Some (mkDataFrame [0; 1]%nat
            [ (lit "ref", [Text (lit "x1020"); Text (lit "oOps")]) ]).
Proof.
  intros c.
  destruct (proj1 oO_replaced_in_three_positions [c] 0%nat c (lit "ref")
              [Text (lit " x1o2O "); Text (lit " oOps ")])
    as (s' & Hrun & Hlen & Hcells).
  - simpl. lia.
  - by_computation.
  - reflexivity.
  - rewrite Hrun. f_equal.
    destruct (Hcells 0%nat (Text (lit " x1o2O ")) eq_refl) as (t0 & H0 & _ & P0).
    destruct (Hcells 1%nat (Text (lit " oOps ")) eq_refl) as (t1 & H1 & N1 & _).
    destruct (P0 eq_refl) as [L0 P0'].
    destruct s' as [|u0 [|u1 [|? ?]]]; try discriminate Hlen.
    injection H0 as ->. injection H1 as ->.
    rewrite (N1 eq_refl).
    assert (E0 : t0 = lit "x1020").
    { apply list_eq. intros j.
      destruct (decide (j < 5)%nat) as [Hj|Hj].
      - destruct j as [|[|[|[|[|j]]]]]; [| | | | |lia];
          (erewrite P0'; [|reflexivity]); reflexivity.
      - rewrite !lookup_ge_None_2; [done| |]; [simpl; lia|].
        rewrite L0. vm_compute. lia. }
    rewrite E0. reflexivity.
Defined.

(** ** Missing values *)

(** C5 (as stated, refuted): [None], [pd.NA] and [pd.NaT] are missing
    values, and lines 37-38 and 52-53 turn them into the texts ["None"],
    ["<NA>"] and ["NaT"], which line 38 and line 53 do not blank. The
    table has the names [None], [pd.NA], [nan] and the references [NaT],
    ["r"], ["s"]; the function returns the names ["None"], ["<NA>"], [""]
    and the references ["NaT"], ["r"], ["s"]. *)
Lemma null_values_are_not_blanked :
  let df := mkDataFrame [0; 1; 2]%nat
              [ (lit "name", [Null PyNone; Null PdNA; NaN]);
                (lit "ref", [Null PdNaT; Text (lit "r"); Text (lit "s")]) ] in
  let out := clean_inventory_data Group.merge_sort_desc 0%nat
               (lit "name") (lit "ref") [df] in
  Forall (fun v => is_null v = true) (col df (lit "name"))
  /\ exists unique_df duplicate_df warnings U,
       out.1 = Ok (unique_df, duplicate_df, warnings)
       /\ (out.2 !! unique_df = Some U)
       /\ col U (lit "name")
          = [Text (lit "None"); Text (lit "<NA>"); Text (lit "")]
       /\ col U (lit "ref")
          = [Text (lit "NaT"); Text (lit "r"); Text (lit "s")].
Proof.
  split; [repeat constructor|].
  eexists 4%nat, 7%nat, _, _. vm_compute. repeat split; reflexivity.
Qed.

(** C5 (amended): run on a well-formed table, lines 37-38 (and 52-53)
    turn every cell into its [str] text and then into the empty string
    when that text is ["nan"], which is the text of the float [nan] the
    readers put for a missing value; any other text is kept, among them
    ["None"], ["<NA>"] and ["NaT"], the texts of the other null objects.
    The remaining rules of the name block and of the reference block are
    applied to the result; they leave an empty string empty and the three
    texts as they are. *)
Theorem missing_values_become_empty_text (H : store) (l : ref) (c : DataFrame)
    (n : pystr) (s : Series) :
  (l < length H)%nat -> Frame.wf c -> Frame.assoc n (data c) = Some s ->
  let blank := fun v => if decide (py_str v = lit "nan") then lit "" else py_str v in
  Series.replace (Text (lit "nan")) (Text (lit "")) (Series.astype_str s)
    = (fun v => Text (blank v)) <$> s
  /\ ((clean_names l n (<[l := c]> H)).2 !! l
      = Some (Frame.setitem c n ((fun v => Text (clean_name_text (blank v))) <$> s)))
  /\ ((clean_refs l n (<[l := c]> H)).2 !! l
      = Some (Frame.setitem c n ((fun v => Text (clean_ref_text (blank v))) <$> s)))
  /\ py_str NaN = lit "nan"
  /\ blank NaN = lit ""
  /\ (forall v, py_str v = lit "nan" -> blank v = lit "")
  /\ (forall v, py_str v <> lit "nan" -> blank v = py_str v)
  /\ py_str (Null PyNone) = lit "None"
  /\ py_str (Null PdNA) = lit "<NA>"
  /\ py_str (Null PdNaT) = lit "NaT"
  /\ (forall k, blank (Null k) = py_str (Null k)
                /\ clean_name_text (py_str (Null k)) = py_str (Null k)
                /\ clean_ref_text (py_str (Null k)) = py_str (Null k))
  /\ clean_name_text (lit "") = lit ""
  /\ clean_ref_text (lit "") = lit "".
Proof.
  intros Hl _ Hs blank.
  split; [apply replace_astype|].
  split; [rewrite (clean_names_run _ _ _ _ _ Hl Hs); by apply list_lookup_insert_eq|].
  split; [rewrite (clean_refs_run _ _ _ _ _ Hl Hs); by apply list_lookup_insert_eq|].
  split; [reflexivity|]. split; [reflexivity|].
  split; [intros v Hv; unfold blank; by rewrite decide_True|].
  split; [intros v Hv; unfold blank; by rewrite decide_False|].
  split; [reflexivity|]. split; [reflexivity|]. split; [reflexivity|].
  split; [|split; reflexivity].
  intros [| |]; repeat split; vm_compute; reflexivity.
Qed.

Lemma missing_values_become_empty_text_witness :
  let s := [Text (lit " A  b "); NaN; Text (lit "nan"); Int 12; Null PyNone] in
  let c := mkDataFrame [0; 1; 2; 3; 4]%nat [(lit "x", s)] in
  (clean_names 0%nat (lit "x") [c]).2 !! 0%nat
    = Some (mkDataFrame [0; 1; 2; 3; 4]%nat
              [(lit "x", [Text (lit "A b"); Text (lit ""); Text (lit "");
                          Text (lit "12"); Text (lit "None")])])
  /\ (clean_refs 0%nat (lit "x") [c]).2 !! 0%nat
     = Some (mkDataFrame [0; 1; 2; 3; 4]%nat
               [(lit "x", [Text (lit "A  b"); Text (lit ""); Text (lit "");
                           Text (lit "12"); Text (lit "None")])]).
Proof.
  intros s c.
  destruct (missing_values_become_empty_text [c] 0%nat c (lit "x") s)
    as (_ & Hn & Hr & _); [simpl; lia|by_computation|reflexivity|].
  split; [exact Hn|exact Hr].
Defined.

(** ** Groups of duplicates *)

Lemma filter_no_nan a b :
  Forall is_text a -> Forall is_text b ->
  List.filter (fun k => negb (Group.has_nan k)) (zip a b) = zip a b.
Proof.
  intros Ha. revert b. induction Ha as [|x a Hx Ha IH]; intros b Hb; [done|].
  destruct Hb as [|y b Hy Hb]; [done|]. simpl.
  destruct x, y; try done. simpl. f_equal. by apply IH.
Qed.

Lemma groupby_size_text a b :
  Forall is_text a -> Forall is_text b ->
  Group.groupby_size a b
  = (fun k => (k, count_occ Group.key_eq_dec (zip a b) k))
      <$> merge_sort (fun x y => Is_true (Group.key_leb x y)) (remove_dups (zip a b)).
Proof. intros Ha Hb. unfold Group.groupby_size. by rewrite filter_no_nan. Qed.

Lemma groupby_size_keys a b :
  Forall is_text a -> Forall is_text b ->
  (Group.groupby_size a b).*1 ≡ₚ remove_dups (zip a b).
Proof.
  intros Ha Hb. rewrite groupby_size_text by done.
  rewrite <- list_fmap_compose.
  rewrite (list_fmap_ext _ id); [|by intros].
  rewrite list_fmap_id. apply merge_sort_Permutation.
Qed.

Lemma groupby_size_elem a b k c :
  Forall is_text a -> Forall is_text b ->
  (k, c) ∈ Group.groupby_size a b
  <-> k ∈ zip a b /\ c = count_occ Group.key_eq_dec (zip a b) k.
Proof.
  intros Ha Hb. rewrite groupby_size_text by done.
  rewrite list_elem_of_fmap. setoid_rewrite merge_sort_Permutation.
  setoid_rewrite elem_of_remove_dups. split.
  - intros (k' & [= -> ->] & Hk). done.
  - intros (Hk & ->). by exists k.
Qed.

Lemma groupby_size_NoDup a b :
  Forall is_text a -> Forall is_text b -> NoDup (Group.groupby_size a b).*1.
Proof.
  intros Ha Hb. rewrite groupby_size_keys by done. apply NoDup_remove_dups.
Qed.

#[local] Instance size_ge_transitive : Transitive Group.size_ge.
Proof. intros x y z. unfold Group.size_ge. lia. Qed.

#[local] Instance size_ge_total : Total Group.size_ge.
Proof. intros x y. unfold Group.size_ge. lia. Qed.

Lemma merge_sort_desc_sorts : Group.sorts Group.merge_sort_desc.
Proof.
  intros l. unfold Group.merge_sort_desc, Group.descending. split.
  - apply merge_sort_Permutation.
  - apply Sorted_merge_sort. apply _.
Qed.

Lemma Sorted_take {A} (R : A -> A -> Prop) k (l : list A) :
  Sorted R l -> Sorted R (take k l).
Proof.
  intros Hs. revert k. induction Hs as [|x l Hs IH Hhd]; intros [|k]; simpl;
    try constructor; [apply IH|].
  destruct Hhd as [|y l Hxy]; destruct k; simpl; constructor. done.
Qed.

(** The head of a descending list: its first five groups. *)
Lemma top_of_sorted (sort_values : Group.sorter) (groups : list Group.group) :
  Group.sorts sort_values -> NoDup groups ->
  let top := take 5 (sort_values groups) in
  length top = Nat.min 5 (length groups)
  /\ (forall g, g ∈ top -> g ∈ groups)
  /\ NoDup top
  /\ Group.descending top
  /\ (forall g t, g ∈ groups -> g ∉ top -> t ∈ top -> (g.2 <= t.2)%nat).
Proof.
  intros Hsort Hnd top. destruct (Hsort groups) as [Hp Hd].
  split; [|split; [|split; [|split]]].
  - unfold top. rewrite length_take. by rewrite Hp.
  - intros g Hg. rewrite <- Hp. by eapply subseteq_take.
  - eapply sublist_NoDup; [|apply sublist_take]. by rewrite Hp.
  - by apply Sorted_take.
  - intros g t Hg Hng Ht.
    rewrite <- Hp, <- (take_drop 5 (sort_values groups)) in Hg.
    apply elem_of_app in Hg as [Hg|Hg]; [done|].
    apply Sorted_StronglySorted in Hd; [|apply _].
    rewrite <- (take_drop 5 (sort_values groups)) in Hd.
    apply (StronglySorted_app_1_elem_of _ _ _ _ _ Hd Ht Hg).
Qed.

(** C8 (the code against the claim): the table [with_temp_key] is
    well formed; called on the columns [name] and [_temp_key], lines 30-79
    run to their end, building the two tables without the column
    [_temp_key], and the reporter raises [KeyError('_temp_key')] at line
    90, so the call raises it. *)
Theorem reporter_raises_on_a_selected_temp_key (sort_values : Group.sorter) :
  let df := Examples.with_temp_key in
  let n := lit "name" in
  let r := lit "_temp_key" in
  let before_report : M (nat * nat * (ref * ref)) :=
    cleaned_df ← Obj.copy 0%nat;
    names_changed ← clean_names cleaned_df n;
    refs_changed ← clean_refs cleaned_df r;
    tables ← split_duplicates cleaned_df n r;
    mret (names_changed, refs_changed, tables) in
  Frame.wf df
  /\ exists (S : store) (U : DataFrame),
       before_report [df] = (Ok (0%nat, 0%nat, (4%nat, 7%nat)), S)
       /\ (S !! 4%nat = Some U)
       /\ Frame.columns U = [lit "name"; lit "ref"]
       /\ report sort_values 4%nat 7%nat n r 0%nat 0%nat [] S
          = (Raise (KeyError (lit "_temp_key")), S)
       /\ clean_inventory_data sort_values 0%nat n r [df]
          = (Raise (KeyError (lit "_temp_key")), S).
Proof.
  split; [by_computation|].
  eexists _, _. vm_compute. repeat split; reflexivity.
Qed.

(** X25: on a well-formed table and a pair of columns of it, neither
    called [_temp_key], the call raises nothing and its
    warnings are, in this order: the count of cleaned names when it is
    positive, the count of corrected references when it is positive, the
    counts of empty names and of empty references among the unique rows
    when positive, and, when the table of duplicates has rows, the number
    of groups, the line ["Top 5 doublons:"] and one line per group of
    [top]. The groups are the distinct (name, reference) pairs of the
    duplicate rows, each with its number of rows; [top] holds the first
    five of them (all of them when there are fewer) in descending order of
    size, and no group left out is larger than a group of [top]. A line
    reads [  • 'name' | 'ref' : count occurrences]. *)
Theorem duplicate_groups_reported (sort_values : Group.sorter) (h : store)
    (l : ref) (df : DataFrame) (n r : pystr) :
  Group.sorts sort_values -> h !! l = Some df -> Frame.wf df ->
  selectable df n r ->
  exists unique_df duplicate_df warnings U D (groups top : list Group.group),
    let out := clean_inventory_data sort_values l n r h in
    let rows := zip (col D n) (col D r) in
    out.1 = Ok (unique_df, duplicate_df, warnings)
    /\ (out.2 !! unique_df = Some U) /\ (out.2 !! duplicate_df = Some D)
    /\ warnings
       = (if Nat.ltb 0 (names_changed_count df n)
          then [Msg.names_changed (names_changed_count df n)] else [])
         ++ (if Nat.ltb 0 (refs_changed_count df n r)
             then [Msg.refs_changed (refs_changed_count df n r)] else [])
         ++ (if Nat.ltb 0 (count_empty (col U n) (col U n))
             then [Msg.empty_names (count_empty (col U n) (col U n))] else [])
         ++ (if Nat.ltb 0 (count_empty (col U r) (col U r))
             then [Msg.empty_refs (count_empty (col U r) (col U r))] else [])
         ++ (if Nat.ltb 0 (Frame.len D)
             then Msg.groups_found (length groups) :: Msg.top5
                    :: (Msg.group_line <$> top)
             else [])
    /\ NoDup groups.*1
    /\ (forall k c, (k, c) ∈ groups
                    <-> k ∈ rows /\ c = count_occ Group.key_eq_dec rows k)
    /\ length top = Nat.min 5 (length groups)
    /\ (forall g, g ∈ top -> g ∈ groups)
    /\ NoDup top
    /\ Group.descending top
    /\ (forall g t, g ∈ groups -> g ∉ top -> t ∈ top -> (g.2 <= t.2)%nat)
    /\ (forall a b c,
          Msg.group_line (Text a, Text b, c)
          = lit "  • '" ++ a ++ lit "' | '" ++ b ++ lit "' : "
              ++ str_of_nat c ++ lit " occurrences").
Proof.
  intros Hsort Hl _ (Hn & Hr & Hnk & Hrk).
  set (U := unique_part df n r). set (D := duplicate_part df n r).
  set (groups := Group.groupby_size (col D n) (col D r)).
  exists (length h + 3)%nat, (length h + 6)%nat, (warnings_of sort_values df n r),
    U, D, groups, (take 5 (sort_values groups)).
  cbv zeta. rewrite (clean_inventory_data_run _ _ _ _ _ _ Hl Hn Hr Hnk Hrk).
  cbn [fst snd]. rewrite final_store_unique, final_store_duplicate.
  destruct (normalized_text df n r Hn) as [Tn Tr].
  assert (TDn : Forall is_text (col D n)).
  { unfold D, duplicate_part. rewrite col_part by done. by apply select_text. }
  assert (TDr : Forall is_text (col D r)).
  { unfold D, duplicate_part. rewrite col_part by done. by apply select_text. }
  assert (Hnd : NoDup groups.*1) by (by apply groupby_size_NoDup).
  destruct (top_of_sorted sort_values groups Hsort (NoDup_fmap_1 fst _ Hnd))
    as (T1 & T2 & T3 & T4 & T5).
  split; [done|]. split; [done|]. split; [done|].
  split; [reflexivity|]. split; [done|].
  split; [intros k c; by apply groupby_size_elem|].
  repeat split; try done.
Qed.

Lemma duplicate_groups_reported_witness :
  exists unique_df duplicate_df U D (groups top : list Group.group),
    let out := clean_inventory_data Group.merge_sort_desc 0%nat
                 (lit "designation") (lit "reference") [Examples.sample] in
    out.1 = Ok (unique_df, duplicate_df,
                [ lit "🔄 1 groupes de doublons trouvés"; lit "Top 5 doublons:";
                  lit "  • 'Produit A' | 'REF001' : 2 occurrences" ])
    /\ (out.2 !! unique_df = Some U) /\ (out.2 !! duplicate_df = Some D)
    /\ NoDup groups.*1 /\ length top = Nat.min 5 (length groups)
    /\ Group.descending top.
Proof.
  destruct (duplicate_groups_reported Group.merge_sort_desc [Examples.sample] 0%nat
              Examples.sample (lit "designation") (lit "reference"))
    as (u & d & w & U & D & groups & top & H1 & H2 & H3 & H4 & H5 & H6 & H7 & H8
        & H9 & H10 & H11 & H12).
  - apply merge_sort_desc_sorts.
  - reflexivity.
  - by_computation.
  - by_computation.
  - exists u, d, U, D, groups, top. cbv zeta.
    split; [|exact (conj H2 (conj H3 (conj H5 (conj H7 H10))))].
    rewrite H1. f_equal. f_equal.
    revert H1. vm_compute. intros [= _ _ <-]. reflexivity.
Defined.

(** ** What the duplicate mask tells *)

Lemma count_occ_other (s : Series) i v :
  s !! i = Some v ->
  (1 < count_occ cell_eq_dec s v)%nat <-> exists j, j <> i /\ s !! j = Some v.
Proof.
  intros Hi.
  rewrite <- (take_drop_middle s i v Hi) at 1.
  rewrite count_occ_app, count_occ_cons_eq by done.
  assert (Hin : forall t : Series, (0 < count_occ cell_eq_dec t v)%nat <-> v ∈ t).
  { intros t. rewrite list_elem_of_In. symmetry. apply count_occ_In. }
  split.
  - intros Hc.
    assert (Hor : v ∈ take i s \/ v ∈ drop (S i) s).
    { destruct (decide (0 < count_occ cell_eq_dec (take i s) v)%nat) as [H|H].
      - left. by apply Hin.
      - right. apply Hin. lia. }
    destruct Hor as [H|H].
    + apply elem_of_take in H as (j & Hj & Hlt). exists j. split; [lia|done].
    + apply list_elem_of_lookup in H as (j & Hj). rewrite lookup_drop in Hj.
      exists (S i + j)%nat. split; [lia|done].
  - intros (j & Hne & Hj).
    destruct (decide (j < i)%nat) as [Hlt|Hge].
    + assert (v ∈ take i s) as H%Hin; [|lia].
      apply elem_of_take. by exists j.
    + assert (v ∈ drop (S i) s) as H%Hin; [|lia].
      apply list_elem_of_lookup. exists (j - S i)%nat.
      rewrite lookup_drop. by replace (S i + (j - S i))%nat with j by lia.
Qed.

Lemma duplicated_lookup (s : Series) i v :
  s !! i = Some v ->
  exists b, Series.duplicated s !! i = Some b
            /\ (b = true <-> exists j, j <> i /\ s !! j = Some v).
Proof.
  intros Hi. exists (Nat.ltb 1 (count_occ cell_eq_dec s v)). split.
  - unfold Series.duplicated. by rewrite list_lookup_fmap, Hi.
  - rewrite Nat.ltb_lt. by apply count_occ_other.
Qed.

Lemma select_label {A} (m : list bool) (l : list A) i x :
  NoDup l -> length m = length l -> l !! i = Some x ->
  x ∈ Series.select m l <-> m !! i = Some true.
Proof.
  revert l i. induction m as [|b m IH]; intros [|y l] i Hnd Hlen Hi;
    simpl in *; try done.
  injection Hlen as Hlen. apply NoDup_cons in Hnd as [Hy Hnd].
  destruct i as [|i]; simpl in *.
  - injection Hi as ->. destruct b.
    + split; [done|]. intros _. by left.
    + split; [|done]. intros Hx. by apply select_elem in Hx.
  - assert (x <> y).
    { intros ->. apply Hy. by eapply list_elem_of_lookup_2. }
    destruct b; rewrite ?elem_of_cons, <- (IH l i Hnd Hlen Hi); [|done].
    split; [intros [?|?]; done|by right].
Qed.

(** A row is returned among the duplicates exactly when another row has
    its key. *)
Lemma duplicates_share_a_key df n r i x :
  Frame.wf df -> n ∈ Frame.columns df -> r ∈ Frame.columns df ->
  index df !! i = Some x ->
  x ∈ index (duplicate_part df n r)
  <-> exists j k, j <> i /\ keys df n r !! i = Some k /\ keys df n r !! j = Some k.
Proof.
  intros Hwf Hn Hr Hi.
  pose proof (length_duplicate_mask df n r Hwf Hn Hr) as Lm.
  rewrite index_duplicate_part.
  rewrite (select_label _ _ i x) by (done || apply Hwf).
  assert (is_Some (keys df n r !! i)) as [k Hk].
  { apply lookup_lt_is_Some. unfold duplicate_mask, Series.duplicated in Lm.
    rewrite length_fmap in Lm. rewrite Lm. by eapply lookup_lt_Some. }
  destruct (duplicated_lookup _ _ _ Hk) as (b & Hb & Hiff).
  unfold duplicate_mask. rewrite Hb. split.
  - intros [= ->]. destruct Hiff as [Hex _]. destruct (Hex eq_refl) as (j & ? & ?).
    by exists j, k.
  - intros (j & k' & Hne & Hk' & Hj). f_equal. apply Hiff.
    exists j. split; [done|]. congruence.
Qed.

(** Keys tell pairs apart as long as no name holds the separator. *)
Lemma key_of_injective (a b a' b' : pystr) :
  124 ∉ a -> 124 ∉ a' ->
  key_of (Text a) (Text b) = key_of (Text a') (Text b') -> a = a' /\ b = b'.
Proof.
  unfold key_of. simpl. change (lit "|") with [124].
  intros Ha Ha' [= H]. revert a' Ha' H.
  induction a as [|x a IH]; intros [|y a'] Ha' H; simpl in *.
  - by injection H.
  - injection H as <- _. exfalso. apply Ha'. by left.
  - injection H as -> _. exfalso. apply Ha. by left.
  - injection H as -> H.
    apply not_elem_of_cons in Ha as [_ Ha].
    apply not_elem_of_cons in Ha' as [_ Ha'].
    destruct (IH Ha a' Ha' H) as [-> ->]. done.
Qed.

Lemma keys_lookup df n r i k :
  keys df n r !! i = Some k
  <-> exists a b, col (normalized df n r) n !! i = Some a
                  /\ col (normalized df n r) r !! i = Some b /\ k = key_of a b.
Proof.
  unfold keys. rewrite lookup_zip_with_Some. split.
  - intros (a & b & -> & Ha & Hb). by exists a, b.
  - intros (a & b & Ha & Hb & ->). by exists a, b.
Qed.

(** When no normalized name holds a ["|"], a row is returned among the
    duplicates exactly when another row has its normalized name and its
    normalized reference. *)
Lemma duplicates_share_a_pair df n r i x :
  Frame.wf df -> n ∈ Frame.columns df -> r ∈ Frame.columns df ->
  index df !! i = Some x ->
  (forall a, Text a ∈ col (normalized df n r) n -> 124 ∉ a) ->
  x ∈ index (duplicate_part df n r)
  <-> exists j a b, j <> i
        /\ col (normalized df n r) n !! i = Some a
        /\ col (normalized df n r) r !! i = Some b
        /\ col (normalized df n r) n !! j = Some a
        /\ col (normalized df n r) r !! j = Some b.
Proof.
  intros Hwf Hn Hr Hi Hpipe.
  rewrite (duplicates_share_a_key df n r i x Hwf Hn Hr Hi).
  destruct (normalized_text df n r Hn) as [Tn Tr].
  rewrite Forall_lookup in Tn. rewrite Forall_lookup in Tr.
  split.
  - intros (j & k & Hne & (a & b & Ha & Hb & ->)%keys_lookup
              & (a' & b' & Ha' & Hb' & Hk)%keys_lookup).
    exists j, a, b. split; [done|]. split; [done|]. split; [done|].
    pose proof (Tn _ _ Ha) as Ta. pose proof (Tn _ _ Ha') as Ta'.
    pose proof (Tr _ _ Hb) as Tb. pose proof (Tr _ _ Hb') as Tb'.
    destruct a as [a| | |?], a' as [a'| | |?], b as [b| | |?], b' as [b'| | |?]; try done.
    destruct (key_of_injective a b a' b') as [-> ->]; try done.
    + apply Hpipe. by eapply list_elem_of_lookup_2.
    + apply Hpipe. by eapply list_elem_of_lookup_2.
  - intros (j & a & b & Hne & Ha & Hb & Ha' & Hb').
    exists j, (key_of a b). split; [done|].
    split; apply keys_lookup; by exists a, b.
Qed.

(** C1 (the code against the claim): the rows of [pipes] are
    (["a|b"], ["c"]) and (["a"], ["b|c"]); their normalized pairs differ,
    yet both have the key ["a|b|c"] and the function returns both in the
    table of duplicates and none in the table of unique rows. *)
Theorem pipe_in_values_fakes_duplicates (sort_values : Group.sorter) :
  let out := clean_inventory_data sort_values 0%nat (lit "name") (lit "ref")
               [Examples.pipes] in
  exists unique_df duplicate_df warnings U D,
    out.1 = Ok (unique_df, duplicate_df, warnings)
    /\ (out.2 !! unique_df = Some U) /\ (out.2 !! duplicate_df = Some D)
    /\ index U = [] /\ index D = [0; 1]%nat
    /\ col D (lit "name") = [Text (lit "a|b"); Text (lit "a")]
    /\ col D (lit "ref") = [Text (lit "c"); Text (lit "b|c")]
    /\ keys Examples.pipes (lit "name") (lit "ref")
       = [Text (lit "a|b|c"); Text (lit "a|b|c")].
Proof.
  pose proof (clean_inventory_data_run sort_values [Examples.pipes] 0%nat
                Examples.pipes (lit "name") (lit "ref")) as Hrun.
  cbv zeta. rewrite Hrun; [|reflexivity|by_computation..].
  exists 4%nat, 7%nat, (warnings_of sort_values Examples.pipes (lit "name") (lit "ref")),
    (unique_part Examples.pipes (lit "name") (lit "ref")),
    (duplicate_part Examples.pipes (lit "name") (lit "ref")).
  repeat split; vm_compute; reflexivity.
Qed.

(** ** The examples of the specification *)

Example name_example :
  clean_name_text (lit "  Foo   Bar" ++ [1]) = lit "Foo Bar".
Proof. reflexivity. Qed.

Example sample_is_split (sort_values : Group.sorter) :
  let out := clean_inventory_data sort_values 0%nat
               (lit "designation") (lit "reference") [Examples.sample] in
  (exists warnings, out.1 = Ok (4%nat, 7%nat, warnings))
  /\ index <$> out.2 !! 4%nat = Some [1; 3]%nat
  /\ index <$> out.2 !! 7%nat = Some [0; 2]%nat
  /\ exists q, duplicate_rate 2 4 = Ok q /\ (q == 50)%Q.
Proof.
  cbv zeta.
  rewrite (clean_inventory_data_run sort_values [Examples.sample] 0%nat
             Examples.sample); [|reflexivity|by_computation..].
  split; [by eexists|].
  split; [vm_compute; reflexivity|].
  split; [vm_compute; reflexivity|].
  eexists. split; [reflexivity|]. reflexivity.
Qed.

(** * Further properties of the code *)

(** ** What a call returns, and when *)

Lemma returns_inv sort_values (h : store) l df n r U D w :
  h !! l = Some df -> returns sort_values h l n r U D w ->
  selectable df n r
  /\ U = unique_part df n r /\ D = duplicate_part df n r
  /\ w = warnings_of sort_values df n r.
Proof.
  intros Hl (u & d & Hok & HU & HD).
  destruct (clean_inventory_data_returns _ _ _ _ _ _ _ Hl Hok)
    as (Hn & Hr & Hnk & Hrk).
  rewrite (clean_inventory_data_run _ _ _ _ _ _ Hl Hn Hr Hnk Hrk) in Hok, HU, HD.
  cbn [fst snd] in Hok, HU, HD. injection Hok as <- <- <-.
  rewrite final_store_unique in HU. rewrite final_store_duplicate in HD.
  injection HU as <-. injection HD as <-. done.
Qed.

Lemma returns_intro sort_values (h : store) l df n r :
  h !! l = Some df -> selectable df n r ->
  returns sort_values h l n r (unique_part df n r) (duplicate_part df n r)
    (warnings_of sort_values df n r).
Proof.
  intros Hl (Hn & Hr & Hnk & Hrk).
  exists (length h + 3)%nat, (length h + 6)%nat. cbv zeta.
  rewrite (clean_inventory_data_run _ _ _ _ _ _ Hl Hn Hr Hnk Hrk).
  cbn [fst snd]. by rewrite final_store_unique, final_store_duplicate.
Qed.

(** A concrete call is run to its result. *)
Ltac by_run u d :=
  exists u, d; vm_compute; exact (conj eq_refl (conj eq_refl eq_refl)).

(** X1: A call on a well-formed table returns exactly when both selected
    columns are columns of the table and neither is called [_temp_key]. *)
Theorem call_returns_iff_selection_accepted (sort_values : Group.sorter)
    (h : store) (l : ref) (df : DataFrame) (n r : pystr) :
  h !! l = Some df -> Frame.wf df ->
  (exists U D w, returns sort_values h l n r U D w)
  <-> n ∈ Frame.columns df /\ r ∈ Frame.columns df
      /\ n <> temp_key /\ r <> temp_key.
Proof.
  intros Hl _. split.
  - intros (U & D & w & Hret). by destruct (returns_inv _ _ _ _ _ _ _ _ _ Hl Hret).
  - intros Hsel. eexists _, _, _. by apply returns_intro.
Qed.

Lemma call_returns_iff_selection_accepted_witness :
  exists U D w,
    returns Group.merge_sort_desc [Examples.sample] 0%nat
      (lit "designation") (lit "reference") U D w.
Proof.
  apply (call_returns_iff_selection_accepted Group.merge_sort_desc
           [Examples.sample] 0%nat Examples.sample).
  - reflexivity.
  - by_computation.
  - by_computation.
Defined.

(** X2: When the name or the reference column is the own column
    [_temp_key] of a well-formed table, the call raises
    [KeyError('_temp_key')] (line 72
    overwrites the column, lines 78-79 drop it, line 88 or 90 looks it
    up), and the caller's table is as it was. *)
Theorem selecting_temp_key_raises_key_error (sort_values : Group.sorter)
    (h : store) (l : ref) (df : DataFrame) (n r : pystr) :
  h !! l = Some df -> Frame.wf df ->
  n ∈ Frame.columns df -> r ∈ Frame.columns df ->
  n = temp_key \/ r = temp_key ->
  let out := clean_inventory_data sort_values l n r h in
  out.1 = Raise (KeyError temp_key) /\ out.2 !! l = Some df.
Proof.
  intros Hl _ Hn Hr Hk. cbv zeta.
  rewrite (clean_inventory_data_key_error _ _ _ _ _ _ Hl Hn Hr Hk).
  split; [done|]. unfold final_store. by apply lookup_app_l_Some.
Qed.

Lemma selecting_temp_key_raises_key_error_witness :
  let out := clean_inventory_data Group.merge_sort_desc 0%nat
               (lit "name") (lit "_temp_key") [Examples.with_temp_key] in
  out.1 = Raise (KeyError temp_key) /\ out.2 !! 0%nat = Some Examples.with_temp_key.
Proof.
  apply (selecting_temp_key_raises_key_error Group.merge_sort_desc
           [Examples.with_temp_key] 0%nat Examples.with_temp_key).
  - reflexivity.
  - by_computation.
  - by_computation.
  - by_computation.
  - right. reflexivity.
Defined.

(** ** The rows returned *)

Lemma select_sublist {A} (m : list bool) (l : list A) :
  Series.select m l `sublist_of` l.
Proof.
  revert l. induction m as [|b m IH]; intros [|x l]; simpl;
    try apply sublist_nil_l.
  destruct b; [by apply sublist_skip|by apply sublist_cons].
Qed.

(** X3: The rows of each table returned are rows of the input in the order of
    the input: the labels of each table form a subsequence of the input's
    labels. *)
Theorem row_order_is_kept (sort_values : Group.sorter) (h : store) (l : ref)
    (df : DataFrame) (n r : pystr) (U D : DataFrame) (w : list pystr) :
  h !! l = Some df -> returns sort_values h l n r U D w ->
  index U `sublist_of` index df /\ index D `sublist_of` index df.
Proof.
  intros Hl Hret.
  destruct (returns_inv _ _ _ _ _ _ _ _ _ Hl Hret) as (_ & -> & -> & _).
  rewrite index_unique_part, index_duplicate_part.
  split; apply select_sublist.
Qed.

Lemma row_order_is_kept_witness :
  let n := lit "designation" in
  let r := lit "reference" in
  index (unique_part Examples.sample n r) `sublist_of` index Examples.sample
  /\ index (duplicate_part Examples.sample n r) `sublist_of` index Examples.sample.
Proof.
  apply (row_order_is_kept Group.merge_sort_desc [Examples.sample]
           0%nat Examples.sample (lit "designation") (lit "reference") _ _
           (warnings_of Group.merge_sort_desc Examples.sample
              (lit "designation") (lit "reference"))).
  - reflexivity.
  - by_run 4%nat 7%nat.
Defined.

Lemma select_zip {A B} (m : list bool) (a : list A) (b : list B) :
  Series.select m (zip a b) = zip (Series.select m a) (Series.select m b).
Proof.
  revert a b. induction m as [|x m IH]; intros a b; [by destruct a, b|].
  destruct a as [|u a], b as [|v b]; simpl; try done.
  - destruct x; simpl; [done|]. by destruct (Series.select m a).
  - destruct x; simpl; by rewrite IH.
Qed.

Lemma select_fmap {A B} (f : A -> B) (m : list bool) (l : list A) :
  Series.select m (f <$> l) = f <$> Series.select m l.
Proof.
  revert l. induction m as [|x m IH]; intros [|u l]; simpl; try done.
  destruct x; simpl; [f_equal|]; apply IH.
Qed.

Lemma select_fmap_filter {A} (g : A -> bool) (l : list A) :
  Series.select (g <$> l) l = List.filter g l.
Proof.
  induction l as [|x l IH]; simpl; [done|].
  destruct (g x); [f_equal|]; exact IH.
Qed.

Lemma select_invert_filter {A} (g : A -> bool) (l : list A) :
  Series.select (Series.invert (g <$> l)) l = List.filter (fun v => negb (g v)) l.
Proof.
  unfold Series.invert. rewrite <- list_fmap_compose. apply select_fmap_filter.
Qed.

Lemma col_normalized_name df n r :
  n <> r -> col (normalized df n r) n = norm_name <$> col df n.
Proof.
  intros Hne. unfold normalized. rewrite col_setitem_ne by done.
  unfold names_cleaned. by rewrite col_setitem_same.
Qed.

Lemma col_normalized_ref df n r :
  n <> r -> col (normalized df n r) r = norm_ref <$> col df r.
Proof.
  intros Hne. unfold normalized. rewrite col_setitem_same.
  unfold names_cleaned. by rewrite col_setitem_ne.
Qed.

Lemma col_normalized_same df n :
  col (normalized df n n) n = (fun v => norm_ref (norm_name v)) <$> col df n.
Proof.
  unfold normalized. rewrite col_setitem_same.
  unfold names_cleaned. rewrite col_setitem_same.
  by rewrite <- list_fmap_compose.
Qed.

(** X4: With two different columns selected, every row returned is a row of
    the input with the cleaned name and the cleaned reference of that
    row, under the same label; the rows stand in the order of the input. *)
Theorem rows_carry_the_cleaned_values (sort_values : Group.sorter) (h : store)
    (l : ref) (df : DataFrame) (n r : pystr) (U D : DataFrame) (w : list pystr) :
  h !! l = Some df -> n <> r -> returns sort_values h l n r U D w ->
  let cleaned :=
    zip (index df) (zip (norm_name <$> col df n) (norm_ref <$> col df r)) in
  zip (index U) (zip (col U n) (col U r)) `sublist_of` cleaned
  /\ zip (index D) (zip (col D n) (col D r)) `sublist_of` cleaned.
Proof.
  intros Hl Hne Hret. cbv zeta.
  destruct (returns_inv _ _ _ _ _ _ _ _ _ Hl Hret)
    as ((Hn & Hr & Hnk & Hrk) & -> & -> & _).
  rewrite index_unique_part, index_duplicate_part.
  unfold unique_part, duplicate_part. rewrite !col_part by done.
  rewrite col_normalized_name, col_normalized_ref by done.
  rewrite <- !select_zip. split; apply select_sublist.
Qed.

Lemma rows_carry_the_cleaned_values_witness :
  let n := lit "designation" in
  let r := lit "reference" in
  let U := unique_part Examples.sample n r in
  let D := duplicate_part Examples.sample n r in
  let cleaned :=
    zip (index Examples.sample)
      (zip (norm_name <$> col Examples.sample n) (norm_ref <$> col Examples.sample r)) in
  zip (index U) (zip (col U n) (col U r)) `sublist_of` cleaned
  /\ zip (index D) (zip (col D n) (col D r)) `sublist_of` cleaned.
Proof.
  apply (rows_carry_the_cleaned_values Group.merge_sort_desc [Examples.sample]
           0%nat Examples.sample (lit "designation") (lit "reference") _ _
           (warnings_of Group.merge_sort_desc Examples.sample
              (lit "designation") (lit "reference"))).
  - reflexivity.
  - by_computation.
  - by_run 4%nat 7%nat.
Defined.

(** X5: With one column selected as name and as reference, the call
    returns as well, and the cells returned are the reference cleaning of
    the name cleaning of the input cells, under the labels and in the
    order of the input. *)
Theorem one_column_selected_twice (sort_values : Group.sorter) (h : store)
    (l : ref) (df : DataFrame) (n : pystr) (U D : DataFrame) (w : list pystr) :
  h !! l = Some df -> returns sort_values h l n n U D w ->
  let cleaned :=
    zip (index df) ((fun v => norm_ref (norm_name v)) <$> col df n) in
  zip (index U) (col U n) `sublist_of` cleaned
  /\ zip (index D) (col D n) `sublist_of` cleaned.
Proof.
  intros Hl Hret. cbv zeta.
  destruct (returns_inv _ _ _ _ _ _ _ _ _ Hl Hret)
    as ((Hn & Hr & Hnk & Hrk) & -> & -> & _).
  rewrite index_unique_part, index_duplicate_part.
  unfold unique_part, duplicate_part. rewrite !col_part by done.
  rewrite col_normalized_same.
  rewrite <- !select_zip. split; apply select_sublist.
Qed.

Lemma one_column_selected_twice_witness :
  let n := lit "reference" in
  let U := unique_part Examples.sample n n in
  let D := duplicate_part Examples.sample n n in
  let cleaned :=
    zip (index Examples.sample)
      ((fun v => norm_ref (norm_name v)) <$> col Examples.sample n) in
  zip (index U) (col U n) `sublist_of` cleaned
  /\ zip (index D) (col D n) `sublist_of` cleaned.
Proof.
  apply (one_column_selected_twice Group.merge_sort_desc [Examples.sample]
           0%nat Examples.sample (lit "reference") _ _
           (warnings_of Group.merge_sort_desc Examples.sample
              (lit "reference") (lit "reference"))).
  - reflexivity.
  - by_run 4%nat 7%nat.
Defined.

(** ** Unique rows and duplicate rows *)

Lemma count_occ_filter (g : cell -> bool) (s : Series) (v : cell) :
  count_occ cell_eq_dec (List.filter g s) v
  = if g v then count_occ cell_eq_dec s v else 0%nat.
Proof.
  induction s as [|x s IH]; simpl; [by destruct (g v)|].
  destruct (g x) eqn:Gx; simpl.
  - destruct (cell_eq_dec x v) as [->|Hne]; rewrite IH.
    + by rewrite Gx.
    + done.
  - destruct (cell_eq_dec x v) as [->|Hne]; rewrite IH.
    + by rewrite Gx.
    + done.
Qed.

Lemma filter_elem_true {A} (g : A -> bool) (l : list A) (x : A) :
  x ∈ List.filter g l -> g x = true.
Proof. intros Hx. by apply list_elem_of_In, filter_In in Hx as [_ Hx]. Qed.

(** The keys of the rows that [duplicated(keep=False)] does not mark. *)
Lemma not_duplicated_NoDup (s : Series) :
  NoDup (Series.select (Series.invert (Series.duplicated s)) s).
Proof.
  unfold Series.duplicated. rewrite select_invert_filter.
  apply NoDup_ListNoDup, (NoDup_count_occ cell_eq_dec). intros v.
  rewrite count_occ_filter.
  destruct (Nat.ltb 1 (count_occ cell_eq_dec s v)) eqn:E; simpl; [lia|].
  apply Nat.ltb_ge in E. lia.
Qed.

(** The keys of the rows that it marks. *)
Lemma duplicated_keep_count (s : Series) (v : cell) :
  v ∈ Series.select (Series.duplicated s) s ->
  (1 < count_occ cell_eq_dec (Series.select (Series.duplicated s) s) v)%nat.
Proof.
  unfold Series.duplicated. rewrite select_fmap_filter. intros Hv.
  rewrite count_occ_filter. rewrite (filter_elem_true _ _ _ Hv).
  by apply filter_elem_true, Nat.ltb_lt in Hv.
Qed.

Lemma keys_zip df n r :
  keys df n r
  = uncurry key_of <$> zip (col (normalized df n r) n) (col (normalized df n r) r).
Proof. unfold keys. apply zip_with_zip. Qed.

Lemma part_pairs df n r m :
  selectable df n r ->
  let P := Frame.without temp_key (Frame.mask (keyed df n r) m) in
  zip (col P n) (col P r)
  = Series.select m (zip (col (normalized df n r) n) (col (normalized df n r) r)).
Proof.
  intros (Hn & Hr & Hnk & Hrk). cbv zeta.
  rewrite !col_part by done. by rewrite select_zip.
Qed.

Lemma part_keys df n r m :
  selectable df n r ->
  let P := Frame.without temp_key (Frame.mask (keyed df n r) m) in
  zip_with key_of (col P n) (col P r) = Series.select m (keys df n r).
Proof.
  intros Hsel. cbv zeta. rewrite zip_with_zip, (part_pairs _ _ _ _ Hsel).
  by rewrite keys_zip, select_fmap.
Qed.

Lemma keys_unique_part df n r :
  selectable df n r ->
  zip_with key_of (col (unique_part df n r) n) (col (unique_part df n r) r)
  = Series.select (Series.invert (Series.duplicated (keys df n r))) (keys df n r).
Proof. intros Hsel. unfold unique_part. by rewrite (part_keys _ _ _ _ Hsel). Qed.

Lemma keys_duplicate_part df n r :
  selectable df n r ->
  zip_with key_of (col (duplicate_part df n r) n) (col (duplicate_part df n r) r)
  = Series.select (Series.duplicated (keys df n r)) (keys df n r).
Proof. intros Hsel. unfold duplicate_part. by rewrite (part_keys _ _ _ _ Hsel). Qed.

(** X6: No two rows of the unique table have the same cleaned name and the
    same cleaned reference. *)
Theorem unique_rows_have_distinct_pairs (sort_values : Group.sorter) (h : store)
    (l : ref) (df : DataFrame) (n r : pystr) (U D : DataFrame) (w : list pystr) :
  h !! l = Some df -> returns sort_values h l n r U D w ->
  NoDup (zip (col U n) (col U r)).
Proof.
  intros Hl Hret.
  destruct (returns_inv _ _ _ _ _ _ _ _ _ Hl Hret) as (Hsel & -> & _ & _).
  apply (NoDup_fmap_1 (uncurry key_of)). rewrite <- zip_with_zip.
  rewrite (keys_unique_part _ _ _ Hsel). apply not_duplicated_NoDup.
Qed.

Lemma unique_rows_have_distinct_pairs_witness :
  let n := lit "designation" in
  let r := lit "reference" in
  let U := unique_part Examples.sample n r in
  NoDup (zip (col U n) (col U r)).
Proof.
  apply (unique_rows_have_distinct_pairs Group.merge_sort_desc [Examples.sample]
           0%nat Examples.sample (lit "designation") (lit "reference") _
           (duplicate_part Examples.sample (lit "designation") (lit "reference"))
           (warnings_of Group.merge_sort_desc Examples.sample
              (lit "designation") (lit "reference"))).
  - reflexivity.
  - by_run 4%nat 7%nat.
Defined.

(** X7: The key of a row is the text [name + '|' + ref] of its cleaned cells.
    Every row of the duplicate table has its key in common with another
    row of that table, no key of the unique table is a key of the
    duplicate table, and the duplicate table never has exactly one row. *)
Theorem duplicate_rows_come_in_groups (sort_values : Group.sorter) (h : store)
    (l : ref) (df : DataFrame) (n r : pystr) (U D : DataFrame) (w : list pystr) :
  h !! l = Some df -> Frame.wf df -> returns sort_values h l n r U D w ->
  let key_U := zip_with key_of (col U n) (col U r) in
  let key_D := zip_with key_of (col D n) (col D r) in
  (forall i k, key_D !! i = Some k -> exists j, j <> i /\ key_D !! j = Some k)
  /\ (forall k, k ∈ key_U -> k ∉ key_D)
  /\ Frame.len D <> 1%nat.
Proof.
  intros Hl Hwf Hret. cbv zeta.
  destruct (returns_inv _ _ _ _ _ _ _ _ _ Hl Hret) as (Hsel & -> & -> & _).
  rewrite (keys_unique_part _ _ _ Hsel), (keys_duplicate_part _ _ _ Hsel).
  assert (Hgroup : forall i k,
    Series.select (Series.duplicated (keys df n r)) (keys df n r) !! i = Some k ->
    exists j, j <> i
      /\ Series.select (Series.duplicated (keys df n r)) (keys df n r) !! j = Some k).
  { intros i k Hi. apply (count_occ_other _ _ _ Hi).
    apply duplicated_keep_count. by eapply list_elem_of_lookup_2. }
  split; [exact Hgroup|]. split.
  - intros k HU HD. unfold Series.duplicated in HU, HD.
    rewrite select_invert_filter in HU. rewrite select_fmap_filter in HD.
    apply filter_elem_true in HU. apply filter_elem_true in HD.
    rewrite HD in HU. done.
  - destruct Hsel as (Hn & Hr & _ & _).
    pose proof (length_duplicate_mask df n r Hwf Hn Hr) as Lm.
    assert (Lk : length (keys df n r) = length (index df)).
    { unfold duplicate_mask, Series.duplicated in Lm. by rewrite length_fmap in Lm. }
    unfold Frame.len. rewrite index_duplicate_part. unfold duplicate_mask.
    intros H1.
    assert (Hlen : forall (A B : Type) (m : list bool) (a : list A) (b : list B),
              length a = length b ->
              length (Series.select m a) = length (Series.select m b)).
    { intros A B m. induction m as [|x m IH]; intros [|u a] [|v b] Hab;
        simpl in *; try done.
      injection Hab as Hab. destruct x; simpl; by rewrite (IH a b Hab). }
    rewrite (Hlen _ _ _ _ (keys df n r) (eq_sym Lk)) in H1.
    destruct (Series.select (Series.duplicated (keys df n r)) (keys df n r))
      as [|k [|k' t]] eqn:E; simpl in H1; try done.
    destruct (Hgroup 0%nat k eq_refl) as (j & Hj & Hk).
    destruct j; [done|]. done.
Qed.

Lemma duplicate_rows_come_in_groups_witness :
  let n := lit "designation" in
  let r := lit "reference" in
  let U := unique_part Examples.sample n r in
  let D := duplicate_part Examples.sample n r in
  let key_U := zip_with key_of (col U n) (col U r) in
  let key_D := zip_with key_of (col D n) (col D r) in
  (forall i k, key_D !! i = Some k -> exists j, j <> i /\ key_D !! j = Some k)
  /\ (forall k, k ∈ key_U -> k ∉ key_D)
  /\ Frame.len D <> 1%nat.
Proof.
  apply (duplicate_rows_come_in_groups Group.merge_sort_desc [Examples.sample]
           0%nat Examples.sample (lit "designation") (lit "reference") _ _
           (warnings_of Group.merge_sort_desc Examples.sample
              (lit "designation") (lit "reference"))).
  - reflexivity.
  - by_computation.
  - by_run 4%nat 7%nat.
Defined.

(** X8: With two different columns selected, a row of the input is in the
    duplicate table exactly when another row has the same key, the text
    [name + '|' + ref] of the cleaned cells. *)
Theorem row_is_duplicate_iff_key_shared (sort_values : Group.sorter) (h : store)
    (l : ref) (df : DataFrame) (n r : pystr) (U D : DataFrame) (w : list pystr)
    (i x : nat) :
  h !! l = Some df -> Frame.wf df -> n <> r ->
  returns sort_values h l n r U D w ->
  index df !! i = Some x ->
  let key := zip_with key_of (norm_name <$> col df n) (norm_ref <$> col df r) in
  x ∈ index D <-> exists j k, j <> i /\ key !! i = Some k /\ key !! j = Some k.
Proof.
  intros Hl Hwf Hne Hret Hi. cbv zeta.
  destruct (returns_inv _ _ _ _ _ _ _ _ _ Hl Hret)
    as ((Hn & Hr & _ & _) & _ & -> & _).
  rewrite (duplicates_share_a_key df n r i x Hwf Hn Hr Hi).
  unfold keys. by rewrite col_normalized_name, col_normalized_ref.
Qed.

Lemma row_is_duplicate_iff_key_shared_witness :
  let n := lit "designation" in
  let r := lit "reference" in
  let D := duplicate_part Examples.sample n r in
  let key := zip_with key_of (norm_name <$> col Examples.sample n)
               (norm_ref <$> col Examples.sample r) in
  2%nat ∈ index D
  <-> exists j k, j <> 2%nat /\ key !! 2%nat = Some k /\ key !! j = Some k.
Proof.
  apply (row_is_duplicate_iff_key_shared Group.merge_sort_desc [Examples.sample]
           0%nat Examples.sample (lit "designation") (lit "reference")
           (unique_part Examples.sample (lit "designation") (lit "reference")) _
           (warnings_of Group.merge_sort_desc Examples.sample
              (lit "designation") (lit "reference"))).
  - reflexivity.
  - by_computation.
  - by_computation.
  - by_run 4%nat 7%nat.
  - reflexivity.
Defined.

(** X9: When no cleaned name contains the character ['|'], a row of the
    input is in the duplicate table exactly when another row has the same
    cleaned name and the same cleaned reference. *)
Theorem row_is_duplicate_iff_pair_shared (sort_values : Group.sorter) (h : store)
    (l : ref) (df : DataFrame) (n r : pystr) (U D : DataFrame) (w : list pystr)
    (i x : nat) :
  h !! l = Some df -> Frame.wf df -> n <> r ->
  returns sort_values h l n r U D w ->
  index df !! i = Some x ->
  (forall v, v ∈ col df n -> 124 ∉ clean_name_text (nan_blank (py_str v))) ->
  x ∈ index D
  <-> exists j a b a' b',
        j <> i
        /\ col df n !! i = Some a /\ col df r !! i = Some b
        /\ col df n !! j = Some a' /\ col df r !! j = Some b'
        /\ norm_name a = norm_name a' /\ norm_ref b = norm_ref b'.
Proof.
  intros Hl Hwf Hne Hret Hi Hpipe.
  destruct (returns_inv _ _ _ _ _ _ _ _ _ Hl Hret)
    as ((Hn & Hr & _ & _) & _ & -> & _).
  rewrite (duplicates_share_a_pair df n r i x Hwf Hn Hr Hi).
  2:{ rewrite col_normalized_name by done. intros a Ha.
      apply list_elem_of_fmap in Ha as (v & [= ->] & Hv). by apply Hpipe. }
  rewrite col_normalized_name, col_normalized_ref by done. split.
  - intros (j & a & b & Hj & Ha & Hb & Ha' & Hb').
    apply list_lookup_fmap_Some in Ha as (a0 & -> & Ha).
    apply list_lookup_fmap_Some in Hb as (b0 & -> & Hb).
    apply list_lookup_fmap_Some in Ha' as (a1 & Ea & Ha').
    apply list_lookup_fmap_Some in Hb' as (b1 & Eb & Hb').
    by exists j, a0, b0, a1, b1.
  - intros (j & a & b & a' & b' & Hj & Ha & Hb & Ha' & Hb' & Ea & Eb).
    exists j, (norm_name a), (norm_ref b).
    rewrite !list_lookup_fmap, Ha, Hb, Ha', Hb'. simpl.
    rewrite Ea, Eb. done.
Qed.

Lemma row_is_duplicate_iff_pair_shared_witness :
  let n := lit "designation" in
  let r := lit "reference" in
  let D := duplicate_part Examples.sample n r in
  2%nat ∈ index D
  <-> exists j a b a' b',
        j <> 2%nat
        /\ col Examples.sample n !! 2%nat = Some a
        /\ col Examples.sample r !! 2%nat = Some b
        /\ col Examples.sample n !! j = Some a'
        /\ col Examples.sample r !! j = Some b'
        /\ norm_name a = norm_name a' /\ norm_ref b = norm_ref b'.
Proof.
  apply (row_is_duplicate_iff_pair_shared Group.merge_sort_desc [Examples.sample]
           0%nat Examples.sample (lit "designation") (lit "reference")
           (unique_part Examples.sample (lit "designation") (lit "reference")) _
           (warnings_of Group.merge_sort_desc Examples.sample
              (lit "designation") (lit "reference"))).
  - reflexivity.
  - by_computation.
  - by_computation.
  - by_run 4%nat 7%nat.
  - reflexivity.
  - apply (proj1 (Forall_forall
                    (fun v => 124 ∉ clean_name_text (nan_blank (py_str v))) _)).
    by_computation.
Defined.

(** ** The other columns *)

(** X10: When the table has no column called [_temp_key], both tables returned
    have the columns of the input in the order of the input, and every
    column other than the two selected holds the input cells of the rows
    kept: the mask of line 75 selects labels and cells alike. *)
Theorem other_columns_are_carried_over (sort_values : Group.sorter) (h : store)
    (l : ref) (df : DataFrame) (n r : pystr) (U D : DataFrame) (w : list pystr) :
  h !! l = Some df -> temp_key ∉ Frame.columns df ->
  returns sort_values h l n r U D w ->
  exists duplicate_mask : list bool,
    Frame.columns U = Frame.columns df /\ Frame.columns D = Frame.columns df
    /\ index U = Series.select (Series.invert duplicate_mask) (index df)
    /\ index D = Series.select duplicate_mask (index df)
    /\ forall c, c ∈ Frame.columns df -> c <> n -> c <> r ->
         col U c = Series.select (Series.invert duplicate_mask) (col df c)
         /\ col D c = Series.select duplicate_mask (col df c).
Proof.
  intros Hl Hk Hret.
  destruct (returns_inv _ _ _ _ _ _ _ _ _ Hl Hret)
    as ((Hn & Hr & _ & _) & -> & -> & _).
  destruct (other_columns_kept df n r Hn Hr Hk) as (HU & HD & Hc).
  exists (duplicate_mask df n r).
  rewrite index_unique_part, index_duplicate_part. done.
Qed.

Lemma other_columns_are_carried_over_witness :
  let n := lit "designation" in
  let r := lit "reference" in
  let U := unique_part Examples.sample n r in
  let D := duplicate_part Examples.sample n r in
  exists duplicate_mask : list bool,
    Frame.columns U = Frame.columns Examples.sample
    /\ Frame.columns D = Frame.columns Examples.sample
    /\ index U = Series.select (Series.invert duplicate_mask) (index Examples.sample)
    /\ index D = Series.select duplicate_mask (index Examples.sample)
    /\ forall c, c ∈ Frame.columns Examples.sample -> c <> n -> c <> r ->
         col U c
         = Series.select (Series.invert duplicate_mask) (col Examples.sample c)
         /\ col D c = Series.select duplicate_mask (col Examples.sample c).
Proof.
  apply (other_columns_are_carried_over Group.merge_sort_desc [Examples.sample]
           0%nat Examples.sample (lit "designation") (lit "reference") _ _
           (warnings_of Group.merge_sort_desc Examples.sample
              (lit "designation") (lit "reference"))).
  - reflexivity.
  - by_computation.
  - by_run 4%nat 7%nat.
Defined.

(** ** Exceptions *)

(** X11: A call on a well-formed table raises nothing but the [ValueError]
    of a missing column and the [KeyError] of a selected [_temp_key]: in
    particular the [+] of line 72 never raises a [TypeError], whatever the
    cells of the two columns hold. *)
Theorem no_exception_but_value_error_and_key_error (sort_values : Group.sorter)
    (h : store) (l : ref) (df : DataFrame) (n r : pystr) (e : exn) :
  h !! l = Some df -> Frame.wf df ->
  (clean_inventory_data sort_values l n r h).1 = Raise e ->
  ((n ∉ Frame.columns df) /\ e = ValueError (Msg.missing_column n))
  \/ (n ∈ Frame.columns df /\ (r ∉ Frame.columns df)
      /\ e = ValueError (Msg.missing_column r))
  \/ (n ∈ Frame.columns df /\ r ∈ Frame.columns df
      /\ (n = temp_key \/ r = temp_key) /\ e = KeyError temp_key).
Proof.
  intros Hl _ He.
  destruct (decide (n ∈ Frame.columns df)) as [Hn|Hn].
  2:{ left. split; [done|]. unfold clean_inventory_data in He.
      rewrite bind_run, (columns_run _ _ _ Hl) in He. cbv beta iota in He.
      rewrite (bool_decide_eq_false_2 _ Hn) in He. simpl in He. congruence. }
  destruct (decide (r ∈ Frame.columns df)) as [Hr|Hr].
  2:{ right. left. split; [done|]. split; [done|].
      unfold clean_inventory_data in He.
      rewrite bind_run, (columns_run _ _ _ Hl) in He. cbv beta iota in He.
      rewrite (bool_decide_eq_true_2 _ Hn), (bool_decide_eq_false_2 _ Hr) in He.
      simpl in He. congruence. }
  right. right. split; [done|]. split; [done|].
  destruct (decide (n = temp_key)) as [Hnk|Hnk].
  { rewrite (clean_inventory_data_key_error _ _ _ _ _ _ Hl Hn Hr (or_introl Hnk)) in He.
    simpl in He. split; [by left|congruence]. }
  destruct (decide (r = temp_key)) as [Hrk|Hrk].
  { rewrite (clean_inventory_data_key_error _ _ _ _ _ _ Hl Hn Hr (or_intror Hrk)) in He.
    simpl in He. split; [by right|congruence]. }
  rewrite (clean_inventory_data_run _ _ _ _ _ _ Hl Hn Hr Hnk Hrk) in He.
  simpl in He. discriminate.
Qed.

Lemma no_exception_but_value_error_and_key_error_witness :
  let n := lit "name" in
  let r := lit "_temp_key" in
  ((n ∉ Frame.columns Examples.with_temp_key)
   /\ KeyError temp_key = ValueError (Msg.missing_column n))
  \/ (n ∈ Frame.columns Examples.with_temp_key
      /\ (r ∉ Frame.columns Examples.with_temp_key)
      /\ KeyError temp_key = ValueError (Msg.missing_column r))
  \/ (n ∈ Frame.columns Examples.with_temp_key
      /\ r ∈ Frame.columns Examples.with_temp_key
      /\ (n = temp_key \/ r = temp_key) /\ KeyError temp_key = KeyError temp_key).
Proof.
  apply (no_exception_but_value_error_and_key_error Group.merge_sort_desc
           [Examples.with_temp_key] 0%nat Examples.with_temp_key
           (lit "name") (lit "_temp_key") (KeyError temp_key)).
  - reflexivity.
  - by_computation.
  - vm_compute. reflexivity.
Defined.

(** ** What cleaning does to a text *)













(** ** Normal forms *)

Lemma sub_ws_runs_spaces_only r s : spaces_only (sub_ws_runs r s).
Proof.
  unfold spaces_only. revert r.
  induction s as [|c t IH]; intros r; simpl; [constructor|].
  destruct (isspace c) eqn:E.
  - destruct r; [apply IH|]. constructor; [done|apply IH].
  - constructor; [|apply IH]. intros Hc. congruence.
Qed.

Lemma sub_ws_runs_single r s :
  single_spaced (sub_ws_runs r s) = true
  /\ (r = true -> forall c, head (sub_ws_runs r s) = Some c -> isspace c = false).
Proof.
  revert r. induction s as [|c t IH]; intros r; [done|].
  cbn [sub_ws_runs]. destruct (isspace c) eqn:E.
  - destruct r; [apply IH|]. split; [|done].
    destruct (IH true) as [H1 H2]. cbn [single_spaced]. rewrite H1, andb_true_r.
    destruct (sub_ws_runs true t) as [|b u]; [done|].
    by rewrite (H2 eq_refl b eq_refl), andb_false_r.
  - destruct (IH false) as [H1 _]. split.
    + cbn [single_spaced]. rewrite H1, andb_true_r, E.
      by destruct (sub_ws_runs false t).
    + intros _ x [= <-]. exact E.
Qed.

Lemma sub_ws_runs_fixed r s :
  spaces_only s -> single_spaced s = true ->
  (r = true -> forall c, head s = Some c -> isspace c = false) ->
  sub_ws_runs r s = s.
Proof.
  unfold spaces_only. intros Hs. revert r.
  induction Hs as [|c t Hc Ht IH]; intros r Hsingle Hhead; [done|].
  cbn [single_spaced] in Hsingle. apply andb_true_iff in Hsingle as [Hct Hsingle].
  simpl. destruct (isspace c) eqn:E.
  - destruct r; [by rewrite (Hhead eq_refl c eq_refl) in E|].
    rewrite (Hc eq_refl). f_equal. apply IH; [done|].
    intros _ b Hb. destruct t as [|b' u]; [done|]. injection Hb as ->.
    by destruct (isspace b).
  - f_equal. by apply IH.
Qed.

Lemma clean_name_text_tame_form s :
  tame s -> clean_name_text s = collapse_ws (strip s).
Proof.
  intros Hs. unfold clean_name_text. apply del_control_id.
  apply sub_ws_runs_no_control, tame_Forall, strip_Forall, tame_Forall, Hs.
Qed.

Lemma clean_name_text_normal s :
  tame s ->
  trimmed (clean_name_text s) /\ no_control (clean_name_text s)
  /\ spaces_only (clean_name_text s) /\ single_spaced (clean_name_text s) = true.
Proof.
  intros Hs. split; [|split; [apply del_control_no_control|]];
    rewrite (clean_name_text_tame_form s Hs).
  - apply collapse_ws_trimmed, strip_trimmed.
  - split; [apply sub_ws_runs_spaces_only|apply sub_ws_runs_single].
Qed.

Lemma clean_ref_text_no_control s : no_control (clean_ref_text s).
Proof.
  unfold clean_ref_text. cbv zeta.
  destruct (has_digit _); [apply no_control_fix_oO|]; apply del_control_no_control.
Qed.

Lemma clean_ref_text_trimmed s : tame s -> trimmed (clean_ref_text s).
Proof.
  intros Hs.
  assert (Tb : trimmed (del_control (strip s))).
  { apply del_control_trimmed; [|apply strip_trimmed].
    apply tame_Forall, strip_Forall, tame_Forall, Hs. }
  unfold clean_ref_text. cbv zeta.
  destruct (has_digit _); [|done].
  apply fix_oO_trimmed; [apply del_control_no_control|done].
Qed.

(** X13: For a text whose control characters are all whitespace, the
    cleaned name has no whitespace at its ends, no control character, no
    whitespace but the space U+0020 and no two spaces side by side; the
    cleaned reference has no whitespace at its ends and no control
    character. *)
Theorem tame_values_come_out_normalised (s : pystr) :
  tame s ->
  (trimmed (clean_name_text s) /\ no_control (clean_name_text s)
   /\ spaces_only (clean_name_text s) /\ single_spaced (clean_name_text s) = true)
  /\ trimmed (clean_ref_text s) /\ no_control (clean_ref_text s).
Proof.
  intros Hs. split; [by apply clean_name_text_normal|].
  split; [by apply clean_ref_text_trimmed|apply clean_ref_text_no_control].
Qed.

Lemma tame_values_come_out_normalised_witness :
  let s := lit "  Foo " ++ [9; 160] ++ lit " Bar1o2 " in
  (trimmed (clean_name_text s) /\ no_control (clean_name_text s)
   /\ spaces_only (clean_name_text s) /\ single_spaced (clean_name_text s) = true)
  /\ trimmed (clean_ref_text s) /\ no_control (clean_ref_text s).
Proof.
  apply (tame_values_come_out_normalised (lit "  Foo " ++ [9; 160] ++ lit " Bar1o2 ")).
  vm_compute. reflexivity.
Defined.

Lemma digit_at_has_digit s i : digit_at s i = true -> has_digit s = true.
Proof.
  unfold digit_at, has_digit. destruct (s !! i) as [c|] eqn:E; [|done].
  intros Hc. apply existsb_exists. exists c. split; [|done].
  apply list_elem_of_In. by eapply list_elem_of_lookup_2.
Qed.

Lemma replaced_has_digit s i : replaced s i = true -> has_digit s = true.
Proof.
  unfold replaced, between_digits, at_start, at_end.
  intros [_ H]%andb_true_iff.
  assert (Hb : digit_before s i = true -> has_digit s = true).
  { destruct i as [|j]; [done|]. simpl. apply digit_at_has_digit. }
  apply orb_true_iff in H as [H|[H _]%andb_true_iff]; [|by apply Hb].
  apply orb_true_iff in H as [[H _]%andb_true_iff|[_ H]%andb_true_iff];
    [by apply Hb|by eapply digit_at_has_digit].
Qed.

Lemma fix_oO_fixed_iff s :
  no_control s -> fix_oO s = s <-> forall i, replaced s i = false.
Proof.
  intros Hs. split.
  - intros E i. destruct (replaced s i) eqn:R; [|done]. exfalso.
    pose proof R as R'. unfold replaced, oO_at in R'.
    destruct (s !! i) as [c|] eqn:Hi; [|done].
    apply andb_true_iff in R' as [Hc _].
    pose proof (fix_oO_lookup s i c Hs Hi) as Hf. rewrite E, Hi, R in Hf.
    injection Hf as ->. done.
  - intros H. apply list_eq. intros i.
    destruct (s !! i) as [c|] eqn:Hi.
    + by rewrite (fix_oO_lookup s i c Hs Hi), H.
    + apply lookup_ge_None. rewrite length_fix_oO. by apply lookup_ge_None.
Qed.

Lemma clean_name_text_fixed_iff s :
  clean_name_text s = s
  <-> trimmed s /\ no_control s /\ spaces_only s /\ single_spaced s = true.
Proof.
  split.
  - intros E.
    assert (Hs : tame s).
    { apply no_control_tame. rewrite <- E. apply del_control_no_control. }
    rewrite <- E. by apply clean_name_text_normal.
  - intros (Ht & Hc & Hsp & Hsg). unfold clean_name_text, collapse_ws.
    rewrite (strip_id s Ht), (sub_ws_runs_fixed false s Hsp Hsg) by done.
    by apply del_control_id.
Qed.

Lemma clean_ref_text_fixed_iff s :
  clean_ref_text s = s
  <-> trimmed s /\ no_control s /\ forall i, replaced s i = false.
Proof.
  split.
  - intros E.
    assert (Hc : no_control s) by (rewrite <- E; apply clean_ref_text_no_control).
    assert (Ht : trimmed s).
    { rewrite <- E. by apply clean_ref_text_trimmed, no_control_tame. }
    split; [done|]. split; [done|].
    unfold clean_ref_text in E. cbv zeta in E.
    rewrite (strip_id s Ht), (del_control_id s Hc) in E.
    destruct (has_digit s) eqn:D.
    + by apply fix_oO_fixed_iff.
    + intros i. destruct (replaced s i) eqn:R; [|done].
      apply replaced_has_digit in R. congruence.
  - intros (Ht & Hc & Hr). unfold clean_ref_text. cbv zeta.
    rewrite (strip_id s Ht), (del_control_id s Hc).
    destruct (has_digit s); [by apply fix_oO_fixed_iff|done].
Qed.

(** X14: The texts that cleaning leaves as they are. A name: no whitespace at
    its ends, no control character, no whitespace but U+0020, no two
    spaces side by side. A reference: no whitespace at its ends, no
    control character, and no [o] or [O] in one of the three places of
    lines 64-66. *)
Theorem texts_that_cleaning_leaves_unchanged (s : pystr) :
  (clean_name_text s = s
   <-> trimmed s /\ no_control s /\ spaces_only s /\ single_spaced s = true)
  /\ (clean_ref_text s = s
      <-> trimmed s /\ no_control s /\ forall i, replaced s i = false).
Proof. split; [apply clean_name_text_fixed_iff|apply clean_ref_text_fixed_iff]. Qed.

(** ** Integer cells *)

Lemma digits_range d : Forall (fun c => 48 <= c <= 57) (digits d).
Proof. induction d; simpl; constructor; (lia || done). Qed.

Lemma str_of_Z_range z : Forall (fun c => c = 45 \/ 48 <= c <= 57) (str_of_Z z).
Proof.
  assert (H : forall d, Forall (fun c => c = 45 \/ 48 <= c <= 57) (digits d)).
  { intros d. eapply Forall_impl; [apply digits_range|]. intros c Hc. by right. }
  destruct z as [|p|p]; [apply H|apply H|].
  change (str_of_Z (Z.neg p)) with (45 :: digits (Pos.to_uint p)).
  constructor; [by left|apply H].
Qed.

Lemma sign_or_digit_plain c :
  c = 45 \/ 48 <= c <= 57 ->
  isspace c = false /\ is_control c = false /\ is_oO c = false /\ c <> 110.
Proof.
  intros H.
  assert (Hc : c ∈ [45; 48; 49; 50; 51; 52; 53; 54; 55; 56; 57]).
  { destruct H as [->|H]; [by left|].
    assert (E : c = 48 \/ c = 49 \/ c = 50 \/ c = 51 \/ c = 52 \/ c = 53
                \/ c = 54 \/ c = 55 \/ c = 56 \/ c = 57) by lia.
    rewrite !elem_of_cons. tauto. }
  repeat (apply elem_of_cons in Hc as [->|Hc]; [by vm_compute|]).
  by apply elem_of_nil in Hc.
Qed.

Lemma plain_text_unchanged s :
  Forall (fun c => isspace c = false /\ is_control c = false
                   /\ is_oO c = false /\ c <> 110) s ->
  nan_blank s = s /\ clean_name_text s = s /\ clean_ref_text s = s.
Proof.
  intros Hs.
  assert (Ht : trimmed s).
  { rewrite Forall_forall in Hs. split; intros c Hc.
    - apply (Hs c). destruct s; [done|]. injection Hc as ->. by left.
    - apply (Hs c). apply last_Some in Hc as [l' ->].
      apply elem_of_app. right. by left. }
  assert (Hc : no_control s).
  { eapply Forall_impl; [exact Hs|]. by intros c (_ & H & _). }
  split; [|split].
  - unfold nan_blank. destruct (decide (s = lit "nan")) as [->|]; [|done].
    apply Forall_cons_1 in Hs as [(_ & _ & _ & H) _]. done.
  - apply clean_name_text_fixed_iff. split; [done|]. split; [done|]. split.
    + eapply Forall_impl; [exact Hs|]. intros c (H & _) Hc'. congruence.
    + clear Ht Hc. induction Hs as [|c t (Hc & _) _ IH]; [done|].
      cbn [single_spaced]. rewrite IH, Hc. by destruct t.
  - apply clean_ref_text_fixed_iff. split; [done|]. split; [done|].
    intros i. unfold replaced, oO_at.
    destruct (s !! i) as [c|] eqn:Hi; [|done].
    rewrite Forall_lookup in Hs. destruct (Hs i c Hi) as (_ & _ & H & _).
    by rewrite H.
Qed.

(** X15: An integer cell comes out of both cleanings as its decimal text, and
    is never counted among the cleaned names or the corrected
    references. *)
Theorem integer_cells_keep_their_decimal_text (z : Z) :
  norm_name (Int z) = Text (str_of_Z z)
  /\ norm_ref (Int z) = Text (str_of_Z z)
  /\ Series.cell_ne (Text (py_str (Int z))) (norm_name (Int z)) = false
  /\ Series.cell_ne (Text (py_str (Int z))) (norm_ref (Int z)) = false.
Proof.
  assert (Hp : nan_blank (str_of_Z z) = str_of_Z z
               /\ clean_name_text (str_of_Z z) = str_of_Z z
               /\ clean_ref_text (str_of_Z z) = str_of_Z z).
  { apply plain_text_unchanged.
    eapply Forall_impl; [apply str_of_Z_range|]. apply sign_or_digit_plain. }
  destruct Hp as (E0 & E1 & E2).
  unfold norm_name, norm_ref. simpl py_str. rewrite E0, E1, E2.
  repeat split; simpl; by rewrite bool_decide_eq_true_2.
Qed.

(** ** The cells of the tables returned *)

Lemma normalized_cells df n r c :
  c = n \/ c = r ->
  Forall (fun v => exists s, v = Text s /\ no_control s) (col (normalized df n r) c).
Proof.
  intros Hc.
  assert (Hr : Forall (fun v => exists s, v = Text s /\ no_control s)
                 (col (normalized df n r) r)).
  { unfold normalized. rewrite col_setitem_same. apply Forall_fmap, Forall_forall.
    intros v _. eexists. split; [done|]. apply clean_ref_text_no_control. }
  destruct (decide (c = r)) as [->|Hne]; [done|].
  destruct Hc as [->|Hc]; [|done].
  rewrite col_normalized_name by done. apply Forall_fmap, Forall_forall.
  intros v _. eexists. split; [done|]. apply del_control_no_control.
Qed.

Lemma isna_text (s : Series) :
  Forall (fun v => exists t, v = Text t /\ no_control t) s ->
  Series.sum (Series.isna s) = 0%nat.
Proof.
  unfold Series.sum, Series.isna.
  induction 1 as [|v s (t & -> & _) _ IH]; [done|]. exact IH.
Qed.

(** X16: Every cell of the two selected columns of the tables returned is a
    text without control characters; none is a missing value, so the
    [isna()] tests of lines 89 and 91 never count a cell. *)
Theorem returned_cells_are_text_without_control_characters
    (sort_values : Group.sorter) (h : store) (l : ref) (df : DataFrame)
    (n r : pystr) (U D : DataFrame) (w : list pystr) :
  h !! l = Some df -> returns sort_values h l n r U D w ->
  (forall c v, c = n \/ c = r -> v ∈ col U c \/ v ∈ col D c ->
     exists s, v = Text s /\ no_control s)
  /\ Series.sum (Series.isna (col U n)) = 0%nat
  /\ Series.sum (Series.isna (col U r)) = 0%nat.
Proof.
  intros Hl Hret.
  destruct (returns_inv _ _ _ _ _ _ _ _ _ Hl Hret)
    as ((Hn & Hr & Hnk & Hrk) & -> & -> & _).
  assert (Hin : forall c, c = n \/ c = r -> c <> temp_key /\ c ∈ Frame.columns df).
  { intros c [->| ->]; done. }
  assert (Hcells : forall m c, c = n \/ c = r ->
            Forall (fun v => exists s, v = Text s /\ no_control s)
              (col (Frame.without temp_key (Frame.mask (keyed df n r) m)) c)).
  { intros m c Hc. destruct (Hin c Hc) as [Hck Hcc].
    rewrite col_part by done. apply Forall_forall. intros v Hv.
    pose proof (normalized_cells df n r c Hc) as Hall.
    rewrite Forall_forall in Hall. by eapply Hall, select_elem. }
  split; [|split].
  - intros c v Hc [Hv|Hv];
      [pose proof (Hcells (Series.invert (duplicate_mask df n r)) c Hc) as Hall
      |pose proof (Hcells (duplicate_mask df n r) c Hc) as Hall];
      rewrite Forall_forall in Hall; by apply Hall.
  - apply isna_text, Hcells. by left.
  - apply isna_text, Hcells. by right.
Qed.

Lemma returned_cells_are_text_without_control_characters_witness :
  let n := lit "designation" in
  let r := lit "reference" in
  let U := unique_part Examples.sample n r in
  let D := duplicate_part Examples.sample n r in
  (forall c v, c = n \/ c = r -> v ∈ col U c \/ v ∈ col D c ->
     exists s, v = Text s /\ no_control s)
  /\ Series.sum (Series.isna (col U n)) = 0%nat
  /\ Series.sum (Series.isna (col U r)) = 0%nat.
Proof.
  apply (returned_cells_are_text_without_control_characters
           Group.merge_sort_desc [Examples.sample]
           0%nat Examples.sample (lit "designation") (lit "reference") _ _
           (warnings_of Group.merge_sort_desc Examples.sample
              (lit "designation") (lit "reference"))).
  - reflexivity.
  - by_run 4%nat 7%nat.
Defined.

(** ** The two counts of the warnings *)

Lemma changed_zero_iff (f : cell -> pystr) (s : Series) :
  changed s ((fun v => Text (f v)) <$> s) = 0%nat
  <-> forall v, v ∈ s -> f v = py_str v.
Proof.
  unfold changed, Series.sum, Series.ne, Series.astype_str.
  induction s as [|x s IH].
  - split; [by intros _ v ?%elem_of_nil|done].
  - rewrite !fmap_cons. cbn [zip_with List.filter].
    unfold Series.cell_ne at 1.
    destruct (decide (f x = py_str x)) as [E|E].
    + rewrite bool_decide_eq_true_2 by (by rewrite E). cbn [negb id].
      rewrite IH. split.
      * intros H v [->|Hv]%elem_of_cons; [done|by apply H].
      * intros H v Hv. apply H. by right.
    + rewrite bool_decide_eq_false_2 by congruence. cbn [negb id length].
      split; [done|]. intros H. exfalso. apply E, H. by left.
Qed.

Lemma nan_text_changes (f : pystr -> pystr) (t : pystr) :
  f (lit "") = lit "" ->
  f (nan_blank t) = t <-> t <> lit "nan" /\ f t = t.
Proof.
  intros Hf. unfold nan_blank. destruct (decide (t = lit "nan")) as [->|Hne].
  - rewrite Hf. split; [intros [=]|by intros [? _]].
  - split; [done|by intros [_ ?]].
Qed.

Lemma changed_count (f : cell -> pystr) (s : Series) :
  changed s ((fun v => Text (f v)) <$> s)
  = length (List.filter (fun v => negb (bool_decide (f v = py_str v))) s).
Proof.
  unfold changed, Series.sum, Series.ne, Series.astype_str.
  induction s as [|x s IH]; [done|].
  rewrite !fmap_cons. cbn [zip_with List.filter].
  unfold Series.cell_ne at 1.
  destruct (decide (f x = py_str x)) as [E|E].
  - rewrite !bool_decide_eq_true_2 by (done || by rewrite E). cbn [negb id].
    exact IH.
  - rewrite !bool_decide_eq_false_2 by congruence. cbn [negb id length].
    f_equal. exact IH.
Qed.

(** X17: run on a well-formed table, the name block returns as
    [names_changed] the number of cells of the column whose text is
    ['nan'] or is changed by the name cleaning, and the reference block
    returns as [refs_changed] the number of cells whose text is ['nan'] or
    is changed by the reference cleaning. Each count is 0 exactly when the
    text of every cell is other than ['nan'] and is left unchanged. *)
Theorem nothing_counted_iff_every_cell_is_clean (H : store) (l : ref)
    (c : DataFrame) (n : pystr) (s : Series) :
  (l < length H)%nat -> Frame.wf c -> Frame.assoc n (data c) = Some s ->
  (exists names_changed : nat,
     (clean_names l n (<[l := c]> H)).1 = Ok names_changed
     /\ names_changed
        = length (List.filter
                    (fun v => bool_decide (py_str v = lit "nan")
                              || negb (bool_decide
                                         (clean_name_text (py_str v) = py_str v)))
                    s)
     /\ (names_changed = 0%nat
         <-> forall v, v ∈ s ->
               py_str v <> lit "nan" /\ clean_name_text (py_str v) = py_str v))
  /\ (exists refs_changed : nat,
        (clean_refs l n (<[l := c]> H)).1 = Ok refs_changed
        /\ refs_changed
           = length (List.filter
                       (fun v => bool_decide (py_str v = lit "nan")
                                 || negb (bool_decide
                                            (clean_ref_text (py_str v) = py_str v)))
                       s)
        /\ (refs_changed = 0%nat
            <-> forall v, v ∈ s ->
                  py_str v <> lit "nan" /\ clean_ref_text (py_str v) = py_str v)).
Proof.
  intros Hl _ Hs.
  assert (Hfilter : forall f : pystr -> pystr, f (lit "") = lit "" ->
    List.filter (fun v => negb (bool_decide (f (nan_blank (py_str v)) = py_str v))) s
    = List.filter (fun v => bool_decide (py_str v = lit "nan")
                            || negb (bool_decide (f (py_str v) = py_str v))) s).
  { intros f Hf. apply List.filter_ext. intros v. unfold nan_blank.
    destruct (decide (py_str v = lit "nan")) as [E|E].
    - rewrite (bool_decide_eq_true_2 _ E), Hf, E. reflexivity.
    - by rewrite (bool_decide_eq_false_2 _ E). }
  split.
  - exists (changed s (norm_name <$> s)).
    rewrite (clean_names_run _ _ _ _ _ Hl Hs). split; [done|]. split.
    + rewrite <- (Hfilter clean_name_text eq_refl).
      apply (changed_count (fun v => clean_name_text (nan_blank (py_str v)))).
    + rewrite (changed_zero_iff (fun v => clean_name_text (nan_blank (py_str v)))).
      split; intros Hall v Hv; apply nan_text_changes; try reflexivity;
        by apply Hall.
  - exists (changed s (norm_ref <$> s)).
    rewrite (clean_refs_run _ _ _ _ _ Hl Hs). split; [done|]. split.
    + rewrite <- (Hfilter clean_ref_text eq_refl).
      apply (changed_count (fun v => clean_ref_text (nan_blank (py_str v)))).
    + rewrite (changed_zero_iff (fun v => clean_ref_text (nan_blank (py_str v)))).
      split; intros Hall v Hv; apply nan_text_changes; try reflexivity;
        by apply Hall.
Qed.

Lemma nothing_counted_iff_every_cell_is_clean_witness :
  let s := [Text (lit " A  b "); NaN; Text (lit "B1"); Int 12; Null PyNone] in
  let c := mkDataFrame [0; 1; 2; 3; 4]%nat [(lit "x", s)] in
  (clean_names 0%nat (lit "x") (<[0%nat := c]> [c])).1 = Ok 2%nat
  /\ (clean_refs 0%nat (lit "x") (<[0%nat := c]> [c])).1 = Ok 2%nat.
Proof.
  intros s c.
  destruct (nothing_counted_iff_every_cell_is_clean [c] 0%nat c (lit "x") s)
    as ((k & Hk & Ek & _) & (k' & Hk' & Ek' & _)).
  - simpl. lia.
  - by_computation.
  - reflexivity.
  - rewrite Hk, Hk', Ek, Ek'. split; vm_compute; reflexivity.
Defined.

(** ** The figures of [main] *)

Lemma duplicate_rate_bounds (d n : nat) :
  (d <= n)%nat ->
  exists q, duplicate_rate d n = Ok q /\ (0 <= q)%Q /\ (q <= 100)%Q.
Proof.
  intros Hdn. unfold duplicate_rate, py_truediv.
  destruct n as [|k]; simpl.
  - exists 0%Q. split; [done|]. split; [apply Qle_refl|done].
  - eexists. split; [done|].
    assert (E : Z.pos (Pos.of_succ_nat k) = Z.of_nat (S k)).
    { by rewrite Zpos_P_of_succ_nat, Nat2Z.inj_succ. }
    change (match k with O => 1%positive | S _ => Pos.succ (Pos.of_nat k) end)
      with (Pos.of_nat (S k)).
    rewrite <- Pos.of_nat_succ.
    unfold Qle, Qmult. cbn [Qnum Qden]. rewrite Pos2Z.inj_mul, E. split; nia.
Qed.

Lemma length_select_same {A B} (m : list bool) (a : list A) (b : list B) :
  length a = length b ->
  length (Series.select m a) = length (Series.select m b).
Proof.
  revert a b. induction m as [|x m IH]; intros [|u a] [|v b] Hab;
    simpl in *; try done.
  injection Hab as Hab. destruct x; simpl; by rewrite (IH a b Hab).
Qed.

(** X18: For a well-formed table, the duplicate rate that [main] computes from
    the tables returned is never a [ZeroDivisionError] and lies between 0
    and 100, and the chart of line 231 is drawn exactly when the input has
    a row. *)
Theorem duplicate_rate_is_a_percentage (sort_values : Group.sorter) (h : store)
    (l : ref) (df : DataFrame) (n r : pystr) (U D : DataFrame) (w : list pystr) :
  h !! l = Some df -> Frame.wf df -> returns sort_values h l n r U D w ->
  (exists q, duplicate_rate (Frame.len D) (Frame.len df) = Ok q
             /\ (0 <= q)%Q /\ (q <= 100)%Q)
  /\ (chart_shown (Frame.len U) (Frame.len D) = true <-> (0 < Frame.len df)%nat).
Proof.
  intros Hl Hwf Hret.
  destruct (returns_inv _ _ _ _ _ _ _ _ _ Hl Hret)
    as ((Hn & Hr & _ & _) & -> & -> & _).
  pose proof (length_duplicate_mask df n r Hwf Hn Hr) as Lm.
  pose proof (select_split (duplicate_mask df n r) (index df) Lm) as Hsum.
  unfold Frame.len. rewrite index_unique_part, index_duplicate_part.
  split.
  - apply duplicate_rate_bounds. lia.
  - unfold chart_shown. rewrite orb_true_iff, !Nat.ltb_lt. lia.
Qed.

Lemma duplicate_rate_is_a_percentage_witness :
  let n := lit "designation" in
  let r := lit "reference" in
  let U := unique_part Examples.sample n r in
  let D := duplicate_part Examples.sample n r in
  (exists q, duplicate_rate (Frame.len D) (Frame.len Examples.sample) = Ok q
             /\ (0 <= q)%Q /\ (q <= 100)%Q)
  /\ (chart_shown (Frame.len U) (Frame.len D) = true
      <-> (0 < Frame.len Examples.sample)%nat).
Proof.
  apply (duplicate_rate_is_a_percentage Group.merge_sort_desc [Examples.sample]
           0%nat Examples.sample (lit "designation") (lit "reference") _ _
           (warnings_of Group.merge_sort_desc Examples.sample
              (lit "designation") (lit "reference"))).
  - reflexivity.
  - by_computation.
  - by_run 4%nat 7%nat.
Defined.

(** ** The groups of the report *)

Section Counting.
Context {A : Type} (dec : forall x y : A, {x = y} + {x <> y}).

Lemma sum_count_occ_nil (ks : list A) :
  sum_list (count_occ dec [] <$> ks) = 0%nat.
Proof. induction ks as [|k ks IH]; [done|]. rewrite fmap_cons. exact IH. Qed.

Lemma sum_count_occ_notin (x : A) (l ks : list A) :
  x ∉ ks ->
  sum_list (count_occ dec (x :: l) <$> ks) = sum_list (count_occ dec l <$> ks).
Proof.
  induction ks as [|k ks IH]; [done|]. intros Hx.
  apply not_elem_of_cons in Hx as [Hxk Hx]. rewrite !fmap_cons.
  cbn [sum_list_with id]. rewrite (IH Hx).
  by rewrite count_occ_cons_neq.
Qed.

Lemma sum_count_occ_in (x : A) (l ks : list A) :
  NoDup ks -> x ∈ ks ->
  sum_list (count_occ dec (x :: l) <$> ks)
  = S (sum_list (count_occ dec l <$> ks)).
Proof.
  induction 1 as [|k ks Hk Hnd IH]; [by intros ?%elem_of_nil|].
  intros Hx. rewrite !fmap_cons. cbn [sum_list_with id].
  destruct (dec x k) as [->|Hne].
  - rewrite (sum_count_occ_notin k l ks Hk).
    by rewrite count_occ_cons_eq.
  - apply elem_of_cons in Hx as [->|Hx]; [done|].
    rewrite (IH Hx). rewrite count_occ_cons_neq by done. lia.
Qed.

Lemma sum_count_occ (l ks : list A) :
  NoDup ks -> (forall x, x ∈ l -> x ∈ ks) ->
  sum_list (count_occ dec l <$> ks) = length l.
Proof.
  intros Hnd. induction l as [|x l IH]; intros Hin.
  - apply sum_count_occ_nil.
  - rewrite (sum_count_occ_in x l ks Hnd) by (apply Hin; by left).
    simpl. f_equal. apply IH. intros y Hy. apply Hin. by right.
Qed.

Lemma count_occ_twice (l : list A) (i j : nat) (v : A) :
  i <> j -> l !! i = Some v -> l !! j = Some v ->
  (2 <= count_occ dec l v)%nat.
Proof.
  assert (Hone : forall t : list A, v ∈ t -> (1 <= count_occ dec t v)%nat).
  { intros t Ht. apply count_occ_In. by apply list_elem_of_In. }
  revert i j. induction l as [|x l IH]; intros i j Hij Hi Hj; [done|].
  destruct i as [|i], j as [|j]; simpl in *; try done.
  - injection Hi as ->.
    pose proof (Hone l (list_elem_of_lookup_2 _ _ _ Hj)).
    destruct (dec v v); [lia|done].
  - injection Hj as ->.
    pose proof (Hone l (list_elem_of_lookup_2 _ _ _ Hi)).
    destruct (dec v v); [lia|done].
  - assert (Hij' : i <> j) by lia. pose proof (IH i j Hij' Hi Hj).
    destruct (dec x v); lia.
Qed.

End Counting.

Lemma part_text df n r m :
  selectable df n r ->
  let P := Frame.without temp_key (Frame.mask (keyed df n r) m) in
  Forall is_text (col P n) /\ Forall is_text (col P r).
Proof.
  intros (Hn & Hr & Hnk & Hrk). cbv zeta. rewrite !col_part by done.
  destruct (normalized_text df n r Hn) as [Tn Tr].
  split; by apply select_text.
Qed.

(** X19: The sizes of the groups of line 99 add up to the number of rows of
    the duplicate table and no group is empty. When no cleaned name
    contains ['|'], every group has at least two rows; otherwise a group
    of one row is possible, since rows with different pairs can share a
    key. *)
Theorem duplicate_group_sizes (sort_values : Group.sorter) (h : store)
    (l : ref) (df : DataFrame) (n r : pystr) (U D : DataFrame) (w : list pystr) :
  h !! l = Some df -> Frame.wf df -> n <> r ->
  returns sort_values h l n r U D w ->
  let groups := Group.groupby_size (col D n) (col D r) in
  sum_list groups.*2 = Frame.len D
  /\ (forall g, g ∈ groups -> (1 <= g.2)%nat)
  /\ ((forall v, v ∈ col df n -> 124 ∉ clean_name_text (nan_blank (py_str v))) ->
      forall g, g ∈ groups -> (2 <= g.2)%nat).
Proof.
  intros Hl Hwf Hne Hret. cbv zeta.
  destruct (returns_inv _ _ _ _ _ _ _ _ _ Hl Hret) as (Hsel & _ & -> & _).
  pose proof Hsel as (Hn & Hr & Hnk & Hrk).
  destruct (part_text df n r (duplicate_mask df n r) Hsel) as [Tn Tr].
  fold (duplicate_part df n r) in Tn, Tr.
  set (dn := col (duplicate_part df n r) n) in *.
  set (dr := col (duplicate_part df n r) r) in *.
  assert (Hlen : length (zip dn dr) = Frame.len (duplicate_part df n r)).
  { unfold dn, dr, duplicate_part. rewrite (part_pairs _ _ _ _ Hsel).
    unfold Frame.len. cbn [index Frame.without Frame.mask].
    apply length_select_same. rewrite length_zip_with.
    rewrite !length_normalized_col by done. unfold Frame.len.
    change (index (keyed df n r)) with (index df). lia. }
  split; [|split].
  - rewrite <- Hlen. rewrite groupby_size_text by done.
    rewrite <- list_fmap_compose.
    rewrite (list_fmap_ext _ (count_occ Group.key_eq_dec (zip dn dr)));
      [|by intros].
    rewrite merge_sort_Permutation.
    apply sum_count_occ; [apply NoDup_remove_dups|].
    intros x Hx. by apply elem_of_remove_dups.
  - intros [k c] (Hk & ->)%groupby_size_elem; [|done..]. simpl.
    apply count_occ_In. by apply list_elem_of_In.
  - intros Hpipe [k c] (Hk & ->)%groupby_size_elem; [|done..]. simpl.
    apply list_elem_of_lookup in Hk as [i Hi].
    pose proof (keys_duplicate_part df n r Hsel) as HK. fold dn dr in HK.
    assert (Hki : zip_with key_of dn dr !! i = Some (uncurry key_of k)).
    { by rewrite zip_with_zip, list_lookup_fmap, Hi. }
    rewrite HK in Hki.
    assert (Hj : exists j, j <> i
              /\ Series.select (Series.duplicated (keys df n r)) (keys df n r) !! j
                 = Some (uncurry key_of k)).
    { apply (count_occ_other _ _ _ Hki). apply duplicated_keep_count.
      by eapply list_elem_of_lookup_2. }
    destruct Hj as (j & Hji & Hkj). rewrite <- HK in Hkj.
    rewrite zip_with_zip in Hkj.
    apply list_lookup_fmap_Some in Hkj as (k' & Ek & Hj).
    assert (Hname : forall a b, (Text a, b) ∈ zip dn dr -> 124 ∉ a).
    { intros a b Hab. apply elem_of_zip_l in Hab. unfold dn, duplicate_part in Hab.
      rewrite col_part in Hab by done. apply select_elem in Hab.
      rewrite col_normalized_name in Hab by done.
      apply list_elem_of_fmap in Hab as (v & [= ->] & Hv). by apply Hpipe. }
    assert (Htext : forall p, p ∈ zip dn dr -> is_text p.1 /\ is_text p.2).
    { intros [a b] Hab. rewrite Forall_forall in Tn. rewrite Forall_forall in Tr.
      split; [by eapply Tn, elem_of_zip_l|by eapply Tr, elem_of_zip_r]. }
    pose proof (list_elem_of_lookup_2 _ _ _ Hi) as Hin.
    pose proof (list_elem_of_lookup_2 _ _ _ Hj) as Hin'.
    destruct k as [a b], k' as [a' b'].
    destruct (Htext _ Hin) as [Ta Tb]. destruct (Htext _ Hin') as [Ta' Tb'].
    destruct a as [a| | |?], b as [b| | |?], a' as [a'| | |?], b' as [b'| | |?];
      simpl in Ta, Tb, Ta', Tb'; try done.
    simpl in Ek.
    destruct (key_of_injective a b a' b') as [-> ->];
      [by eapply Hname|by eapply Hname|done|].
    by apply (count_occ_twice Group.key_eq_dec _ i j).
Qed.

Lemma duplicate_group_sizes_witness :
  let n := lit "designation" in
  let r := lit "reference" in
  let D := duplicate_part Examples.sample n r in
  let groups := Group.groupby_size (col D n) (col D r) in
  sum_list groups.*2 = Frame.len D
  /\ (forall g, g ∈ groups -> (1 <= g.2)%nat)
  /\ ((forall v, v ∈ col Examples.sample n ->
         124 ∉ clean_name_text (nan_blank (py_str v))) ->
      forall g, g ∈ groups -> (2 <= g.2)%nat).
Proof.
  apply (duplicate_group_sizes Group.merge_sort_desc [Examples.sample]
           0%nat Examples.sample (lit "designation") (lit "reference")
           (unique_part Examples.sample (lit "designation") (lit "reference")) _
           (warnings_of Group.merge_sort_desc Examples.sample
              (lit "designation") (lit "reference"))).
  - reflexivity.
  - by_computation.
  - by_computation.
  - by_run 4%nat 7%nat.
Defined.

(** ** A table that is clean already *)

Lemma assoc_set_id c s cols :
  Frame.assoc c cols = Some s -> Frame.assoc_set c s cols = cols.
Proof.
  induction cols as [|[x s'] cols IH]; simpl; [done|].
  destruct (decide (x = c)) as [->|Hx]; [by intros [= ->]|].
  intros H. f_equal. by apply IH.
Qed.

Lemma assoc_set_notin c s cols :
  c ∉ cols.*1 -> Frame.assoc_set c s cols = cols ++ [(c, s)].
Proof.
  induction cols as [|[x s'] cols IH]; simpl; [done|].
  rewrite not_elem_of_cons. intros [Hx Hc].
  rewrite decide_False by done. f_equal. by apply IH.
Qed.

Lemma setitem_col_same d c :
  c ∈ Frame.columns d -> Frame.setitem d c (col d c) = d.
Proof.
  intros Hc. destruct d as [ix dat]. unfold Frame.setitem. simpl. f_equal.
  apply assoc_set_id. by apply (col_assoc_in (mkDataFrame ix dat)).
Qed.

Lemma fmap_fixed {A} (f : A -> A) (l : list A) :
  (forall v, v ∈ l -> f v = v) -> f <$> l = l.
Proof.
  intros H. rewrite <- (list_fmap_id l) at 2. apply list_fmap_ext.
  intros i x Hx. apply H. by eapply list_elem_of_lookup_2.
Qed.

Lemma duplicated_NoDup (s : Series) :
  NoDup s -> Series.duplicated s = (fun _ => false) <$> s.
Proof.
  intros Hs. unfold Series.duplicated. apply list_fmap_ext. intros i x _.
  apply Nat.ltb_ge. by apply (NoDup_count_occ cell_eq_dec), NoDup_ListNoDup.
Qed.

Lemma select_all {A B} (k : list B) (l : list A) :
  (length l <= length k)%nat -> Series.select ((fun _ => true) <$> k) l = l.
Proof.
  revert l. induction k as [|x k IH]; intros [|y l] Hlen; simpl in *;
    try done; try lia.
  f_equal. apply IH. lia.
Qed.

Lemma select_none {A B} (k : list B) (l : list A) :
  Series.select ((fun _ => false) <$> k) l = [].
Proof.
  revert l. induction k as [|x k IH]; intros [|y l]; simpl; done.
Qed.

Lemma filter_data_absent (c : pystr) (cols : list (pystr * Series)) :
  c ∉ cols.*1 ->
  List.filter (fun p => negb (bool_decide (p.1 = c))) cols = cols.
Proof.
  induction cols as [|[x s] cols IH]; simpl; [done|].
  rewrite not_elem_of_cons. intros [Hx Hc].
  rewrite bool_decide_eq_false_2 by done. simpl. f_equal. by apply IH.
Qed.

Lemma fixed_name_text v : norm_name v = v ->
  clean_name_text (nan_blank (py_str v)) = py_str v.
Proof. unfold norm_name. destruct v; [|done..]. by intros [= E]. Qed.

Lemma fixed_ref_text v : norm_ref v = v ->
  clean_ref_text (nan_blank (py_str v)) = py_str v.
Proof. unfold norm_ref. destruct v; [|done..]. by intros [= E]. Qed.

Lemma clean_table_parts (T : DataFrame) (n r : pystr) :
  Frame.wf T -> n ∈ Frame.columns T -> r ∈ Frame.columns T ->
  temp_key ∉ Frame.columns T ->
  (forall v, v ∈ col T n -> norm_name v = v) ->
  (forall v, v ∈ col T r -> norm_ref v = v) ->
  NoDup (zip_with key_of (col T n) (col T r)) ->
  unique_part T n r = T
  /\ index (duplicate_part T n r) = []
  /\ names_changed_count T n = 0%nat /\ refs_changed_count T n r = 0%nat.
Proof.
  intros Hwf Hn Hr Hk Fn Fr Hnd.
  assert (E1 : names_cleaned T n = T).
  { unfold names_cleaned. rewrite (fmap_fixed _ _ Fn). by apply setitem_col_same. }
  assert (E2 : normalized T n r = T).
  { unfold normalized. rewrite E1, (fmap_fixed _ _ Fr). by apply setitem_col_same. }
  assert (E3 : keys T n r = zip_with key_of (col T n) (col T r)).
  { unfold keys. by rewrite E2. }
  set (K := zip_with key_of (col T n) (col T r)) in *.
  assert (LK : length K = length (index T)).
  { unfold K. rewrite length_zip_with, !wf_col_length by done.
    unfold Frame.len. lia. }
  assert (E4 : duplicate_mask T n r = (fun _ => false) <$> K).
  { unfold duplicate_mask. rewrite E3. by apply duplicated_NoDup. }
  split; [|split; [|split]].
  - unfold unique_part, keyed. rewrite E4, E2, E3.
    unfold Series.invert. rewrite <- list_fmap_compose.
    destruct Hwf as (_ & _ & Hlen). destruct T as [ix dat].
    unfold Frame.without, Frame.mask, Frame.setitem. cbn [index data] in *.
    f_equal; [apply select_all; lia|].
    rewrite (assoc_set_notin _ _ _ Hk), fmap_app, List.filter_app.
    cbn [fmap list_fmap List.filter prod_map fst snd id].
    rewrite bool_decide_eq_true_2 by done. cbn [negb]. rewrite app_nil_r.
    rewrite <- (filter_data_absent temp_key dat Hk) at 2. f_equal.
    rewrite <- (list_fmap_id dat) at 2. apply list_fmap_ext.
    intros i [c s] Hi. unfold prod_map. simpl. f_equal.
    apply select_all. rewrite Forall_lookup in Hlen.
    specialize (Hlen i (c, s) Hi). simpl in Hlen. lia.
  - rewrite index_duplicate_part, E4. apply select_none.
  - unfold names_changed_count.
    apply (changed_zero_iff (fun v => clean_name_text (nan_blank (py_str v)))).
    intros v Hv. by apply fixed_name_text, Fn.
  - unfold refs_changed_count. rewrite E1.
    apply (changed_zero_iff (fun v => clean_ref_text (nan_blank (py_str v)))).
    intros v Hv. by apply fixed_ref_text, Fr.
Qed.

(** X20: A table without a [_temp_key] column whose name and reference cells
    are texts that the cleaning leaves unchanged, with a different key in
    every row, is returned as it is: it is the unique table, the
    duplicate table has no row, and the only warnings are those for empty
    names and empty references. *)
Theorem clean_table_is_returned_as_it_is (sort_values : Group.sorter) (h : store)
    (l : ref) (T : DataFrame) (n r : pystr) (U D : DataFrame) (w : list pystr) :
  h !! l = Some T -> Frame.wf T -> temp_key ∉ Frame.columns T ->
  (forall v, v ∈ col T n -> norm_name v = v) ->
  (forall v, v ∈ col T r -> norm_ref v = v) ->
  NoDup (zip_with key_of (col T n) (col T r)) ->
  returns sort_values h l n r U D w ->
  U = T /\ Frame.len D = 0%nat
  /\ w = (if Nat.ltb 0 (count_empty (col T n) (col T n))
          then [Msg.empty_names (count_empty (col T n) (col T n))] else [])
         ++ (if Nat.ltb 0 (count_empty (col T r) (col T r))
             then [Msg.empty_refs (count_empty (col T r) (col T r))] else []).
Proof.
  intros Hl Hwf Hk Fn Fr Hnd Hret.
  destruct (returns_inv _ _ _ _ _ _ _ _ _ Hl Hret)
    as ((Hn & Hr & _ & _) & -> & -> & ->).
  destruct (clean_table_parts T n r Hwf Hn Hr Hk Fn Fr Hnd)
    as (EU & ED & En & Er).
  split; [done|]. split; [unfold Frame.len; by rewrite ED|].
  unfold warnings_of, report_text. rewrite En, Er, EU.
  unfold Frame.len. rewrite ED. cbn [length Nat.ltb Nat.leb app].
  by rewrite app_nil_r.
Qed.

Lemma clean_table_is_returned_as_it_is_witness :
  let n := lit "name" in
  let r := lit "ref" in
  unique_part clean_table n r = clean_table
  /\ Frame.len (duplicate_part clean_table n r) = 0%nat
  /\ warnings_of Group.merge_sort_desc clean_table n r
     = (if Nat.ltb 0 (count_empty (col clean_table n) (col clean_table n))
        then [Msg.empty_names (count_empty (col clean_table n) (col clean_table n))]
        else [])
       ++ (if Nat.ltb 0 (count_empty (col clean_table r) (col clean_table r))
           then [Msg.empty_refs (count_empty (col clean_table r) (col clean_table r))]
           else []).
Proof.
  apply (clean_table_is_returned_as_it_is Group.merge_sort_desc [clean_table]
           0%nat clean_table (lit "name") (lit "ref")).
  - reflexivity.
  - by_computation.
  - by_computation.
  - apply (proj1 (Forall_forall (fun v => norm_name v = v) _)). by_computation.
  - apply (proj1 (Forall_forall (fun v => norm_ref v = v) _)). by_computation.
  - by_computation.
  - by_run 4%nat 7%nat.
Defined.

(** ** A second run *)

Lemma list_filter_sublist {A} (f : A -> bool) (l : list A) :
  List.filter f l `sublist_of` l.
Proof.
  induction l as [|x l IH]; simpl; [done|].
  destruct (f x); [by apply sublist_skip|by apply sublist_cons].
Qed.

Lemma Forall_assoc_set (P : pystr * Series -> Prop) c s cols :
  P (c, s) -> Forall P cols -> Forall P (Frame.assoc_set c s cols).
Proof.
  intros Hs. induction 1 as [|[x s'] cols Hx Hcols IH]; simpl.
  - by constructor.
  - destruct (decide (x = c)); by constructor.
Qed.

Lemma wf_setitem d c s :
  Frame.wf d -> length s = length (index d) -> Frame.wf (Frame.setitem d c s).
Proof.
  intros (Hi & Hc & Hlen) Hs. split; [done|]. split.
  - destruct (decide (c ∈ Frame.columns d)) as [Hin|Hin].
    + by rewrite columns_setitem_in.
    + rewrite columns_setitem_notin by done. apply NoDup_app.
      split; [done|]. split; [|apply NoDup_singleton].
      intros x Hx ->%list_elem_of_singleton. done.
  - unfold Frame.setitem. cbn [index data]. by apply Forall_assoc_set.
Qed.

Lemma wf_mask d m : Frame.wf d -> Frame.wf (Frame.mask d m).
Proof.
  intros (Hi & Hc & Hlen). split; [|split].
  - eapply sublist_NoDup; [exact Hi|apply select_sublist].
  - by rewrite columns_mask.
  - unfold Frame.mask. cbn [index data]. apply Forall_fmap.
    eapply Forall_impl; [exact Hlen|]. intros [x s] Hs. simpl in *.
    by apply length_select_same.
Qed.

Lemma wf_without c d : Frame.wf d -> Frame.wf (Frame.without c d).
Proof.
  intros (Hi & Hc & Hlen). split; [done|]. split.
  - rewrite columns_without.
    eapply sublist_NoDup; [exact Hc|apply list_filter_sublist].
  - unfold Frame.without. cbn [index data]. apply Forall_forall.
    intros p Hp. apply list_elem_of_In, filter_In in Hp as [Hp _].
    rewrite Forall_forall in Hlen. by apply Hlen, list_elem_of_In.
Qed.

Lemma wf_keyed df n r :
  Frame.wf df -> n ∈ Frame.columns df -> r ∈ Frame.columns df ->
  Frame.wf (keyed df n r).
Proof.
  intros Hwf Hn Hr.
  assert (W1 : Frame.wf (names_cleaned df n)).
  { apply wf_setitem; [done|]. rewrite length_fmap. by apply wf_col_length. }
  assert (W2 : Frame.wf (normalized df n r)).
  { apply wf_setitem; [done|]. rewrite length_fmap.
    apply wf_col_length; [done|]. by rewrite columns_names_cleaned. }
  apply wf_setitem; [done|].
  unfold keys. rewrite length_zip_with, !length_normalized_col by done.
  change (index (normalized df n r)) with (index df). unfold Frame.len. lia.
Qed.

Lemma wf_part df n r m :
  Frame.wf df -> n ∈ Frame.columns df -> r ∈ Frame.columns df ->
  Frame.wf (Frame.without temp_key (Frame.mask (keyed df n r) m)).
Proof. intros Hwf Hn Hr. by apply wf_without, wf_mask, wf_keyed. Qed.







(** ** Well-formed tables *)

(** X22: When the row labels and the column names of the input are unique and
    each of its columns has one cell per row, the same holds of the two
    tables returned. *)
Theorem tables_returned_are_well_formed (sort_values : Group.sorter) (h : store)
    (l : ref) (df : DataFrame) (n r : pystr) (U D : DataFrame) (w : list pystr) :
  h !! l = Some df -> Frame.wf df -> returns sort_values h l n r U D w ->
  Frame.wf U /\ Frame.wf D.
Proof.
  intros Hl Hwf Hret.
  destruct (returns_inv _ _ _ _ _ _ _ _ _ Hl Hret)
    as ((Hn & Hr & _ & _) & -> & -> & _).
  split; by apply wf_part.
Qed.

Lemma tables_returned_are_well_formed_witness :
  let n := lit "designation" in
  let r := lit "reference" in
  Frame.wf (unique_part Examples.sample n r)
  /\ Frame.wf (duplicate_part Examples.sample n r).
Proof.
  apply (tables_returned_are_well_formed Group.merge_sort_desc [Examples.sample]
           0%nat Examples.sample (lit "designation") (lit "reference") _ _
           (warnings_of Group.merge_sort_desc Examples.sample
              (lit "designation") (lit "reference"))).
  - reflexivity.
  - by_computation.
  - by_run 4%nat 7%nat.
Defined.

(** ** Whitespace around a value *)

Lemma lstrip_ws_app (a s : pystr) :
  Forall (fun c => isspace c = true) a -> lstrip (a ++ s) = lstrip s.
Proof. induction 1 as [|c a Hc _ IH]; [done|]. simpl. by rewrite Hc. Qed.

Lemma rstrip_app_ws (s b : pystr) :
  Forall (fun c => isspace c = true) b -> rstrip (s ++ b) = rstrip s.
Proof.
  induction b as [|c b IH] using rev_ind; intros Hb.
  - by rewrite app_nil_r.
  - apply Forall_app in Hb as [Hb Hc]. rewrite Forall_singleton in Hc.
    rewrite app_assoc, rstrip_snoc, Hc. by apply IH.
Qed.

Lemma strip_app_ws (s b : pystr) :
  Forall (fun c => isspace c = true) b -> strip (s ++ b) = strip s.
Proof.
  intros Hb. unfold strip. induction s as [|c s IH]; simpl.
  - assert (E : lstrip b = []).
    { rewrite <- (app_nil_r b). exact (lstrip_ws_app b [] Hb). }
    by rewrite E.
  - destruct (isspace c); [exact IH|].
    by rewrite app_comm_cons, rstrip_app_ws.
Qed.

Lemma strip_padding (a s b : pystr) :
  Forall (fun c => isspace c = true) a -> Forall (fun c => isspace c = true) b ->
  strip (a ++ s ++ b) = strip s.
Proof.
  intros Ha Hb. rewrite <- (strip_app_ws s b Hb). unfold strip.
  by rewrite lstrip_ws_app.
Qed.

Lemma padded_is_not_nan (a s b : pystr) :
  Forall (fun c => isspace c = true) a -> Forall (fun c => isspace c = true) b ->
  s <> lit "nan" -> a ++ s ++ b <> lit "nan".
Proof.
  intros Ha Hb Hs E.
  destruct Ha as [|x a Hx _].
  2:{ injection E as -> _. vm_compute in Hx. discriminate. }
  simpl in E. destruct b as [|y b _] using rev_ind.
  { rewrite app_nil_r in E. done. }
  apply Forall_app in Hb as [_ Hy]. rewrite Forall_singleton in Hy.
  rewrite app_assoc in E. change (lit "nan") with ([110; 97] ++ [110]) in E.
  apply app_inj_tail in E as [_ ->]. vm_compute in Hy. discriminate.
Qed.

Lemma padded_cell_cleaned (a b : pystr) (v : cell) :
  Forall (fun c => isspace c = true) a -> Forall (fun c => isspace c = true) b ->
  py_str v <> lit "nan" ->
  norm_name (Text (a ++ py_str v ++ b)) = norm_name v
  /\ norm_ref (Text (a ++ py_str v ++ b)) = norm_ref v.
Proof.
  intros Ha Hb Hv. unfold norm_name, norm_ref. cbn [py_str].
  assert (E1 : nan_blank (a ++ py_str v ++ b) = a ++ py_str v ++ b).
  { unfold nan_blank. rewrite decide_False; [done|]. by apply padded_is_not_nan. }
  assert (E2 : nan_blank (py_str v) = py_str v).
  { unfold nan_blank. by rewrite decide_False. }
  rewrite E1, E2. unfold clean_name_text, clean_ref_text.
  by rewrite (strip_padding a (py_str v) b Ha Hb).
Qed.

(** X23: Whitespace around a value does not count. In a well-formed
    table, when the name and the reference of one row are the texts of the
    name and of the reference of another row with whitespace added at
    their ends, neither text being ['nan'], the two rows get the same key
    and both are in the duplicate table. *)
Theorem surrounding_whitespace_is_ignored (sort_values : Group.sorter)
    (h : store) (l : ref) (df : DataFrame) (n r : pystr) (U D : DataFrame)
    (w : list pystr) (i j x y : nat) (v v' : cell) (a b a' b' : pystr) :
  h !! l = Some df -> Frame.wf df -> n <> r ->
  returns sort_values h l n r U D w ->
  i <> j -> index df !! i = Some x -> index df !! j = Some y ->
  col df n !! j = Some v -> col df r !! j = Some v' ->
  col df n !! i = Some (Text (a ++ py_str v ++ b)) ->
  col df r !! i = Some (Text (a' ++ py_str v' ++ b')) ->
  Forall (fun c => isspace c = true) (a ++ b ++ a' ++ b') ->
  py_str v <> lit "nan" -> py_str v' <> lit "nan" ->
  key_of (norm_name (Text (a ++ py_str v ++ b)))
         (norm_ref (Text (a' ++ py_str v' ++ b')))
  = key_of (norm_name v) (norm_ref v')
  /\ x ∈ index D /\ y ∈ index D.
Proof.
  intros Hl Hwf Hne Hret Hij Hx Hy Hv Hv' Hp Hp' Hws Nv Nv'.
  apply Forall_app in Hws as [Ha Hws]. apply Forall_app in Hws as [Hb Hws].
  apply Forall_app in Hws as [Ha' Hb'].
  destruct (padded_cell_cleaned a b v Ha Hb Nv) as [En _].
  destruct (padded_cell_cleaned a' b' v' Ha' Hb' Nv') as [_ Er].
  destruct (returns_inv _ _ _ _ _ _ _ _ _ Hl Hret)
    as ((Hn & Hr & _ & _) & _ & -> & _).
  assert (Ki : keys df n r !! i = Some (key_of (norm_name v) (norm_ref v'))).
  { apply keys_lookup. exists (norm_name v), (norm_ref v').
    rewrite col_normalized_name, col_normalized_ref by done.
    rewrite !list_lookup_fmap, Hp, Hp'. cbn [fmap option_fmap option_map].
    by rewrite En, Er. }
  assert (Kj : keys df n r !! j = Some (key_of (norm_name v) (norm_ref v'))).
  { apply keys_lookup. exists (norm_name v), (norm_ref v').
    rewrite col_normalized_name, col_normalized_ref by done.
    by rewrite !list_lookup_fmap, Hv, Hv'. }
  split; [by rewrite En, Er|]. split.
  - apply (duplicates_share_a_key df n r i x Hwf Hn Hr Hx).
    exists j, (key_of (norm_name v) (norm_ref v')). auto.
  - apply (duplicates_share_a_key df n r j y Hwf Hn Hr Hy).
    exists i, (key_of (norm_name v) (norm_ref v')). auto.
Qed.

Lemma surrounding_whitespace_is_ignored_witness :
  let n := lit "name" in
  let r := lit "ref" in
  let D := duplicate_part padded_table n r in
  key_of (norm_name (Text (lit "  " ++ lit "Vis M6" ++ [9; 10])))
         (norm_ref (Text ([] ++ lit "REF001" ++ lit " ")))
  = key_of (norm_name (Text (lit "Vis M6"))) (norm_ref (Text (lit "REF001")))
  /\ 0%nat ∈ index D /\ 1%nat ∈ index D.
Proof.
  apply (surrounding_whitespace_is_ignored Group.merge_sort_desc [padded_table]
           0%nat padded_table (lit "name") (lit "ref")
           (unique_part padded_table (lit "name") (lit "ref")) _
           (warnings_of Group.merge_sort_desc padded_table (lit "name") (lit "ref"))
           0%nat 1%nat 0%nat 1%nat
           (Text (lit "Vis M6")) (Text (lit "REF001"))
           (lit "  ") [9; 10] [] (lit " ")).
  - reflexivity.
  - by_computation.
  - by_computation.
  - by_run 4%nat 7%nat.
  - lia.
  - reflexivity.
  - reflexivity.
  - reflexivity.
  - reflexivity.
  - reflexivity.
  - reflexivity.
  - by_computation.
  - by_computation.
  - by_computation.
Defined.

(** ** A call without warnings *)

Lemma select_nil_inv {A} (m : list bool) (l : list A) :
  length m = length l -> Series.select m l = [] -> m = (fun _ => false) <$> l.
Proof.
  revert l. induction m as [|x m IH]; intros [|y l] Hlen; simpl in *; try done.
  injection Hlen as Hlen. destruct x; [done|]. intros H. f_equal. by apply IH.
Qed.

Lemma mask_all {B} (d : DataFrame) (k : list B) :
  Frame.wf d -> length k = length (index d) ->
  Frame.mask d ((fun _ => true) <$> k) = d.
Proof.
  intros (_ & _ & Hlen) Hk. destruct d as [ix dat].
  unfold Frame.mask. cbn [index data] in *. f_equal; [apply select_all; lia|].
  rewrite <- (list_fmap_id dat) at 2. apply list_fmap_ext.
  intros i [c s] Hi. unfold prod_map. simpl. f_equal.
  apply select_all. rewrite Forall_lookup in Hlen.
  specialize (Hlen i (c, s) Hi). simpl in Hlen. lia.
Qed.

Lemma without_setitem_absent d c s :
  c ∉ Frame.columns d -> Frame.without c (Frame.setitem d c s) = d.
Proof.
  intros Hc. destruct d as [ix dat].
  unfold Frame.without, Frame.setitem. cbn [index data]. f_equal.
  rewrite (assoc_set_notin _ _ _ Hc), List.filter_app.
  cbn [List.filter fst]. rewrite bool_decide_eq_true_2 by done.
  cbn [negb]. rewrite app_nil_r. by apply filter_data_absent.
Qed.

Lemma unique_part_without_duplicates df n r :
  Frame.wf df -> n ∈ Frame.columns df -> r ∈ Frame.columns df ->
  temp_key ∉ Frame.columns df ->
  index (duplicate_part df n r) = [] ->
  unique_part df n r = normalized df n r.
Proof.
  intros Hwf Hn Hr Hk HD.
  pose proof (length_duplicate_mask df n r Hwf Hn Hr) as Lm.
  rewrite index_duplicate_part in HD.
  pose proof (select_nil_inv _ _ Lm HD) as Em.
  unfold unique_part. rewrite Em.
  replace (Series.invert ((fun _ => false) <$> index df))
    with ((fun _ : nat => true) <$> index df)
    by (unfold Series.invert; by rewrite <- list_fmap_compose).
  rewrite (mask_all (keyed df n r) (index df)); [|by apply wf_keyed|done].
  unfold keyed. apply without_setitem_absent. by rewrite columns_normalized.
Qed.

Lemma singleton_if_nil {A} (b : bool) (x : A) :
  (if b then [x] else []) = [] -> b = false.
Proof. by destruct b. Qed.

(** X24: When a call on a well-formed table without a [_temp_key] column
    returns no warning, nothing was cleaned and nothing was set aside:
    the unique table is the input with the cells of the two selected
    columns turned into their text, and the duplicate table has no
    row. *)
Theorem no_warning_means_nothing_was_changed (sort_values : Group.sorter)
    (h : store) (l : ref) (df : DataFrame) (n r : pystr) (U D : DataFrame) :
  h !! l = Some df -> Frame.wf df -> temp_key ∉ Frame.columns df -> n <> r ->
  returns sort_values h l n r U D [] ->
  U = Frame.setitem (Frame.setitem df n (Series.astype_str (col df n)))
        r (Series.astype_str (col df r))
  /\ Frame.len D = 0%nat.
Proof.
  intros Hl Hwf Hk Hne Hret.
  destruct (returns_inv _ _ _ _ _ _ _ _ _ Hl Hret)
    as ((Hn & Hr & _ & _) & -> & -> & Hw).
  symmetry in Hw. unfold warnings_of, report_text in Hw.
  apply app_nil in Hw as [_ Hw].
  apply app_nil in Hw as [Hnames Hw]. apply app_nil in Hw as [Hrefs Hw].
  apply app_nil in Hw as [_ Hw]. apply app_nil in Hw as [_ Hdup].
  apply singleton_if_nil, Nat.ltb_ge in Hnames.
  apply singleton_if_nil, Nat.ltb_ge in Hrefs.
  assert (HD : Frame.len (duplicate_part df n r) = 0%nat).
  { destruct (Nat.ltb 0 (Frame.len (duplicate_part df n r))) eqn:E; [done|].
    apply Nat.ltb_ge in E. lia. }
  split; [|done].
  rewrite unique_part_without_duplicates by (done || by apply nil_length_inv).
  assert (En : names_changed_count df n = 0%nat) by lia.
  assert (Er : refs_changed_count df n r = 0%nat) by lia.
  unfold names_changed_count in En. unfold refs_changed_count, names_cleaned in Er.
  rewrite col_setitem_ne in Er by done.
  unfold normalized, names_cleaned. rewrite col_setitem_ne by done.
  f_equal; [f_equal|]; unfold Series.astype_str; apply list_fmap_ext;
    intros i v Hv; unfold norm_name, norm_ref; f_equal.
  - apply (proj1 (changed_zero_iff
                    (fun v => clean_name_text (nan_blank (py_str v))) _) En).
    by eapply list_elem_of_lookup_2.
  - apply (proj1 (changed_zero_iff
                    (fun v => clean_ref_text (nan_blank (py_str v))) _) Er).
    by eapply list_elem_of_lookup_2.
Qed.

Lemma no_warning_means_nothing_was_changed_witness :
  let n := lit "name" in
  let r := lit "ref" in
  unique_part clean_table n r
  = Frame.setitem (Frame.setitem clean_table n (Series.astype_str (col clean_table n)))
      r (Series.astype_str (col clean_table r))
  /\ Frame.len (duplicate_part clean_table n r) = 0%nat.
Proof.
  apply (no_warning_means_nothing_was_changed Group.merge_sort_desc [clean_table]
           0%nat clean_table (lit "name") (lit "ref")).
  - reflexivity.
  - by_computation.
  - by_computation.
  - by_computation.
  - by_run 4%nat 7%nat.
Defined.
